(** * opensc-explorer: the shell's own logic, embedded and verified

    A shallow embedding of [src/tools/opensc-explorer.c]: the hex codec
    ([hex2binary]), path resolution ([arg_to_path]), the directory commands
    ([do_ls], [do_cd]), the chunked transparent reads
    ([read_and_util_print_binary_file], [do_get]), the PIN commands
    ([do_verify], [do_change], [do_unblock]) and command dispatch
    ([ambiguous_match], the body of the loop of [main]).

    C integers are modelled by [Z]; a byte is a [Z] in [0, 256); a C string is
    a [string] (the characters before the terminating NUL).  The card and the
    local file system are external collaborators: they appear as the fields
    of the class [CardInterface], and every call the shell makes to them is
    recorded in a ghost trace so that statements can speak about the
    arguments that reach the card. *)

From Stdlib Require Import ZArith List String Ascii Bool Lia DecimalString Wf_nat.
Import ListNotations.

#[local] Open Scope string_scope.
#[local] Open Scope Z_scope.

(** ** Characters and C strings *)

Module CString.

Definition char_code (c : ascii) : Z := Z.of_N (N_of_ascii c).

Definition in_range (lo hi : ascii) (c : ascii) : bool :=
  (char_code lo <=? char_code c) && (char_code c <=? char_code hi).

(** [isdigit], [isxdigit], [isspace], [isupper] in the "C" locale. *)
Definition isdigit (c : ascii) : bool := in_range "0" "9" c.

Definition isxdigit (c : ascii) : bool :=
  in_range "0" "9" c || in_range "a" "f" c || in_range "A" "F" c.

Definition isspace (c : ascii) : bool :=
  (char_code c =? 32) || ((9 <=? char_code c) && (char_code c <=? 13)).

Definition isupper (c : ascii) : bool := in_range "A" "Z" c.

Definition tolower (c : ascii) : ascii :=
  if isupper c then ascii_of_N (N_of_ascii c + 32) else c.

Definition strlen (s : string) : Z := Z.of_nat (String.length s).

(** [strncasecmp a b n]: the difference of the first pair of characters
    that differ after case folding among the first [n], [0] when there is
    none.  The end of a string is its NUL, of code [0]. *)
Fixpoint strncasecmp_nat (a b : string) (n : nat) : Z :=
  match n with
  | O => 0
  | S n' =>
      match a, b with
      | EmptyString, EmptyString => 0
      | EmptyString, String cb _ => 0 - char_code (tolower cb)
      | String ca _, EmptyString => char_code (tolower ca)
      | String ca a', String cb b' =>
          if char_code (tolower ca) =? char_code (tolower cb)
          then strncasecmp_nat a' b' n'
          else char_code (tolower ca) - char_code (tolower cb)
      end
  end.

Definition strncasecmp (a b : string) (n : Z) : Z :=
  strncasecmp_nat a b (Z.to_nat n).

(** [strcmp a b == 0]. *)
Definition streq (a b : string) : bool := String.eqb a b.

(** [s + n] for a pointer [s] into a string of at least [n] characters. *)
Fixpoint advance (s : string) (n : nat) : string :=
  match n, s with
  | O, _ => s
  | S n', String _ s' => advance s' n'
  | S _, EmptyString => EmptyString
  end.

(** [s[0]], the NUL of the empty string included. *)
Definition first_char (s : string) : ascii :=
  match s with
  | EmptyString => zero
  | String c _ => c
  end.

End CString.
Import CString.

(** ** HexCodec: [hex2binary] *)

(** The value subtracted out of a hex digit by the three branches of
    [hex2binary]. *)
Definition hex_digit_value (c : ascii) : Z :=
  if in_range "0" "9" c then char_code c - char_code "0"
  else if in_range "a" "f" c then char_code c - (char_code "a" - 10)
  else char_code c - (char_code "A" - 10).

(** [*out <<= 4] on a [u8]. *)
Definition u8_shl4 (b : Z) : Z := Z.shiftl b 4 mod 256.

(** Apply [f] to the byte under the write pointer, the last one started. *)
Fixpoint update_last (f : Z -> Z) (out : list Z) : list Z :=
  match out with
  | [] => []
  | [b] => [f b]
  | b :: rest => b :: update_last f rest
  end.

(** The loop [while (inlen && (len || s))]: [p] is the unread input (its
    length is [inlen]), [len] the room left in the output, [s] tells whether
    the first nibble of a byte has been read, and [out] holds the bytes
    written so far, the last of them under the pointer [out]. *)
Fixpoint hex2binary_loop (p : string) (len : Z) (s : bool) (out : list Z)
  : Z * bool * list Z :=
  match p with
  | EmptyString => (len, s, out)
  | String c p' =>
      if negb ((negb (len =? 0)) || s) then (len, s, out)
      else if negb (isxdigit c) then hex2binary_loop p' len s out
      else
        let v := hex_digit_value c in
        if s
        then hex2binary_loop p' len (negb s)
               (update_last (fun b => Z.lor (u8_shl4 b) v) out)
        else hex2binary_loop p' (len - 1) (negb s) (out ++ [Z.lor 0 v])
  end.

(** What a call of [hex2binary] leaves behind: the value returned, the bytes
    it stored through [out] (in order, from [out[0]]), and what it printed. *)
Record hex2binary_result := {
  h2b_ret : Z;
  h2b_out : list Z;
  h2b_printed : list string
}.

Definition hex2binary (outlen : Z) (input : string) : hex2binary_result :=
  let '(len, s, out) := hex2binary_loop input outlen false [] in
  if s
  then {| h2b_ret := 0; h2b_out := out;
          h2b_printed := ["Error: the number of hex digits must be even."] |}
  else {| h2b_ret := outlen - len; h2b_out := out; h2b_printed := [] |}.

(** ** Formatted output *)

Definition hex_digit (n : Z) : string :=
  String (nth (Z.to_nat n) (list_ascii_of_string "0123456789ABCDEF") "?"%char)
         EmptyString.

(** [%02X] of a byte. *)
Definition hex2 (b : Z) : string := hex_digit (b / 16) ++ hex_digit (b mod 16).

(** [%d] *)
Definition dec (z : Z) : string := NilZero.string_of_int (Z.to_int z).

(** [%<n>s]: right-justified in a field of [n] characters. *)
Definition pad_left (n : nat) (s : string) : string :=
  string_of_list_ascii (repeat " "%char (n - String.length s)) ++ s.

Definition TAB : string := String (ascii_of_nat 9) EmptyString.

(** ** Data model: paths and files of libopensc *)

(** Modelled from the spec: the constants of libopensc's headers
    (types.h, opensc.h) are not among the sources.  The spec bounds an AppId
    by 16 bytes; a path holds at most as many.  The three path tags stand
    for the spec's [ExplicitId], [AppId] and [RelativePath]; a
    zero-initialised path carries the tag 0, the one of a bare file id. *)
Definition SC_MAX_PATH_SIZE : Z := 16.
Definition SC_MAX_AID_SIZE : Z := 16.
Definition SC_PATH_TYPE_FILE_ID : Z := 0.
Definition SC_PATH_TYPE_DF_NAME : Z := 1.
Definition SC_PATH_TYPE_PATH : Z := 2.
Definition SC_FILE_TYPE_WORKING_EF : Z := 1.
Definition SC_FILE_TYPE_INTERNAL_EF : Z := 3.
Definition SC_FILE_TYPE_DF : Z := 4.
Definition SC_SUCCESS : Z := 0.
Definition SC_ERROR_INVALID_ARGUMENTS : Z := -1300.
Definition SC_ERROR_SECURITY_STATUS_NOT_SATISFIED : Z := -1211.
Definition SC_ERROR_PIN_CODE_INCORRECT : Z := -1214.
Definition SC_AC_NONE : Z := 0.
Definition SC_AC_CHV : Z := 1.
Definition SC_AC_PRO : Z := 4.
Definition SC_AC_AUT : Z := 8.
Definition SC_PIN_CMD_VERIFY : Z := 0.
Definition SC_PIN_CMD_USE_PINPAD : Z := 2.

(** [size_t] and [unsigned int] arithmetic wraps around (LP64). *)
Definition size_t_wrap (z : Z) : Z := z mod 2 ^ 64.
Definition uint_wrap (z : Z) : Z := z mod 2 ^ 32.

(** [struct sc_aid] and [sc_path_t], with the fields the shell touches. *)
Record sc_aid := {
  aid_value : list Z;
  aid_len : Z
}.

Record sc_path := {
  path_value : list Z;
  path_len : Z;
  path_index : Z;
  path_count : Z;
  path_type : Z;
  path_aid : sc_aid
}.

(** [sc_file_t], with the fields the shell touches. *)
Record sc_file := {
  file_type : Z;
  file_id : Z;
  file_size : Z;
  file_name : list Z;
  file_namelen : Z
}.

(** [memset(&path, 0, sizeof(sc_path_t))] *)
Definition zero_aid : sc_aid :=
  {| aid_value := repeat 0 (Z.to_nat SC_MAX_AID_SIZE); aid_len := 0 |}.

Definition zero_path : sc_path :=
  {| path_value := repeat 0 (Z.to_nat SC_MAX_PATH_SIZE); path_len := 0;
     path_index := 0; path_count := 0; path_type := 0; path_aid := zero_aid |}.

(** [memcpy(dst + off, src, length src)] inside the array [dst]. *)
Definition store (dst : list Z) (off : Z) (src : list Z) : list Z :=
  firstn (Z.to_nat off) dst ++ src
    ++ skipn (Z.to_nat off + List.length src) dst.

Definition set_path_len (p : sc_path) (n : Z) : sc_path :=
  {| path_value := path_value p; path_len := n; path_index := path_index p;
     path_count := path_count p; path_type := path_type p;
     path_aid := path_aid p |}.

Definition set_path_type (p : sc_path) (t : Z) : sc_path :=
  {| path_value := path_value p; path_len := path_len p;
     path_index := path_index p; path_count := path_count p; path_type := t;
     path_aid := path_aid p |}.

Definition set_path_value (p : sc_path) (v : list Z) : sc_path :=
  {| path_value := v; path_len := path_len p; path_index := path_index p;
     path_count := path_count p; path_type := path_type p;
     path_aid := path_aid p |}.

Definition set_path_aid (p : sc_path) (a : sc_aid) : sc_path :=
  {| path_value := path_value p; path_len := path_len p;
     path_index := path_index p; path_count := path_count p;
     path_type := path_type p; path_aid := a |}.

Definition set_file_id (f : sc_file) (id : Z) : sc_file :=
  {| file_type := file_type f; file_id := id; file_size := file_size f;
     file_name := file_name f; file_namelen := file_namelen f |}.

(** The bytes a path stands for: the first [len] of [value]. *)
Definition path_bytes (p : sc_path) : list Z :=
  firstn (Z.to_nat (path_len p)) (path_value p).

(** Modelled from the spec: libopensc's [sc_append_path_id] is not among the
    sources.  It appends the id as the new trailing component of the path;
    a path with no room left stays as it is and an error is returned. *)
Definition sc_append_path_id (dest : sc_path) (id : list Z) : Z * sc_path :=
  if path_len dest + Z.of_nat (List.length id) >? SC_MAX_PATH_SIZE
  then (SC_ERROR_INVALID_ARGUMENTS, dest)
  else (SC_SUCCESS,
        set_path_len (set_path_value dest (store (path_value dest) (path_len dest) id))
                     (path_len dest + Z.of_nat (List.length id))).

(** Modelled from the spec: libopensc's [sc_path_set] is not among the
    sources.  It builds a bare address of the given tag out of the id. *)
Definition sc_path_set (type : Z) (id : list Z) (idx count : Z) : Z * sc_path :=
  if (Z.of_nat (List.length id) =? 0)
     || (Z.of_nat (List.length id) >? SC_MAX_PATH_SIZE)
  then (SC_ERROR_INVALID_ARGUMENTS, zero_path)
  else (SC_SUCCESS,
        {| path_value := store (path_value zero_path) 0 id;
           path_len := Z.of_nat (List.length id);
           path_index := idx; path_count := count; path_type := type;
           path_aid := zero_aid |}).

(** Modelled from the spec: libopensc's [sc_format_path] is not among the
    sources.  The shell calls it on the literal 3F00 only, the well-known
    root id: the result is the root-relative path of length 2. *)
Definition sc_format_path_3F00 : sc_path :=
  {| path_value := store (path_value zero_path) 0 [63; 0];
     path_len := 2; path_index := 0; path_count := -1;
     path_type := SC_PATH_TYPE_PATH; path_aid := zero_aid |}.

(** The operations [check_ret] is asked about. *)
Inductive ac_op :=
| SC_AC_OP_SELECT
| SC_AC_OP_LIST_FILES
| SC_AC_OP_READ.

(** A PIN argument as it travels to libopensc: a pointer and a length.
    [None] is the null pointer; [Some bytes] points to a buffer whose first
    [length] bytes are [bytes]. *)
Definition pin_ptr := option (list Z).

(** ** The two [sscanf] formats the shell uses

    Both are read the way the C library the shell is linked with (glibc)
    reads a number: white space is skipped, a sign is optional, a leading 0
    is taken, and in base 16 an x that follows it is consumed when the
    field width is not exhausted; then come the digits, as far as the width
    allows.  The conversion fails when no character was collected but a
    sign.  Only the comparison of the return value with the number of
    conversions is observed by the callers, so a scan yields [Some] of the
    converted values when every conversion succeeded and [None] otherwise
    (a matching failure or an input failure). *)

Fixpoint skip_spaces (s : string) : string :=
  match s with
  | String c s' => if isspace c then skip_spaces s' else s
  | EmptyString => s
  end.

(** The decimal digits at the head of [s]: their value (after [acc]) and
    how many there are. *)
Fixpoint scan_decimal (s : string) (acc : Z) (seen : nat) : Z * nat :=
  match s with
  | String c s' =>
      if isdigit c
      then scan_decimal s' (10 * acc + (char_code c - char_code "0")) (S seen)
      else (acc, seen)
  | EmptyString => (acc, seen)
  end.

(** What [strtol] makes of a number that does not fit a [long] of 64
    bits: [LONG_MAX] or [LONG_MIN]. *)
Definition long_clamp (z : Z) : Z := Z.max (- 2 ^ 63) (Z.min z (2 ^ 63 - 1)).

(** The [long] read, stored into an [int] of 32 bits: the low 32 bits, in
    two's complement. *)
Definition int_wrap (z : Z) : Z := (z + 2 ^ 31) mod 2 ^ 32 - 2 ^ 31.

(** [sscanf(s, "%d", &v) == 1], with the value stored in the [int].  White
    space is skipped, a sign is optional, at least one digit is required,
    and what follows the digits is left unread.  The digits are converted
    as by [strtol] and the [long] is stored into the [int]: a number out
    of the range of [int] wraps around. *)
Definition sscanf_d (s : string) : option Z :=
  let s1 := skip_spaces s in
  let '(neg, s2) :=
    match s1 with
    | String c rest =>
        if (char_code c =? char_code "-") then (true, rest)
        else if (char_code c =? char_code "+") then (false, rest)
        else (false, s1)
    | EmptyString => (false, s1)
    end in
  match scan_decimal s2 0 0 with
  | (_, O) => None
  | (v, S _) => Some (int_wrap (long_clamp (if neg then - v else v)))
  end.

(** One [%02X] directive: white space is skipped, then at most two
    characters are read: an optional sign followed by hex digits, or a 0
    and the x (or X) of a base prefix, which is consumed and leaves the 0
    as the number read.  The result is the [unsigned int] stored and the
    unread input. *)
Definition scan_02X (s : string) : option (Z * string) :=
  match skip_spaces s with
  | EmptyString => None
  | String c1 rest =>
      if (char_code c1 =? char_code "-") || (char_code c1 =? char_code "+")
      then
        match rest with
        | String c2 rest' =>
            if isxdigit c2
            then Some ((if char_code c1 =? char_code "-"
                        then (- hex_digit_value c2) mod 2 ^ 32
                        else hex_digit_value c2), rest')
            else None
        | EmptyString => None
        end
      else if isxdigit c1
      then
        match rest with
        | String c2 rest' =>
            if (char_code c1 =? char_code "0")
               && ((char_code c2 =? char_code "x") || (char_code c2 =? char_code "X"))
            then Some (0, rest')
            else if isxdigit c2
            then Some (16 * hex_digit_value c1 + hex_digit_value c2, rest')
            else Some (hex_digit_value c1, rest)
        | EmptyString => Some (hex_digit_value c1, rest)
        end
      else None
  end.

(** [sscanf(arg, "%02X%02X", &buf[0], &buf[1]) == 2] *)
Definition sscanf_02X_02X (arg : string) : option (Z * Z) :=
  match scan_02X arg with
  | Some (b0, rest) =>
      match scan_02X rest with
      | Some (b1, _) => Some (b0, b1)
      | None => None
      end
  | None => None
  end.

(** ** The external collaborators *)

(** [struct sc_pin_cmd_data], with the fields [do_verify] fills. *)
Record sc_pin_cmd_data := {
  pcd_cmd : Z;
  pcd_flags : Z;
  pcd_pin_type : Z;
  pcd_pin_reference : Z;
  pcd_pin1_prompt : option string;
  pcd_pin1_data : pin_ptr;
  pcd_pin1_len : Z
}.

(** The card behind libopensc and the local files behind libc.  [world] is
    their joint state; each primitive takes the state and the arguments of
    the C call and gives the value returned, what it stored through its
    out-parameters, and the next state.  Nothing is assumed about them. *)
Class CardInterface := {
  world : Type;
  SC_CARD_TYPE_BELPIC_EID : Z;
  (** [card->type] *)
  card_type : world -> Z;
  (** [card->reader->capabilities & SC_READER_CAP_PIN_PAD] *)
  reader_pin_pad : world -> bool;
  (** [sc_select_file(card, &path, file_out)]: the flag tells whether
      [file_out] is non-null; the file is meaningful when the call
      returned 0. *)
  sc_select_file : world -> sc_path -> bool -> Z * sc_file * world;
  (** [sc_list_files(card, buf, buflen)]: the value returned and [buf] *)
  sc_list_files : world -> Z -> Z * list Z * world;
  (** [sc_read_binary(card, idx, buf, count, 0)]: the value returned and
      [buf] after the call *)
  sc_read_binary : world -> Z -> list Z -> Z -> Z * list Z * world;
  (** [sc_pin_cmd(card, &data, &tries_left)] *)
  sc_pin_cmd : world -> sc_pin_cmd_data -> Z -> Z * Z * world;
  (** [sc_change_reference_data(card, type, ref, old, oldlen, new, newlen,
      &tries_left)] *)
  sc_change_reference_data :
    world -> Z -> Z -> pin_ptr -> Z -> pin_ptr -> Z -> Z -> Z * Z * world;
  (** [sc_reset_retry_counter(card, type, ref, puk, puklen, new, newlen)] *)
  sc_reset_retry_counter :
    world -> Z -> Z -> pin_ptr -> Z -> pin_ptr -> Z -> Z * world;
  (** [sc_hex_to_bin(in, out, &outlen)] with [*outlen] on entry: the value
      returned and the bytes stored, [*outlen] of them on exit *)
  sc_hex_to_bin : string -> Z -> Z * list Z;
  sc_strerror : Z -> string;
  (** [util_acl_to_str(sc_file_get_acl_entry(file, op))] *)
  util_acl_to_str : option sc_file -> ac_op -> string;
  (** what [util_print_binary] and [util_hex_dump_asc] write *)
  util_print_binary : list Z -> string;
  util_hex_dump_asc : list Z -> Z -> string;
  (** [fopen(filename, mode) != NULL] *)
  fopen : world -> string -> string -> bool * world;
  (** [fwrite(buf, r, 1, outf)] on the file opened under that name *)
  fwrite : world -> string -> list Z -> unit * world;
  (** [fread(buf, 1, c, outf)]: the value returned and [buf] after the call *)
  fread : world -> string -> list Z -> Z -> Z * list Z * world;
  (** [sc_update_binary(card, idx, buf, count, 0)] *)
  sc_update_binary : world -> Z -> list Z -> Z -> Z * world
}.

(** The calls that reach the collaborators, in the order they are made
    (ghost state: the shell never reads it). *)
Inductive call :=
| Call_select_file (path : sc_path) (want_file : bool) (r : Z)
| Call_list_files (buflen r : Z)
| Call_read_binary (idx count r : Z)
| Call_pin_cmd (data : sc_pin_cmd_data) (r : Z)
| Call_change_reference_data
    (type ref : Z) (old : pin_ptr) (oldlen : Z) (new : pin_ptr) (newlen : Z) (r : Z)
| Call_reset_retry_counter
    (type ref : Z) (puk : pin_ptr) (puklen : Z) (new : pin_ptr) (newlen : Z) (r : Z)
| Call_fopen (filename mode : string) (ok : bool)
| Call_fwrite (filename : string) (data : list Z)
| Call_fread (filename : string) (count r : Z)
| Call_update_binary (idx : Z) (data : list Z) (count r : Z).

(** ** The shell's state and the monad of its commands *)

Section Shell.

Context {CI : CardInterface}.

(** The globals [current_file], [current_path] and [card], the two output
    streams, and the ghost trace. *)
Record shell_state := {
  current_file : option sc_file;
  current_path : sc_path;
  card : world;
  stdout : list string;
  stderr : list string;
  trace : list call
}.

(** A command returns to its caller, or leaves the process through [die]
    ([exit(code)]); a loop that is given too little fuel runs out of it;
    and a command may run into undefined behaviour. *)
Inductive outcome (A : Type) : Type :=
| Returned (a : A) (st : shell_state)
| Exited (code : Z) (st : shell_state)
| OutOfFuel
| Undefined.

#[global] Arguments Returned {A} a st.
#[global] Arguments Exited {A} code st.
#[global] Arguments OutOfFuel {A}.
#[global] Arguments Undefined {A}.

Definition M (A : Type) : Type := shell_state -> outcome A.

(** The value a run returned, if it returned, and the state a run ended
    in. *)
Definition returned {A} (o : outcome A) : option A :=
  match o with
  | Returned a _ => Some a
  | _ => None
  end.

Definition final_state {A} (o : outcome A) (default : shell_state) : shell_state :=
  match o with
  | Returned _ st => st
  | Exited _ st => st
  | _ => default
  end.

Definition ret {A} (a : A) : M A := fun st => Returned a st.

Definition bind {A B} (m : M A) (k : A -> M B) : M B :=
  fun st =>
    match m st with
    | Returned a st' => k a st'
    | Exited code st' => Exited code st'
    | OutOfFuel => OutOfFuel
    | Undefined => Undefined
    end.

Definition out_of_fuel {A} : M A := fun _ => OutOfFuel.

(** Behaviour that C leaves undefined (a store before the start of an
    array, the use of an uninitialised buffer). *)
Definition undefined {A} : M A := fun _ => Undefined.

Definition get_current_path : M sc_path :=
  fun st => Returned (current_path st) st.

Definition get_current_file : M (option sc_file) :=
  fun st => Returned (current_file st) st.

Definition get_card : M world := fun st => Returned (card st) st.

Definition set_current_path (p : sc_path) : M unit :=
  fun st =>
    Returned tt {| current_file := current_file st; current_path := p;
                   card := card st; stdout := stdout st;
                   stderr := stderr st; trace := trace st |}.

Definition set_current_file (f : option sc_file) : M unit :=
  fun st =>
    Returned tt {| current_file := f; current_path := current_path st;
                   card := card st; stdout := stdout st;
                   stderr := stderr st; trace := trace st |}.

(** The state after [lines] went to [stdout]. *)
Definition add_stdout (st : shell_state) (lines : list string) : shell_state :=
  {| current_file := current_file st; current_path := current_path st;
     card := card st; stdout := stdout st ++ lines; stderr := stderr st;
     trace := trace st |}.

(** [printf]/[puts] and [fprintf(stderr, ...)]: one entry per call, the
    newline left out. *)
Definition printf (s : string) : M unit :=
  fun st => Returned tt (add_stdout st [s]).

Definition eprintf (s : string) : M unit :=
  fun st =>
    Returned tt {| current_file := current_file st;
                   current_path := current_path st; card := card st;
                   stdout := stdout st; stderr := stderr st ++ [s];
                   trace := trace st |}.

(** The state after a call to a collaborator: the world has moved on and
    the call is logged. *)
Definition after_call (st : shell_state) (w : world) (c : call) : shell_state :=
  {| current_file := current_file st; current_path := current_path st;
     card := w; stdout := stdout st; stderr := stderr st;
     trace := trace st ++ [c] |}.

Definition external {A} (run : world -> A * world) (log : A -> call) : M A :=
  fun st => let '(a, w) := run (card st) in Returned a (after_call st w (log a)).

(** [die(ret)]: the resources are released and the process exits. *)
Definition die {A} (code : Z) : M A := fun st => Exited code st.

End Shell.

Declare Scope shell_scope.
Delimit Scope shell_scope with shell.
Notation "x <- m ;; k" := (bind m (fun x => k))
  (at level 61, m at next level, right associativity) : shell_scope.
Notation "' pat <- m ;; k" := (bind m (fun x => match x with pat => k end))
  (at level 61, pat pattern, m at next level, right associativity) : shell_scope.
Notation "m ;; k" := (bind m (fun _ => k))
  (at level 61, right associativity) : shell_scope.
#[local] Open Scope shell_scope.

Section Commands.

Context {CI : CardInterface}.

Definition argc (argv : list string) : Z := Z.of_nat (List.length argv).

(** [argv[i]]; past [argc] the vector holds the empty strings [main]
    stored there. *)
Definition arg (argv : list string) (i : nat) : string := nth i argv "".

Definition select_file (path : sc_path) (want_file : bool) : M (Z * sc_file) :=
  external (fun w => let '(r, f, w') := sc_select_file w path want_file in ((r, f), w'))
           (fun rf => Call_select_file path want_file (fst rf)).

Definition select_current_path_or_die : M unit :=
  cp <- get_current_path ;;
  if negb (path_type cp =? 0) || negb (path_len cp =? 0)
  then
    '(r, _) <- select_file cp false ;;
    if negb (r =? 0)
    then printf ("unable to select parent DF: " ++ sc_strerror r) ;; die 1
    else ret tt
  else ret tt.

Definition check_ret (r : Z) (op : ac_op) (err : string) (file : option sc_file)
  : M unit :=
  eprintf (err ++ ": " ++ sc_strerror r) ;;
  if r =? SC_ERROR_SECURITY_STATUS_NOT_SATISFIED
  then eprintf ("ACL for operation: " ++ util_acl_to_str file op)
  else ret tt.

Fixpoint print_lines (lines : list string) : M unit :=
  match lines with
  | [] => ret tt
  | l :: rest => printf l ;; print_lines rest
  end.

(** [arg_to_path(arg, &path, is_id)]: the value returned and [path]. *)
Definition arg_to_path (a : string) (is_id : bool) : M (Z * sc_path) :=
  let path := zero_path in
  if strncasecmp a "aid:" (strlen "aid:") =? 0
  then
    (* DF aid *)
    let p := advance a (Z.to_nat (strlen "aid:")) in
    let h := hex2binary SC_MAX_PATH_SIZE p in
    print_lines (h2b_printed h) ;;
    ret (0, set_path_type
              (set_path_len (set_path_value path (store (path_value path) 0 (h2b_out h)))
                            (h2b_ret h))
              SC_PATH_TYPE_DF_NAME)
  else
    (* file id *)
    if negb (strlen a =? 4)
    then printf "Wrong ID length." ;; ret (-1, path)
    else
      match sscanf_02X_02X a with
      | None => printf "Invalid ID." ;; ret (-1, path)
      | Some (b0, b1) =>
          let cbuf := [b0 mod 256; b1 mod 256] in
          if ((b0 mod 256 =? 63) && (b1 mod 256 =? 0)) || is_id
          then
            ret (0, set_path_type
                      (set_path_value (set_path_len path 2)
                                      (store (path_value path) 0 cbuf))
                      (if is_id then SC_PATH_TYPE_FILE_ID else SC_PATH_TYPE_PATH))
          else
            cp <- get_current_path ;;
            if path_type cp =? SC_PATH_TYPE_DF_NAME
            then
              if path_len cp >? SC_MAX_AID_SIZE
              then printf "Invalid length of DF_NAME path" ;; ret (-1, cp)
              else
                let with_aid :=
                  set_path_aid cp
                    {| aid_value := store (aid_value (path_aid cp)) 0 (path_bytes cp);
                       aid_len := path_len cp |} in
                ret (0, snd (sc_append_path_id
                               (set_path_len (set_path_type with_aid SC_PATH_TYPE_FILE_ID) 0)
                               cbuf))
            else ret (0, snd (sc_append_path_id cp cbuf))
      end.

Definition print_file (file : sc_file) : M unit :=
  let id := hex2 (Z.shiftr (file_id file) 8) ++ hex2 (Z.land (file_id file) 255) in
  let '(shown, st) :=
    if file_type file =? SC_FILE_TYPE_WORKING_EF then (" " ++ id ++ " ", "wEF")
    else if file_type file =? SC_FILE_TYPE_INTERNAL_EF then (" " ++ id ++ " ", "iEF")
    else if file_type file =? SC_FILE_TYPE_DF then ("[" ++ id ++ "]", "DF")
    else (" " ++ id ++ " ", "???") in
  printf shown ;;
  printf (TAB ++ pad_left 4 st) ;;
  printf (" " ++ pad_left 5 (dec (file_size file))) ;;
  (if negb (file_namelen file =? 0)
   then printf (TAB ++ "Name: ") ;;
        printf (util_print_binary (firstn (Z.to_nat (file_namelen file)) (file_name file)))
   else ret tt) ;;
  printf "".

Definition list_files (buflen : Z) : M (Z * list Z) :=
  external (fun w => let '(r, buf, w') := sc_list_files w buflen in ((r, buf), w'))
           (fun rb => Call_list_files buflen (fst rb)).

(** The body of [while (count >= 2)] in [do_ls], run [iters] times:
    [count] starts at the length of the listing and loses 2 per turn, so
    the body runs [count / 2] times; [cur] is the offset of the pointer
    [cur] into [buf]. *)
Fixpoint do_ls_loop (iters : nat) (buf : list Z) (cur : nat) : M unit :=
  match iters with
  | O => ret tt
  | S iters' =>
      let cur0 := nth cur buf 0 in
      let cur1 := nth (cur + 1) buf 0 in
      cp <- get_current_path ;;
      path <- (if negb (path_type cp =? SC_PATH_TYPE_DF_NAME)
               then ret (snd (sc_append_path_id cp [cur0; cur1]))
               else
                 let '(r, p) := sc_path_set SC_PATH_TYPE_FILE_ID [cur0; cur1] 0 0 in
                 if negb (r =? SC_SUCCESS)
                 then printf "unable to set path." ;; die 1
                 else ret p) ;;
      '(r, file) <- select_file path true ;;
      (if negb (r =? 0)
       then printf (" " ++ hex2 cur0 ++ hex2 cur1 ++ " unable to select file, "
                        ++ sc_strerror r)
       else print_file (set_file_id file (Z.lor (Z.shiftl cur0 8) cur1))) ;;
      select_current_path_or_die ;;
      do_ls_loop iters' buf (cur + 2)
  end.

Definition do_ls (argv : list string) : M Z :=
  if negb (argc argv =? 0)
  then printf "Usage: ls" ;; ret (-1)
  else
    '(r, buf) <- list_files 256 ;;
    if r <? 0
    then
      cf <- get_current_file ;;
      check_ret r SC_AC_OP_LIST_FILES "unable to receive file listing" cf ;;
      ret (-1)
    else
      printf ("FileID" ++ TAB ++ "Type  Size") ;;
      do_ls_loop (Z.to_nat (r / 2)) buf 0 ;;
      ret 0.

Definition do_cd_usage : M Z :=
  printf "Usage: cd <file_id>|aid:<DF name>" ;; ret (-1).

Definition do_cd (argv : list string) : M Z :=
  if negb (argc argv =? 1) then do_cd_usage
  else if streq (arg argv 0) ".."
  then
    path <- get_current_path ;;
    if path_len path <? 4
    then printf "unable to go up, already in MF." ;; ret (-1)
    else
      let path :=
        if path_type path =? SC_PATH_TYPE_DF_NAME
        then sc_format_path_3F00
        else set_path_len path (path_len path - 2) in
      '(r, file) <- select_file path true ;;
      if negb (r =? 0)
      then printf ("unable to go up: " ++ sc_strerror r) ;; ret (-1)
      else
        set_current_file (Some file) ;;
        set_current_path path ;;
        ret 0
  else
    '(r, path) <- arg_to_path (arg argv 0) false ;;
    if negb (r =? 0) then do_cd_usage
    else
      '(r, file) <- select_file path true ;;
      if negb (r =? 0)
      then
        cf <- get_current_file ;;
        check_ret r SC_AC_OP_SELECT "unable to select DF" cf ;;
        ret (-1)
      else
        w <- get_card ;;
        if negb (file_type file =? SC_FILE_TYPE_DF)
           && negb (card_type w =? SC_CARD_TYPE_BELPIC_EID)
        then
          printf "Error: file is not a DF." ;;
          select_current_path_or_die ;;
          ret (-1)
        else
          set_current_path path ;;
          set_current_file (Some file) ;;
          ret 0.

(** *** Chunked transparent reads *)

Definition read_binary (idx : Z) (buf : list Z) (count : Z) : M (Z * list Z) :=
  external (fun w => let '(r, buf', w') := sc_read_binary w idx buf count in ((r, buf'), w'))
           (fun rb => Call_read_binary idx count (fst rb)).

(** The loop [while (count)] that [read_and_util_print_binary_file] and
    [do_get] both contain, word for word but for the size of [buf]
    ([bound]), what is done with the bytes read ([sink], applied to the
    first [r] bytes of [buf] and to [idx]) and the label the failures jump
    to.  The result tells whether the loop failed, and gives [idx]. *)
Fixpoint read_chunks (bound : Z) (sink : list Z -> Z -> M unit) (fuel : nat)
    (file : sc_file) (idx : Z) (buf : list Z) (count : Z) : M (bool * Z) :=
  if count =? 0 then ret (false, idx)
  else
    match fuel with
    | O => out_of_fuel
    | S fuel' =>
        let c := if count >? bound then bound else count in
        '(r, buf') <- read_binary idx buf c ;;
        if r <? 0
        then check_ret r SC_AC_OP_READ "read failed" (Some file) ;; ret (true, idx)
        else
          w <- get_card ;;
          if negb (r =? c) && negb (card_type w =? SC_CARD_TYPE_BELPIC_EID)
          then
            printf ("expecting " ++ dec c ++ ", got only " ++ dec r ++ " bytes.") ;;
            ret (true, idx)
          else if (r =? 0) && (card_type w =? SC_CARD_TYPE_BELPIC_EID)
          then ret (false, idx)
          else
            sink (firstn (Z.to_nat r) buf') idx ;;
            read_chunks bound sink fuel' file
              (uint_wrap (idx + r)) buf' (size_t_wrap (count - r))
    end.

Definition read_and_util_print_binary_file (fuel : nat) (file : sc_file) : M Z :=
  '(failed, _) <- read_chunks 128 (fun data idx => printf (util_hex_dump_asc data idx))
                    fuel file 0 (repeat 0 128) (file_size file) ;;
  if (failed : bool) then ret (-1) else ret 0.

(** *** get and put *)

(** The [sprintf] loop of [do_get]: one chunk of five characters per
    pair of bytes of the path. *)
Fixpoint do_get_fbuf (pairs : nat) (i : nat) (value : list Z) : string :=
  match pairs with
  | O => ""
  | S pairs' =>
      hex2 (nth (2 * i) value 0) ++ hex2 (nth (2 * i + 1) value 0) ++ "_"
        ++ do_get_fbuf pairs' (S i) value
  end.

(** [s] cut by a NUL stored over its last character. *)
Definition drop_last_char (s : string) : string :=
  string_of_list_ascii (removelast (list_ascii_of_string s)).

(** The default file name of [do_get]: [i] stops at the first value with
    [2*i >= path.len]; then [fbuf[5*i-1] = 0].  With an empty path that
    store lands before the buffer, which is left uninitialised. *)
Definition do_get_default_filename (path : sc_path) : option string :=
  let pairs := Z.to_nat ((path_len path + 1) / 2) in
  match pairs with
  | O => None
  | S _ => Some (drop_last_char (do_get_fbuf pairs 0 (path_value path)))
  end.

Definition do_get_usage : M Z :=
  printf "Usage: get <file id> [output file]" ;; ret (-1).

Definition string_of_bytes (data : list Z) : string :=
  string_of_list_ascii (map (fun b => ascii_of_nat (Z.to_nat b)) data).

(** [fwrite(buf, r, 1, outf)]: [outf] is [stdout] or the file opened. *)
Definition do_get_sink (to_stdout : bool) (filename : string)
    (data : list Z) (idx : Z) : M unit :=
  if to_stdout then printf (string_of_bytes data)
  else external (fun w => fwrite w filename data)
                (fun _ => Call_fwrite filename data).

Definition do_get (fuel : nat) (argv : list string) : M Z :=
  if (argc argv <? 1) || (argc argv >? 2) then do_get_usage
  else
    '(r, path) <- arg_to_path (arg argv 0) false ;;
    if negb (r =? 0) then do_get_usage
    else
      match (if argc argv =? 2 then Some (arg argv 1)
             else do_get_default_filename path) with
      | None => undefined
      | Some filename =>
          let to_stdout := streq filename "-" in
          opened <- (if to_stdout then ret true
                     else external (fun w => fopen w filename "wb")
                                   (fun ok => Call_fopen filename "wb" ok)) ;;
          err <-
            (if negb opened then eprintf filename ;; ret 1
             else
               '(r, file) <- select_file path true ;;
               if negb (r =? 0)
               then
                 cf <- get_current_file ;;
                 check_ret r SC_AC_OP_SELECT "unable to select file" cf ;;
                 ret 1
               else if negb (file_type file =? SC_FILE_TYPE_WORKING_EF)
               then printf "only working EFs may be read" ;; ret 1
               else
                 '(failed, idx) <- read_chunks 256 (do_get_sink to_stdout filename)
                                     fuel file 0 (repeat 0 256) (file_size file) ;;
                 if (failed : bool) then ret 1
                 else
                   (if to_stdout then printf ""
                    else printf ("Total of " ++ dec idx ++ " bytes read from "
                                   ++ arg argv 0 ++ " and saved to " ++ filename ++ ".")) ;;
                   ret 0) ;;
          select_current_path_or_die ;;
          ret (- err)
      end.

(** The default file name of [do_put]:
    [sprintf(buf, "%02X%02X", path.value[0], path.value[1])]. *)
Definition do_put_default_filename (path : sc_path) : string :=
  hex2 (nth 0 (path_value path) 0) ++ hex2 (nth 1 (path_value path) 0).

Definition do_put_usage : M Z :=
  printf "Usage: put <file id> [input file]" ;; ret (-1).

(** The loop [while (count)] of [do_put]; the result tells whether it
    failed, and gives [idx]. *)
Fixpoint do_put_loop (fuel : nat) (filename : string) (file : sc_file)
    (idx : Z) (buf : list Z) (count : Z) : M (bool * Z) :=
  if count =? 0 then ret (false, idx)
  else
    match fuel with
    | O => out_of_fuel
    | S fuel' =>
        let c := if count >? 256 then 256 else count in
        '(r, buf') <- external (fun w => let '(r, b, w') := fread w filename buf c in
                                         ((r, b), w'))
                               (fun rb => Call_fread filename c (fst rb)) ;;
        if r <? 0 then eprintf "fread" ;; ret (true, idx)
        else
          let '(count, c) := if negb (r =? c) then (r, r) else (count, c) in
          r <- external (fun w => sc_update_binary w idx buf' c)
                        (fun r => Call_update_binary idx (firstn (Z.to_nat c) buf') c r) ;;
          if r <? 0
          then check_ret r SC_AC_OP_READ "update failed" (Some file) ;; ret (true, idx)
          else if negb (r =? c)
          then
            printf ("expecting " ++ dec c ++ ", wrote only " ++ dec r ++ " bytes.") ;;
            ret (true, idx)
          else
            do_put_loop fuel' filename file (uint_wrap (idx + c)) buf'
              (size_t_wrap (count - c))
    end.

Definition do_put (fuel : nat) (argv : list string) : M Z :=
  if (argc argv <? 1) || (argc argv >? 2) then do_put_usage
  else
    '(r, path) <- arg_to_path (arg argv 0) false ;;
    if negb (r =? 0) then do_put_usage
    else
      let filename :=
        if argc argv =? 2 then arg argv 1 else do_put_default_filename path in
      opened <- external (fun w => fopen w filename "rb")
                         (fun ok => Call_fopen filename "rb" ok) ;;
      err <-
        (if negb opened then eprintf filename ;; ret 1
         else
           '(r, file) <- select_file path true ;;
           if negb (r =? 0)
           then
             cf <- get_current_file ;;
             check_ret r SC_AC_OP_SELECT "unable to select file" cf ;;
             ret 1
           else
             '(failed, idx) <- do_put_loop fuel filename file 0 (repeat 0 256)
                                 (file_size file) ;;
             if (failed : bool) then ret 1
             else printf ("Total of " ++ dec idx ++ " bytes written.") ;; ret 0) ;;
      select_current_path_or_die ;;
      ret (- err).

(** *** The PIN commands *)

(** The double quote character, of code 34. *)
Definition is_quote (c : ascii) : bool := char_code c =? 34.

Definition DQUOTE : string := String (ascii_of_nat 34) EmptyString.

(** The copy loop of a quoted literal, from [s = a + 1] and [i = 0]:
    while [i < size], [*s] is not NUL and [*s] is not a double quote,
    [buf[i] = *s++].  The result is the bytes stored, [i] of them. *)
Fixpoint copy_literal (size : nat) (s : string) : list Z :=
  match size, s with
  | S size', String c s' =>
      if is_quote c then [] else char_code c :: copy_literal size' s'
  | _, _ => []
  end.

(** One PIN value, as [do_change] and [do_unblock] decode it into a buffer
    of [size] bytes: a quoted literal is copied, anything else goes
    through [sc_hex_to_bin], whose failure is the "Invalid key value"
    error ([None]).  The result is the bytes stored; their number is the
    length left in [oldpinlen], [newpinlen] or [puklen]. *)
Definition pin_value (size : Z) (a : string) : option (list Z) :=
  if is_quote (first_char a)
  then Some (copy_literal (Z.to_nat size) (advance a 1))
  else
    let '(r, bytes) := sc_hex_to_bin a size in
    if negb (r =? 0) then None else Some bytes.

Definition len_of (bytes : list Z) : Z := Z.of_nat (List.length bytes).


Definition typeNames : list (string * Z) :=
  [("CHV", SC_AC_CHV); ("KEY", SC_AC_AUT); ("AUT", SC_AC_AUT); ("PRO", SC_AC_PRO)].

(** The search loop of [do_verify], from [data.pin_type = SC_AC_NONE]. *)
Fixpoint find_pin_type (a : string) (names : list (string * Z)) : Z :=
  match names with
  | [] => SC_AC_NONE
  | (n, t) :: rest =>
      if strncasecmp a n 3 =? 0 then t else find_pin_type a rest
  end.

(** What the label [usage] of [do_verify] prints, one entry per [printf]. *)
Definition do_verify_usage_lines : list string :=
  ["Usage: verify <key type><key ref> [<key in hex>]";
   "Possible values of <key type>:"]
    ++ map (fun nt => TAB ++ fst nt) typeNames
    ++ ["Example: verify CHV2 31:32:33:34:00:00:00:00";
        "If key is omitted, card reader's keypad will be used to collect PIN."].

Definition do_verify_usage : M Z :=
  print_lines do_verify_usage_lines ;; ret (-1).

Definition do_verify (argv : list string) : M Z :=
  if (argc argv <? 1) || (argc argv >? 2) then do_verify_usage
  else
    let pin_type := find_pin_type (arg argv 0) typeNames in
    if pin_type =? SC_AC_NONE
    then printf "Invalid type." ;; do_verify_usage
    else
      match sscanf_d (advance (arg argv 0) 3) with
      | None => printf "Invalid key reference." ;; do_verify_usage
      | Some ref =>
          let data (flags : Z) (prompt : option string) (pin : pin_ptr) (n : Z) :=
            {| pcd_cmd := SC_PIN_CMD_VERIFY; pcd_flags := flags;
               pcd_pin_type := pin_type; pcd_pin_reference := ref;
               pcd_pin1_prompt := prompt; pcd_pin1_data := pin;
               pcd_pin1_len := n |} in
          prepared <-
            (if argc argv <? 2
             then
               w <- get_card ;;
               if negb (reader_pin_pad w)
               then printf "Card reader or driver doesn't support PIN PAD" ;;
                    ret (inl (-1))
               else printf "Please enter PIN on the reader's pin pad." ;;
                    ret (inr (data (Z.lor 0 SC_PIN_CMD_USE_PINPAD)
                                   (Some "Please enter PIN") None 0))
             else if is_quote (first_char (arg argv 1))
             then
               let buf := copy_literal 64 (advance (arg argv 1) 1) in
               ret (inr (data 0 None (Some buf) (len_of buf)))
             else
               let '(r, buf) := sc_hex_to_bin (arg argv 1) 64 in
               if negb (r =? 0)
               then printf "Invalid key value." ;;
                    r <- do_verify_usage ;; ret (inl r)
               else ret (inr (data 0 None (Some buf) (len_of buf)))) ;;
          match prepared with
          | inl r => ret r
          | inr data =>
              '(r, tries_left) <-
                external (fun w => let '(r, t, w') := sc_pin_cmd w data (-1) in ((r, t), w'))
                         (fun rt => Call_pin_cmd data (fst rt)) ;;
              if negb (r =? 0)
              then
                (if r =? SC_ERROR_PIN_CODE_INCORRECT
                 then
                   if tries_left >=? 0
                   then printf ("Incorrect code, " ++ dec tries_left ++ " tries left.")
                   else printf "Incorrect code."
                 else printf ("Unable to verify PIN code: " ++ sc_strerror r)) ;;
                ret (-1)
              else printf "Code correct." ;; ret 0
          end
      end.




Definition do_unblock_usage_lines : list string :=
  let q := DQUOTE in
  ["Usage: unblock CHV<pin ref> [<puk>] [<new pin>]";
   "PUK and PIN values can be hexadecimal, ASCII, empty (" ++ q ++ q ++ ") or absent";
   "Examples:";
   TAB ++ "Unblock PIN and set a new value:   unblock CHV2 00:00:00:00:00:00 "
       ++ q ++ "foobar" ++ q;
   TAB ++ "Unblock PIN keeping the old value: unblock CHV2 00:00:00:00:00:00 "
       ++ q ++ q;
   TAB ++ "Set new PIN value:                 unblock CHV2 "
       ++ q ++ q ++ " " ++ q ++ "foobar" ++ q;
   "Examples with pinpad:";
   TAB ++ "Unblock PIN: new PIN value is prompted by pinpad:                   unblock CHV2 00:00:00:00:00:00";
   TAB ++ "Set PIN: new PIN value is prompted by pinpad:                       unblock CHV2 "
       ++ q ++ q;
   TAB ++ "Unblock PIN: unblock code and new PIN value are prompted by pinpad: unblock CHV2"].

Definition do_unblock_usage : M Z :=
  print_lines do_unblock_usage_lines ;; ret (-1).

Definition do_unblock (argv : list string) : M Z :=
  if (argc argv <? 1) || (argc argv >? 3) then do_unblock_usage
  else if negb (strncasecmp (arg argv 0) "CHV" 3 =? 0)
  then printf "Invalid type." ;; do_unblock_usage
  else
    match sscanf_d (advance (arg argv 0) 3) with
    | None => printf "Invalid key reference." ;; do_unblock_usage
    | Some ref =>
        (* argc--; argv++; *)
        let argv := tl argv in
        (* [puk], [puklen], and the arguments left *)
        let puk_part :=
          if argc argv =? 0 then Some (None, 0, argv)
          else
            match pin_value 30 (arg argv 0) with
            | None => None
            | Some puk_buf => Some (Some puk_buf, len_of puk_buf, tl argv)
            end in
        match puk_part with
        | None => printf "Invalid key value." ;; do_unblock_usage
        | Some (puk, puklen, argv) =>
            (* [newpin], [newpinlen] *)
            let new_part :=
              if negb (argc argv =? 0)
              then
                match pin_value 30 (arg argv 0) with
                | None => None
                | Some newpin_buf => Some (Some newpin_buf, len_of newpin_buf)
                end
              else Some (None, 0) in
            match new_part with
            | None => printf "Invalid key value." ;; do_unblock_usage
            | Some (newpin, newpinlen) =>
                r <- external
                       (fun w => sc_reset_retry_counter w SC_AC_CHV ref
                                   puk puklen newpin newpinlen)
                       (fun r => Call_reset_retry_counter SC_AC_CHV ref
                                   puk puklen newpin newpinlen r) ;;
                if negb (r =? 0)
                then
                  (if r =? SC_ERROR_PIN_CODE_INCORRECT
                   then printf "Incorrect code."
                   else ret tt) ;;
                  printf ("Unable to unblock PIN code: " ++ sc_strerror r) ;;
                  ret (-1)
                else printf "PIN unblocked." ;; ret 0
            end
        end
    end.

(** *** The command table and dispatch *)

(** The handlers the table points to. *)
Inductive handler :=
| H_do_ls | H_do_cd | H_do_cat | H_do_info | H_do_create | H_do_delete
| H_do_verify | H_do_change | H_do_unblock | H_do_put | H_do_get
| H_do_get_data | H_do_put_data | H_do_mkdir | H_do_erase | H_do_random
| H_do_quit | H_do_update_record | H_do_update_binary | H_do_debug
| H_do_apdu | H_do_asn1.

(** [struct command] *)
Record command := {
  cmd_name : string;
  cmd_func : handler;
  cmd_help : string
}.

Definition cmds : list command :=
  [ {| cmd_name := "ls"; cmd_func := H_do_ls; cmd_help := "list all files in the current DF" |};
    {| cmd_name := "cd"; cmd_func := H_do_cd; cmd_help := "change to another DF" |};
    {| cmd_name := "cat"; cmd_func := H_do_cat; cmd_help := "print the contents of an EF" |};
    {| cmd_name := "info"; cmd_func := H_do_info; cmd_help := "display attributes of card file" |};
    {| cmd_name := "create"; cmd_func := H_do_create; cmd_help := "create a new EF" |};
    {| cmd_name := "delete"; cmd_func := H_do_delete; cmd_help := "remove an EF/DF" |};
    {| cmd_name := "rm"; cmd_func := H_do_delete; cmd_help := "remove an EF/DF" |};
    {| cmd_name := "verify"; cmd_func := H_do_verify; cmd_help := "present a PIN or key to the card" |};
    {| cmd_name := "change"; cmd_func := H_do_change; cmd_help := "change a PIN" |};
    {| cmd_name := "unblock"; cmd_func := H_do_unblock; cmd_help := "unblock a PIN" |};
    {| cmd_name := "put"; cmd_func := H_do_put; cmd_help := "copy a local file to the card" |};
    {| cmd_name := "get"; cmd_func := H_do_get; cmd_help := "copy an EF to a local file" |};
    {| cmd_name := "do_get"; cmd_func := H_do_get_data; cmd_help := "get a data object" |};
    {| cmd_name := "do_put"; cmd_func := H_do_put_data; cmd_help := "put a data object" |};
    {| cmd_name := "mkdir"; cmd_func := H_do_mkdir; cmd_help := "create a DF" |};
    {| cmd_name := "erase"; cmd_func := H_do_erase; cmd_help := "erase card" |};
    {| cmd_name := "random"; cmd_func := H_do_random; cmd_help := "obtain N random bytes from card" |};
    {| cmd_name := "quit"; cmd_func := H_do_quit; cmd_help := "quit this program" |};
    {| cmd_name := "exit"; cmd_func := H_do_quit; cmd_help := "quit this program" |};
    {| cmd_name := "update_record"; cmd_func := H_do_update_record; cmd_help := "update record" |};
    {| cmd_name := "update_binary"; cmd_func := H_do_update_binary; cmd_help := "update binary" |};
    {| cmd_name := "debug"; cmd_func := H_do_debug; cmd_help := "set the debug level" |};
    {| cmd_name := "apdu"; cmd_func := H_do_apdu; cmd_help := "send a custom apdu command" |};
    {| cmd_name := "asn1"; cmd_func := H_do_asn1; cmd_help := "decode an asn1 file" |} ].

(** The [for] loop of [ambiguous_match]: [last_match] and [matches]
    after the entries of [table]. *)
Fixpoint ambiguous_match_loop (table : list command) (cmd : string)
    (last_match : option command) (matches : Z) : option command * Z :=
  match table with
  | [] => (last_match, matches)
  | entry :: table' =>
      if strncasecmp cmd (cmd_name entry) (strlen cmd) =? 0
      then ambiguous_match_loop table' cmd (Some entry) (matches + 1)
      else ambiguous_match_loop table' cmd last_match matches
  end.

Definition ambiguous_match (table : list command) (cmd : string)
  : M (option command) :=
  let '(last_match, matches) := ambiguous_match_loop table cmd None 0 in
  if matches >? 1
  then printf ("Ambiguous command: " ++ cmd) ;; ret None
  else ret last_match.

(** [%-16s] *)
Definition pad_right (n : nat) (s : string) : string :=
  s ++ string_of_list_ascii (repeat " "%char (n - String.length s)).

Definition usage_lines (table : list command) : list string :=
  "Supported commands:"
    :: map (fun c => "  " ++ pad_right 16 (cmd_name c) ++ " " ++ cmd_help c) table.

Definition usage : M unit := print_lines (usage_lines cmds).

(** The three characters [parse_line] splits on. *)
Definition is_blank (c : ascii) : bool :=
  (char_code c =? 32) || (char_code c =? 9) || (char_code c =? 10).

(** [in += strspn(in, blanks)] *)
Fixpoint skip_blanks (s : string) : string :=
  match s with
  | String c s' => if is_blank c then skip_blanks s' else s
  | EmptyString => s
  end.

(** [strcspn]: what precedes the first character that [stop] accepts, and
    the string from that character on. *)
Fixpoint span_until (stop : ascii -> bool) (s : string) : string * string :=
  match s with
  | String c s' =>
      if stop c then (EmptyString, s)
      else let '(before, from) := span_until stop s' in (String c before, from)
  | EmptyString => (EmptyString, EmptyString)
  end.

(** [if ( *in != 0 ) *in++ = 0;]: the character that ends a token is
    overwritten and stepped over. *)
Definition cut (s : string) : string :=
  match s with
  | String _ s' => s'
  | EmptyString => s
  end.

(** The loop of [parse_line], with [maxargc - argc] turns left: the
    tokens from [argv[argc]] on, or [None] where the function returns 0
    at an unterminated quoted string. *)
Fixpoint parse_line_loop (turns : nat) (input : string) : option (list string) :=
  match turns with
  | O => Some []
  | S turns' =>
      match skip_blanks input with
      | EmptyString => Some []
      | String c rest =>
          if is_quote c
          then
            (* Parse quoted string *)
            let '(body, from) := span_until is_quote rest in
            match from with
            | EmptyString => None
            | String closing after =>
                option_map (cons (String c (body ++ String closing EmptyString)))
                           (parse_line_loop turns' (cut after))
            end
          else
            (* White space delimited word *)
            let '(word, from) := span_until is_blank (String c rest) in
            option_map (cons word) (parse_line_loop turns' (cut from))
      end
  end.

(** [parse_line(in, argv, maxargc)]: the vector [argv]; its length is the
    value returned. *)
Definition parse_line (input : string) (maxargc : Z) : list string :=
  match parse_line_loop (Z.to_nat maxargc) input with
  | Some argv => argv
  | None => []
  end.

(** One turn of the loop of [main] once a line has been read: the line is
    split, the command looked up, and either [usage] runs or the handler
    found is called on [cargc - 1] and [cargv + 1].  The result is that
    call, left to the handler. *)
Definition main_dispatch (line : string) : M (option (handler * list string)) :=
  let cargv := parse_line line 260 in
  if argc cargv <? 1 then ret None
  else
    cmd <- ambiguous_match cmds (arg cargv 0) ;;
    match cmd with
    | None => usage ;; ret None
    | Some c => ret (Some (cmd_func c, tl cargv))
    end.

End Commands.

(** ** Observations on the trace *)

(** The address selected on the card: the one of the last call of
    [sc_select_file] that succeeded. *)
Fixpoint selected_on_card (t : list call) (before : option sc_path) : option sc_path :=
  match t with
  | [] => before
  | Call_select_file p _ r :: t' =>
      selected_on_card t' (if r =? 0 then Some p else before)
  | _ :: t' => selected_on_card t' before
  end.

(** The guard of [select_current_path_or_die]:
    [current_path.type || current_path.len]. *)
Definition has_address (p : sc_path) : bool :=
  negb (path_type p =? 0) || negb (path_len p =? 0).

(** Every selection of a file for its attributes is followed at once by a
    successful selection of [cp]. *)
Fixpoint restores_after_each (cp : sc_path) (t : list call) : Prop :=
  match t with
  | [] => True
  | Call_select_file _ true _ :: Call_select_file p false r :: t' =>
      p = cp /\ r = 0 /\ restores_after_each cp t'
  | Call_select_file _ _ _ :: _ => False
  | _ :: t' => restores_after_each cp t'
  end.

(** The calls of [sc_read_binary]: the offset, the count asked for and the
    value returned. *)
Fixpoint reads_of (t : list call) : list (Z * Z * Z) :=
  match t with
  | [] => []
  | Call_read_binary idx count r :: t' => (idx, count, r) :: reads_of t'
  | _ :: t' => reads_of t'
  end.


(** The entries of a command table that [ambiguous_match] counts for a
    typed name: those the name is a prefix of, letter case apart. *)
Definition prefix_matches (table : list command) (cmd : string) : list command :=
  filter (fun entry => strncasecmp cmd (cmd_name entry) (strlen cmd) =? 0) table.



(** The hex digits of a string, in order. *)
Fixpoint hex_digits (s : string) : list ascii :=
  match s with
  | EmptyString => []
  | String c s' => if isxdigit c then c :: hex_digits s' else hex_digits s'
  end.

(** The bytes that pairs of hex digits stand for; a last digit alone is
    left out. *)
Fixpoint bytes_of_digits (ds : list ascii) : list Z :=
  match ds with
  | hi :: lo :: ds' => (16 * hex_digit_value hi + hex_digit_value lo) :: bytes_of_digits ds'
  | _ => []
  end.

(** The loop of [hex2binary] as it acts on the hex digits of its input
    alone (the other characters leave [len], [s] and [out] as they are). *)
Fixpoint hex2binary_digits (ds : list ascii) (len : Z) (s : bool) (out : list Z)
  : Z * bool * list Z :=
  match ds with
  | [] => (len, s, out)
  | d :: ds' =>
      if negb ((negb (len =? 0)) || s) then (len, s, out)
      else if s
      then hex2binary_digits ds' len (negb s)
             (update_last (fun b => Z.lor (u8_shl4 b) (hex_digit_value d)) out)
      else hex2binary_digits ds' (len - 1) (negb s) (out ++ [Z.lor 0 (hex_digit_value d)])
  end.

(** The rendering of a path as [do_get] names a file after it: the pairs
    of bytes in hex, joined by an underscore. *)
Fixpoint join_pairs (bytes : list Z) : string :=
  match bytes with
  | [] => ""
  | [b] => hex2 b ++ hex2 0
  | [b0; b1] => hex2 b0 ++ hex2 b1
  | b0 :: b1 :: rest => hex2 b0 ++ hex2 b1 ++ "_" ++ join_pairs rest
  end.

(** A shell state around a world. *)
Definition initial_state {CI : CardInterface} (w : world) (p : sc_path)
  : shell_state :=
  {| current_file := None; current_path := p; card := w;
     stdout := []; stderr := []; trace := [] |}.

(** ** A simulated card, for concrete runs *)

Module Sim.

(** Modelled from the spec: libopensc's [sc_hex_to_bin] is not among the
    sources.  The unquoted form of a PIN value is strict hex: pairs of hex
    digits, which a colon may separate as in the examples of the usage
    texts; any other character makes the conversion fail, and so does a
    value longer than the buffer. *)
Fixpoint sc_hex_to_bin_loop (fuel : nat) (s : string) (left : Z) (out : list Z)
  : Z * list Z :=
  match fuel, s with
  | _, EmptyString => (0, out)
  | O, _ => (SC_ERROR_INVALID_ARGUMENTS, out)
  | S fuel', String c1 rest =>
      if negb (isxdigit c1) then (SC_ERROR_INVALID_ARGUMENTS, out)
      else
        let '(byte, rest) :=
          match rest with
          | String c2 rest' =>
              if isxdigit c2 then (16 * hex_digit_value c1 + hex_digit_value c2, rest')
              else (hex_digit_value c1, rest)
          | EmptyString => (hex_digit_value c1, rest)
          end in
        let rest := match rest with
                    | String c rest' => if char_code c =? 58 then rest' else rest
                    | EmptyString => rest
                    end in
        if left <=? 0 then (-1303, out)
        else sc_hex_to_bin_loop fuel' rest (left - 1) (out ++ [byte])
  end.

Definition strict_hex_to_bin (s : string) (outlen : Z) : Z * list Z :=
  sc_hex_to_bin_loop (String.length s) s outlen [].

(** The card: the bytes its directory listing returns, the card type, the
    size of every file, how many bytes its reads deliver for a request of
    [count] bytes (never more than [count]), and the address selected
    last. *)
Record sim := {
  sim_listing : list Z;
  sim_type : Z;
  sim_file_size : Z;
  sim_read : Z -> Z;
  sim_selected : option sc_path
}.

Definition select (w : sim) (p : sc_path) : sim :=
  {| sim_listing := sim_listing w; sim_type := sim_type w;
     sim_file_size := sim_file_size w; sim_read := sim_read w;
     sim_selected := Some p |}.

Definition BELPIC : Z := 12002.

Definition card_interface : CardInterface :=
  {| world := sim;
     SC_CARD_TYPE_BELPIC_EID := BELPIC;
     card_type := sim_type;
     reader_pin_pad := fun _ => true;
     sc_select_file := fun w p _ =>
       (0, {| file_type := SC_FILE_TYPE_WORKING_EF; file_id := 0;
              file_size := sim_file_size w; file_name := []; file_namelen := 0 |},
        select w p);
     sc_list_files := fun w _ => (Z.of_nat (List.length (sim_listing w)), sim_listing w, w);
     sc_read_binary := fun w _ buf count =>
       (Z.min (sim_read w count) count,
        repeat 170 (Z.to_nat (Z.min (sim_read w count) count)), w);
     sc_pin_cmd := fun w _ t => (0, t, w);
     sc_change_reference_data := fun w _ _ _ _ _ _ t => (0, t, w);
     sc_reset_retry_counter := fun w _ _ _ _ _ _ => (0, w);
     sc_hex_to_bin := strict_hex_to_bin;
     sc_strerror := fun _ => "error";
     util_acl_to_str := fun _ _ => "N/A";
     util_print_binary := fun _ => "";
     util_hex_dump_asc := fun _ _ => "";
     fopen := fun w _ _ => (true, w);
     fwrite := fun w _ _ => (tt, w);
     fread := fun w _ buf count => (count, buf, w);
     sc_update_binary := fun w _ _ count => (count, w) |}.

(** A card of the given listing, type and file size that serves every read
    in full. *)
Definition make (listing : list Z) (type size : Z) : sim :=
  {| sim_listing := listing; sim_type := type; sim_file_size := size;
     sim_read := fun count => count; sim_selected := None |}.

(** The shell in front of such a card, nothing printed or called yet. *)
Definition start (listing : list Z) (type size : Z) (p : sc_path)
  : @shell_state card_interface :=
  initial_state (CI := card_interface) (make listing type size) p.

End Sim.


(** ** Further notions used to state properties *)

(** Words separated by single spaces. *)
Fixpoint join_words (ws : list string) : string :=
  match ws with
  | [] => ""
  | [w] => w
  | w :: ws' => w ++ " " ++ join_words ws'
  end.

(** No character of the string satisfies [stop]. *)
Fixpoint free_of (stop : ascii -> bool) (s : string) : bool :=
  match s with
  | EmptyString => true
  | String c s' => negb (stop c) && free_of stop s'
  end.

(** A word that [parse_line] takes as it stands: not empty, no white space
    inside, no double quote in front. *)
Definition plain_word (w : string) : bool :=
  match w with
  | EmptyString => false
  | String c _ => negb (is_quote c) && free_of is_blank w
  end.

(** A string with every letter in lower case. *)
Fixpoint lower_string (s : string) : string :=
  match s with
  | EmptyString => EmptyString
  | String c s' => String (tolower c) (lower_string s')
  end.

(** The addresses selected to fetch the attributes of a file, in order. *)
Fixpoint children_selected (t : list call) : list sc_path :=
  match t with
  | [] => []
  | Call_select_file p true _ :: t' => p :: children_selected t'
  | _ :: t' => children_selected t'
  end.

(** What a command that only visits other files must keep: the current
    path and the cached attributes; its calls are added to the trace. *)
Definition same_navigation {CI : CardInterface} (st st' : shell_state) : Prop :=
  current_path st' = current_path st
  /\ current_file st' = current_file st
  /\ exists t, trace st' = (trace st ++ t)%list.

(** The calls of a transfer by [do_put] from the file [filename], begun at
    the offset [idx]: every read of the source is followed by an update of
    the card at the running offset, of as many bytes as were read and all
    of them taken; a read that gave another number than was asked for is
    the last one.  The result is the offset reached. *)
Fixpoint transfer_of (filename : string) (idx : Z) (t : list call) : option Z :=
  match t with
  | [] => Some idx
  | Call_fread f c r :: Call_update_binary i _ n r' :: t' =>
      if streq f filename && (i =? idx) && (n =? r) && (r' =? r) && (0 <=? r)
      then
        if r =? c then transfer_of filename (uint_wrap (idx + r)) t'
        else match t' with
             | [] => Some (uint_wrap (idx + r))
             | _ :: _ => None
             end
      else None
  | _ => None
  end.

(** ** The prompt of [main] *)

(** The [for] loop that renders [current_path] into [prompt], with [n]
    bytes left and [i] the index of the next one. *)
Fixpoint prompt_loop (n : nat) (i : nat) (p : sc_path) : string :=
  match n with
  | O => ""
  | S n' =>
      (if (Z.land (Z.of_nat i) 1 =? 0) && negb (Z.of_nat i =? 0)
          && negb (path_type p =? SC_PATH_TYPE_DF_NAME)
       then "/" else "")
        ++ hex2 (nth i (path_value p) 0) ++ prompt_loop n' (S i) p
  end.

(** The string [main] builds in [char prompt[40]] before each line. *)
Definition prompt (p : sc_path) : string :=
  "OpenSC [" ++ prompt_loop (Z.to_nat (path_len p)) 0 p ++ "]> ".

(** * Verification *)

#[local] Open Scope list_scope.

(** A run that returned is determined by its value and its final state. *)
Lemma returned_eta {CI : CardInterface} {A} (o : outcome A) (a : A) (d : shell_state) :
  returned o = Some a -> o = Returned a (final_state o d).
Proof. destruct o; simpl; intros H; inversion H; reflexivity. Qed.

(** ** HexCodec *)

Lemma update_last_app (f : Z -> Z) (out : list Z) (b : Z) :
  update_last f (out ++ [b]) = out ++ [f b].
Proof.
  induction out as [|x out IH]; simpl; [reflexivity|].
  rewrite IH. destruct out; reflexivity.
Qed.

Lemma hex_digit_value_range (c : ascii) :
  isxdigit c = true -> 0 <= hex_digit_value c < 16.
Proof.
  destruct c as [[] [] [] [] [] [] [] []]; vm_compute;
    intuition discriminate.
Qed.

Lemma nibbles_join (hi lo : Z) :
  0 <= hi < 16 -> 0 <= lo < 16 ->
  Z.lor (u8_shl4 hi) lo = 16 * hi + lo.
Proof.
  intros Hhi Hlo.
  assert (Ehi : hi = 0 \/ hi = 1 \/ hi = 2 \/ hi = 3 \/ hi = 4 \/ hi = 5 \/ hi = 6
                \/ hi = 7 \/ hi = 8 \/ hi = 9 \/ hi = 10 \/ hi = 11 \/ hi = 12
                \/ hi = 13 \/ hi = 14 \/ hi = 15) by lia.
  assert (Elo : lo = 0 \/ lo = 1 \/ lo = 2 \/ lo = 3 \/ lo = 4 \/ lo = 5 \/ lo = 6
                \/ lo = 7 \/ lo = 8 \/ lo = 9 \/ lo = 10 \/ lo = 11 \/ lo = 12
                \/ lo = 13 \/ lo = 14 \/ lo = 15) by lia.
  clear Hhi Hlo.
  repeat (destruct Ehi as [Ehi|Ehi]); subst hi;
    repeat (destruct Elo as [Elo|Elo]); subst lo; reflexivity.
Qed.

Lemma hex_digits_all_hex (s : string) :
  Forall (fun c => isxdigit c = true) (hex_digits s).
Proof.
  induction s as [|c s IH]; simpl; [constructor|].
  destruct (isxdigit c) eqn:E; [constructor|]; assumption.
Qed.

(** Characters that are not hex digits do not move the loop. *)
Lemma hex2binary_loop_digits (p : string) :
  forall len s out,
    hex2binary_loop p len s out = hex2binary_digits (hex_digits p) len s out.
Proof.
  induction p as [|c p IH]; intros len s out; simpl; [reflexivity|].
  destruct (isxdigit c) eqn:Ec; simpl.
  - destruct (negb (negb (len =? 0) || s)); [reflexivity|].
    destruct s; apply IH.
  - destruct (negb (negb (len =? 0) || s)) eqn:Estop; [|apply IH].
    destruct (hex_digits p); simpl; [reflexivity|].
    rewrite Estop. reflexivity.
Qed.

(** One full byte: two digits with room left. *)
Lemma hex2binary_digits_pair (d1 d2 : ascii) (ds : list ascii) (len : Z) (out : list Z) :
  0 < len -> isxdigit d1 = true -> isxdigit d2 = true ->
  hex2binary_digits (d1 :: d2 :: ds) len false out
  = hex2binary_digits ds (len - 1) false
      (out ++ [16 * hex_digit_value d1 + hex_digit_value d2]).
Proof.
  intros Hlen H1 H2. simpl.
  replace (len =? 0) with false by (symmetry; apply Z.eqb_neq; lia). simpl.
  destruct (len - 1 =? 0); simpl;
    rewrite update_last_app, ?Z.lor_0_l,
      (nibbles_join _ _ (hex_digit_value_range _ H1) (hex_digit_value_range _ H2));
    reflexivity.
Qed.

(** An even number of digits that fits: every pair becomes a byte. *)
Lemma hex2binary_digits_even (k : nat) :
  forall ds len out,
    List.length ds = (2 * k)%nat -> Z.of_nat k <= len ->
    Forall (fun c => isxdigit c = true) ds ->
    hex2binary_digits ds len false out
    = (len - Z.of_nat k, false, out ++ bytes_of_digits ds).
Proof.
  induction k as [|k IH]; intros ds len out Hn Hk Hx.
  - destruct ds; [|discriminate]. simpl.
    rewrite app_nil_r. f_equal. f_equal. lia.
  - destruct ds as [|d1 [|d2 ds]]; simpl in Hn; try lia.
    inversion Hx as [|? ? H1 Hx']; subst. inversion Hx' as [|? ? H2 Hx'']; subst.
    rewrite hex2binary_digits_pair by (assumption || lia).
    rewrite IH by (assumption || lia).
    simpl. rewrite <- app_assoc. simpl. f_equal. f_equal. lia.
Qed.

(** An odd number of digits met before the buffer is full: the loop ends
    in the middle of a byte. *)
Lemma hex2binary_digits_odd (k : nat) :
  forall ds len out,
    List.length ds = (2 * k + 1)%nat -> Z.of_nat k < len ->
    Forall (fun c => isxdigit c = true) ds ->
    snd (fst (hex2binary_digits ds len false out)) = true.
Proof.
  induction k as [|k IH]; intros ds len out Hn Hk Hx.
  - destruct ds as [|d [|? ?]]; simpl in Hn; try lia. simpl.
    replace (len =? 0) with false by (symmetry; apply Z.eqb_neq; lia).
    reflexivity.
  - destruct ds as [|d1 [|d2 ds]]; simpl in Hn; try lia.
    inversion Hx as [|? ? H1 Hx']; subst. inversion Hx' as [|? ? H2 Hx'']; subst.
    rewrite hex2binary_digits_pair by (assumption || lia).
    apply IH; [lia | lia | assumption].
Qed.

(** A full buffer stops the loop whatever follows. *)
Lemma hex2binary_digits_full (k : nat) :
  forall ds out,
    (2 * k <= List.length ds)%nat ->
    Forall (fun c => isxdigit c = true) ds ->
    hex2binary_digits ds (Z.of_nat k) false out
    = (0, false, out ++ bytes_of_digits (firstn (2 * k) ds)).
Proof.
  induction k as [|k IH]; intros ds out Hn Hx.
  - simpl. rewrite app_nil_r. destruct ds; reflexivity.
  - destruct ds as [|d1 [|d2 ds]]; simpl in Hn; try lia.
    inversion Hx as [|? ? H1 Hx']; subst. inversion Hx' as [|? ? H2 Hx'']; subst.
    rewrite hex2binary_digits_pair by (assumption || lia).
    replace (Z.of_nat (S k) - 1) with (Z.of_nat k) by lia.
    rewrite IH by (assumption || lia).
    replace (2 * S k)%nat with (S (S (2 * k))) by lia.
    simpl. rewrite <- app_assoc. reflexivity.
Qed.

Lemma bytes_of_digits_length (k : nat) :
  forall ds, (2 * k <= List.length ds)%nat ->
             List.length (bytes_of_digits (firstn (2 * k) ds)) = k.
Proof.
  induction k as [|k IH]; intros ds Hn; [reflexivity|].
  destruct ds as [|d1 [|d2 ds]]; simpl in Hn; try lia.
  replace (2 * S k)%nat with (S (S (2 * k))) by lia.
  simpl. f_equal. apply IH. lia.
Qed.

Lemma parity_cases (n : nat) :
  (Nat.even n = true /\ n = (2 * (n / 2))%nat)
  \/ (Nat.even n = false /\ n = (2 * (n / 2) + 1)%nat).
Proof.
  destruct (Nat.even n) eqn:E.
  - left. split; [reflexivity|].
    apply Nat.even_spec in E. destruct E as [m ->].
    rewrite (Nat.mul_comm 2 m), Nat.div_mul by lia. lia.
  - right. split; [reflexivity|].
    assert (O : Nat.odd n = true) by (rewrite <- Nat.negb_even, E; reflexivity).
    apply Nat.odd_spec in O. destruct O as [m ->].
    replace ((2 * m + 1) / 2)%nat with m; [lia|].
    apply Nat.div_unique with (r := 1%nat); lia.
Qed.

(** C6 (as amended): what [hex2binary] returns, prints and stores, for every
    input and every capacity [outlen] of the output.  With [n] hex digits in
    the input (the other characters are skipped): when [n] reaches
    [2 * outlen] the scan stops at the full buffer, [outlen] is returned and
    nothing is reported, whatever the parity of [n]; below that, an even [n]
    gives [n / 2] and an odd [n] gives the error message and the value 0.
    In every case the bytes returned are exactly the pairs of the leading
    digits. *)
Theorem hex2binary_decodes (outlen : Z) (input : string) :
  0 <= outlen ->
  let n := List.length (hex_digits input) in
  let res := hex2binary outlen input in
  h2b_ret res
  = (if 2 * outlen <=? Z.of_nat n then outlen
     else if Nat.even n then Z.of_nat (n / 2) else 0)
  /\ h2b_printed res
     = (if (2 * outlen <=? Z.of_nat n) || Nat.even n then []
        else ["Error: the number of hex digits must be even."%string])
  /\ firstn (Z.to_nat (h2b_ret res)) (h2b_out res)
     = bytes_of_digits (firstn (2 * Z.to_nat (h2b_ret res)) (hex_digits input))
  /\ List.length (firstn (Z.to_nat (h2b_ret res)) (h2b_out res))
     = Z.to_nat (h2b_ret res).
Proof.
  intros Hout n res. subst res. unfold hex2binary.
  rewrite hex2binary_loop_digits.
  pose proof (hex_digits_all_hex input) as Hx. fold n.
  destruct (2 * outlen <=? Z.of_nat n) eqn:Efull.
  - apply Z.leb_le in Efull.
    assert (Hk : (2 * Z.to_nat outlen <= n)%nat) by lia.
    pose proof (hex2binary_digits_full _ _ [] Hk Hx) as Erun.
    rewrite Z2Nat.id in Erun by lia. rewrite Erun. simpl.
    rewrite Z.sub_0_r.
    pose proof (bytes_of_digits_length _ _ Hk) as Hlen.
    repeat split; try reflexivity.
    + rewrite <- Hlen at 1. apply firstn_all.
    + rewrite <- Hlen at 1. rewrite firstn_all. exact Hlen.
  - apply Z.leb_gt in Efull. cbn [orb].
    destruct (parity_cases n) as [[Ev Hn] | [Ev Hn]]; rewrite Ev.
    + assert (Hfit : Z.of_nat (n / 2) <= outlen) by lia.
      remember (n / 2)%nat as k eqn:Ek. clear Ek.
      rewrite (hex2binary_digits_even k _ _ [] Hn Hfit Hx).
      cbn [h2b_ret h2b_out h2b_printed app].
      replace (outlen - (outlen - Z.of_nat k)) with (Z.of_nat k) by lia.
      rewrite Nat2Z.id.
      assert (Hk : (2 * k <= n)%nat) by lia.
      pose proof (bytes_of_digits_length _ _ Hk) as Hlen.
      rewrite <- Hn in Hlen |- *. unfold n in Hlen |- *.
      rewrite firstn_all in Hlen |- *.
      repeat split; try reflexivity.
      * rewrite <- Hlen at 1. apply firstn_all.
      * rewrite <- Hlen at 1. rewrite firstn_all. exact Hlen.
    + assert (Hfit : Z.of_nat (n / 2) < outlen) by lia.
      pose proof (hex2binary_digits_odd (n / 2) _ outlen [] Hn Hfit Hx) as Hs.
      destruct (hex2binary_digits (hex_digits input) outlen false []) as [[len s] out].
      cbn [fst snd] in Hs. subst s.
      cbn [h2b_ret h2b_out h2b_printed]. repeat split; reflexivity.
Qed.

(** The bound is needed: with room for one byte, four digits give one byte
    and not two, and three digits give one byte and no error. *)
Lemma hex2binary_stops_at_full_buffer :
  List.length (hex_digits "ABCD") = 4%nat
  /\ hex2binary 1 "ABCD"
     = {| h2b_ret := 1; h2b_out := [171]; h2b_printed := [] |}
  /\ List.length (hex_digits "ABC") = 3%nat
  /\ hex2binary 1 "ABC"
     = {| h2b_ret := 1; h2b_out := [171]; h2b_printed := [] |}.
Proof. repeat split; reflexivity. Qed.

Lemma hex2binary_decodes_witness :
  0 <= 16
  /\ h2b_ret (hex2binary 16 "A0:00:00:01") = 4
  /\ h2b_printed (hex2binary 16 "A0:00:00:01") = []
  /\ h2b_ret (hex2binary 16 "A0:1") = 0.
Proof.
  split; [lia|].
  pose proof (hex2binary_decodes 16 "A0:00:00:01" ltac:(lia)) as H1.
  pose proof (hex2binary_decodes 16 "A0:1" ltac:(lia)) as H2.
  cbv zeta in H1, H2.
  destruct H1 as (R1 & P1 & _). destruct H2 as (R2 & _).
  split; [exact R1 | split; [exact P1 | exact R2]].
Defined.

(** An even number of digits that fits is decoded in full and in silence. *)
Lemma hex2binary_even (outlen : Z) (input : string) (n : nat) :
  List.length (hex_digits input) = (2 * n)%nat -> Z.of_nat n <= outlen ->
  hex2binary outlen input
  = {| h2b_ret := Z.of_nat n; h2b_out := bytes_of_digits (hex_digits input);
       h2b_printed := [] |}
  /\ List.length (bytes_of_digits (hex_digits input)) = n.
Proof.
  intros Hn Hfit. unfold hex2binary.
  rewrite hex2binary_loop_digits.
  rewrite (hex2binary_digits_even n _ _ [] Hn Hfit (hex_digits_all_hex input)).
  cbn [app]. split.
  - f_equal. lia.
  - pose proof (bytes_of_digits_length n (hex_digits input) ltac:(lia)) as Hlen.
    rewrite <- Hn, firstn_all in Hlen. exact Hlen.
Qed.

(** ** PathResolver *)

Lemma store_at_start (dst src : list Z) :
  firstn (List.length src) (store dst 0 src) = src.
Proof.
  unfold store. simpl.
  rewrite firstn_app, firstn_all, Nat.sub_diag. simpl. apply app_nil_r.
Qed.

Section PathResolver.

Context {CI : CardInterface}.

(** C7 (as amended): a token that begins with the prefix aid:, in any
    letter case, is resolved by decoding the hex digits of what follows and
    skipping every other character; when that remainder holds an even
    number [2 * n] of hex digits with [n <= 16], resolution succeeds, prints
    nothing and gives the AppId address made of the [n] bytes. *)
Theorem arg_to_path_aid (a : string) (is_id : bool) (st : shell_state) (n : nat) :
  strncasecmp a "aid:" 4 = 0 ->
  List.length (hex_digits (advance a 4)) = (2 * n)%nat ->
  (n <= 16)%nat ->
  exists path,
    arg_to_path a is_id st = Returned (0, path) st
    /\ path_type path = SC_PATH_TYPE_DF_NAME
    /\ path_len path = Z.of_nat n
    /\ path_bytes path = bytes_of_digits (hex_digits (advance a 4)).
Proof.
  intros Hprefix Hn Hfit.
  assert (Hroom : Z.of_nat n <= SC_MAX_PATH_SIZE) by (unfold SC_MAX_PATH_SIZE; lia).
  destruct (hex2binary_even SC_MAX_PATH_SIZE (advance a 4) n Hn Hroom) as [Hdec Hlen].
  unfold arg_to_path.
  change (strlen "aid:") with 4. change (Z.to_nat 4) with 4%nat.
  rewrite Hprefix, Hdec. cbn [Z.eqb h2b_printed h2b_out h2b_ret print_lines].
  eexists. split; [reflexivity|].
  cbn [path_type path_len set_path_type set_path_len set_path_value].
  repeat split.
  unfold path_bytes.
  cbn [path_type path_len path_value set_path_type set_path_len set_path_value].
  rewrite Nat2Z.id. rewrite <- Hlen at 1. apply store_at_start.
Qed.

End PathResolver.

(** Characters that are not hex digits do not make the resolution of an
    aid: token fail, and neither does an odd number of digits: the decoder
    reports it and the resolution still returns 0. *)
Lemma arg_to_path_aid_never_fails :
  let st := Sim.start [] 0 0 sc_format_path_3F00 in
  let skipped := arg_to_path "aid:A0-zz-01" false st in
  let odd := arg_to_path "aid:A0:00:1" false st in
  option_map (fun x => (fst x, path_type (snd x), path_bytes (snd x))) (returned skipped)
  = Some (0, SC_PATH_TYPE_DF_NAME, [160; 1])
  /\ stdout (final_state skipped st) = []
  /\ option_map (fun x => (fst x, path_type (snd x), path_len (snd x))) (returned odd)
     = Some (0, SC_PATH_TYPE_DF_NAME, 0)
  /\ stdout (final_state odd st)
     = ["Error: the number of hex digits must be even."%string].
Proof. cbv zeta. repeat split; vm_compute; reflexivity. Qed.

Lemma arg_to_path_aid_witness :
  exists path,
    arg_to_path "AID:a0:00:00:01" false (Sim.start [] 0 0 sc_format_path_3F00)
    = Returned (0, path) (Sim.start [] 0 0 sc_format_path_3F00)
    /\ path_type path = SC_PATH_TYPE_DF_NAME
    /\ path_len path = 4
    /\ path_bytes path = [160; 0; 0; 1].
Proof.
  apply (arg_to_path_aid "AID:a0:00:00:01" false
           (Sim.start [] 0 0 sc_format_path_3F00) 4);
    [reflexivity | reflexivity | lia].
Defined.

(** ** CommandShell: dispatch *)

Section Dispatch.

Context {CI : CardInterface}.

Lemma add_stdout_nil (st : shell_state) : add_stdout st [] = st.
Proof. destruct st. unfold add_stdout. simpl. rewrite app_nil_r. reflexivity. Qed.

Lemma add_stdout_app (st : shell_state) (l1 l2 : list string) :
  add_stdout (add_stdout st l1) l2 = add_stdout st (l1 ++ l2).
Proof. unfold add_stdout. simpl. rewrite app_assoc. reflexivity. Qed.

Lemma print_lines_run (lines : list string) :
  forall st, print_lines lines st = Returned tt (add_stdout st lines).
Proof.
  induction lines as [|l lines IH]; intros st; simpl.
  - rewrite add_stdout_nil. reflexivity.
  - unfold bind, printf. rewrite IH, add_stdout_app. reflexivity.
Qed.

(** The loop leaves the last matching entry and adds their number. *)
Lemma ambiguous_match_loop_spec (cmd : string) (table : list command) :
  forall last_match matches,
    ambiguous_match_loop table cmd last_match matches
    = (match rev (prefix_matches table cmd) with
       | [] => last_match
       | entry :: _ => Some entry
       end,
       matches + Z.of_nat (List.length (prefix_matches table cmd))).
Proof.
  unfold prefix_matches.
  induction table as [|entry table IH]; intros last_match matches; simpl.
  - f_equal. lia.
  - destruct (strncasecmp cmd (cmd_name entry) (strlen cmd) =? 0); [|apply IH].
    rewrite IH. cbn [filter List.length rev]. f_equal; [|lia].
    destruct (rev (filter _ table)); reflexivity.
Qed.

(** The three outcomes of [ambiguous_match], for any table. *)
Lemma ambiguous_match_spec (table : list command) (cmd : string) (st : shell_state) :
  ambiguous_match table cmd st
  = match prefix_matches table cmd with
    | [] => Returned None st
    | [entry] => Returned (Some entry) st
    | _ :: _ :: _ =>
        Returned None (add_stdout st [("Ambiguous command: " ++ cmd)%string])
    end.
Proof.
  unfold ambiguous_match. rewrite ambiguous_match_loop_spec.
  destruct (prefix_matches table cmd) as [|e1 [|e2 rest]]; try reflexivity.
  cbn [List.length].
  replace (0 + Z.of_nat (S (S (List.length rest))) >? 1) with true
    by (symmetry; apply Z.gtb_lt; lia).
  reflexivity.
Qed.

(** Two entries of different names that both match make the name
    ambiguous. *)
Lemma two_matches (table : list command) (cmd : string) (e1 e2 : command) :
  In e1 (prefix_matches table cmd) -> In e2 (prefix_matches table cmd) ->
  e1 <> e2 ->
  exists x y rest, prefix_matches table cmd = x :: y :: rest.
Proof.
  intros H1 H2 Hne.
  destruct (prefix_matches table cmd) as [|x [|y rest]].
  - destruct H1.
  - destruct H1 as [<-|[]]. destruct H2 as [<-|[]]. congruence.
  - eauto.
Qed.

(** One turn of the loop of [main] on a line that holds a token. *)
Lemma main_dispatch_spec (line cmd : string) (args : list string) (st : shell_state) :
  parse_line line 260 = cmd :: args ->
  main_dispatch line st
  = match prefix_matches cmds cmd with
    | [] => Returned None (add_stdout st (usage_lines cmds))
    | [entry] => Returned (Some (cmd_func entry, args)) st
    | _ :: _ :: _ =>
        Returned None
          (add_stdout st (("Ambiguous command: " ++ cmd)%string :: usage_lines cmds))
    end.
Proof.
  intros Hl.
  assert (Hargc : (argc (cmd :: args) <? 1) = false)
    by (apply Z.ltb_ge; unfold argc; cbn [List.length]; lia).
  unfold main_dispatch. rewrite Hl, Hargc. unfold arg. cbn [nth tl].
  unfold bind. rewrite ambiguous_match_spec.
  destruct (prefix_matches cmds cmd) as [|e1 [|e2 rest]]; try reflexivity;
    unfold usage; rewrite print_lines_run; try reflexivity.
  rewrite add_stdout_app. reflexivity.
Qed.

(** C4 (as amended): the typed name is matched as a prefix, letter case
    apart, against the command table.  With no match the shell calls no
    handler and prints the list of supported commands and nothing else: the
    line Supported commands: and, for every entry of the table, its name in
    a field of 16 characters and its help text; there is no message about an
    unknown command and the typed name is not shown.  With more than one
    match it prints the ambiguity message with the typed name, then the same
    list, and calls no handler; with exactly one it calls that entry's
    handler on the remaining tokens and prints nothing.  In a table that
    holds cat and cd the name c is ambiguous, and in the shell's table c
    calls nothing while ca calls the handler of cat. *)
Theorem command_dispatch (line cmd : string) (args : list string) (st : shell_state) :
  parse_line line 260 = cmd :: args ->
  let listing :=
    "Supported commands:"%string
      :: map (fun c =>
                ("  " ++ cmd_name c
                   ++ string_of_list_ascii
                        (repeat " "%char (16 - String.length (cmd_name c)))
                   ++ " " ++ cmd_help c)%string)
             cmds in
  main_dispatch line st
  = match prefix_matches cmds cmd with
    | [] => Returned None (add_stdout st listing)
    | [entry] => Returned (Some (cmd_func entry, args)) st
    | _ :: _ :: _ =>
        Returned None
          (add_stdout st (("Ambiguous command: " ++ cmd)%string :: listing))
    end
  /\ (forall table e1 e2,
         In e1 table -> In e2 table ->
         cmd_name e1 = "cat"%string -> cmd_name e2 = "cd"%string ->
         ambiguous_match table "c" st
         = Returned None (add_stdout st ["Ambiguous command: c"%string]))
  /\ main_dispatch "c" st
     = Returned None (add_stdout st ("Ambiguous command: c"%string :: listing))
  /\ main_dispatch "ca" st = Returned (Some (H_do_cat, [])) st.
Proof.
  intros Hline listing.
  assert (Hlist : usage_lines cmds = listing) by reflexivity.
  rewrite <- Hlist.
  pose proof (fun l c a => main_dispatch_spec l c a st) as Hgen.
  split; [apply Hgen; exact Hline|].
  split.
  - intros table e1 e2 H1 H2 N1 N2.
    rewrite ambiguous_match_spec.
    destruct (two_matches table "c" e1 e2) as (x & y & rest & ->); try reflexivity.
    + apply filter_In. split; [exact H1|]. rewrite N1. reflexivity.
    + apply filter_In. split; [exact H2|]. rewrite N2. reflexivity.
    + intros ->. rewrite N1 in N2. discriminate.
  - split.
    + rewrite (Hgen "c"%string "c"%string []) by reflexivity. reflexivity.
    + rewrite (Hgen "ca"%string "ca"%string []) by reflexivity. reflexivity.
Qed.

End Dispatch.

Lemma command_dispatch_witness :
  parse_line "CAT 2F00" 260 = ["CAT"; "2F00"]%string
  /\ main_dispatch "CAT 2F00" (Sim.start [] 0 0 sc_format_path_3F00)
     = Returned (Some (H_do_cat, ["2F00"%string])) (Sim.start [] 0 0 sc_format_path_3F00).
Proof.
  split; [reflexivity|].
  exact (proj1 (command_dispatch "CAT 2F00" "CAT" ["2F00"%string]
                  (Sim.start [] 0 0 sc_format_path_3F00) eq_refl)).
Defined.

(** A name that matches no command is not reported: the shell prints the
    list of supported commands, line for line what follows the ambiguity
    message of an ambiguous name, and neither the typed name nor the word
    unknown appears. *)
Lemma unknown_command_is_not_reported :
  let st := Sim.start [] 0 0 sc_format_path_3F00 in
  let listing :=
      ["Supported commands:";
       "  ls               list all files in the current DF";
       "  cd               change to another DF";
       "  cat              print the contents of an EF";
       "  info             display attributes of card file";
       "  create           create a new EF";
       "  delete           remove an EF/DF";
       "  rm               remove an EF/DF";
       "  verify           present a PIN or key to the card";
       "  change           change a PIN";
       "  unblock          unblock a PIN";
       "  put              copy a local file to the card";
       "  get              copy an EF to a local file";
       "  do_get           get a data object";
       "  do_put           put a data object";
       "  mkdir            create a DF";
       "  erase            erase card";
       "  random           obtain N random bytes from card";
       "  quit             quit this program";
       "  exit             quit this program";
       "  update_record    update record";
       "  update_binary    update binary";
       "  debug            set the debug level";
       "  apdu             send a custom apdu command";
       "  asn1             decode an asn1 file"]%string in
  prefix_matches cmds "frobnicate" = []
  /\ returned (main_dispatch "frobnicate 2F00" st) = Some None
  /\ stdout (final_state (main_dispatch "frobnicate 2F00" st) st) = listing
  /\ stdout (final_state (main_dispatch "xyzzy" st) st) = listing
  /\ stdout (final_state (main_dispatch "c" st) st)
     = "Ambiguous command: c"%string :: listing.
Proof. cbv zeta. repeat split; vm_compute; reflexivity. Qed.

(** ** PinProtocol *)

Section PinProtocol.

Context {CI : CardInterface}.

Lemma printf_then {A} (s : string) (k : M A) (st : shell_state) :
  (printf s ;; k) st = k (add_stdout st [s]).
Proof. reflexivity. Qed.












Lemma pin_value_quoted_empty (size : Z) :
  pin_value size (DQUOTE ++ DQUOTE)%string = Some [].
Proof. unfold pin_value. simpl. destruct (Z.to_nat size); reflexivity. Qed.


Lemma pin_value_hex (size : Z) (a : string) (bytes : list Z) :
  is_quote (first_char a) = false ->
  sc_hex_to_bin a size = (0, bytes) ->
  pin_value size a = Some bytes.
Proof. intros Hq Hhex. unfold pin_value. rewrite Hq, Hhex. reflexivity. Qed.

(** [do_unblock] on a type token, a PUK and a new PIN: both reach the card
    as pointers to their bytes. *)
Lemma do_unblock_three (t pa na : string) (ref : Z) (puk new : list Z) (st : shell_state) :
  strncasecmp t "CHV" 3 = 0 ->
  sscanf_d (advance t 3) = Some ref ->
  pin_value 30 pa = Some puk ->
  pin_value 30 na = Some new ->
  exists r st' rc,
    do_unblock [t; pa; na] st = Returned r st'
    /\ trace st' = trace st
                   ++ [Call_reset_retry_counter SC_AC_CHV ref
                         (Some puk) (len_of puk) (Some new) (len_of new) rc].
Proof.
  intros Ht Hr Hp Hn. unfold do_unblock. cbv zeta.
  change (argc [t; pa; na]) with 3. change (arg [t; pa; na] 0) with t.
  cbn [Z.ltb Z.gtb Z.compare Pos.compare Pos.compare_cont orb].
  rewrite Ht, Hr. cbn [Z.eqb negb tl].
  change (argc [pa; na]) with 2. change (arg [pa; na] 0) with pa.
  cbn [Z.eqb]. rewrite Hp. cbn [tl].
  change (argc [na]) with 1. change (arg [na] 0) with na.
  cbn [Z.eqb negb]. rewrite Hn.
  unfold bind, external.
  destruct (sc_reset_retry_counter (card st) SC_AC_CHV ref
              (Some puk) (len_of puk) (Some new) (len_of new)) as [rc w'].
  destruct (negb (rc =? 0)); [destruct (rc =? SC_ERROR_PIN_CODE_INCORRECT)|];
    eexists; eexists; exists rc; split; reflexivity.
Qed.

(** [do_unblock] on a type token and a PUK alone: the new PIN reaches the
    card as the null pointer. *)
Lemma do_unblock_two (t pa : string) (ref : Z) (puk : list Z) (st : shell_state) :
  strncasecmp t "CHV" 3 = 0 ->
  sscanf_d (advance t 3) = Some ref ->
  pin_value 30 pa = Some puk ->
  exists r st' rc,
    do_unblock [t; pa] st = Returned r st'
    /\ trace st' = trace st
                   ++ [Call_reset_retry_counter SC_AC_CHV ref
                         (Some puk) (len_of puk) None 0 rc].
Proof.
  intros Ht Hr Hp. unfold do_unblock. cbv zeta.
  change (argc [t; pa]) with 2. change (arg [t; pa] 0) with t.
  cbn [Z.ltb Z.gtb Z.compare Pos.compare Pos.compare_cont orb].
  rewrite Ht, Hr. cbn [Z.eqb negb tl].
  change (argc [pa]) with 1. change (arg [pa] 0) with pa.
  cbn [Z.eqb]. rewrite Hp. cbn [tl].
  change (argc []) with 0. cbn [Z.eqb negb].
  unfold bind, external.
  destruct (sc_reset_retry_counter (card st) SC_AC_CHV ref
              (Some puk) (len_of puk) None 0) as [rc w'].
  destruct (negb (rc =? 0)); [destruct (rc =? SC_ERROR_PIN_CODE_INCORRECT)|];
    eexists; eexists; exists rc; split; reflexivity.
Qed.

(** C1: the line [unblock CHV2 00:00:00:00:00:00] followed by the quoted
    empty string reaches [do_unblock] with three arguments and the line
    without it with two; provided [sc_hex_to_bin] decodes the PUK, the first
    calls [sc_reset_retry_counter] with a non-null new PIN of length 0
    (Empty) and the second with the null pointer (Absent), and the two
    calls differ whatever the card answers. *)
Theorem do_unblock_empty_vs_absent (st : shell_state) (puk : list Z) :
  sc_hex_to_bin "00:00:00:00:00:00" 30 = (0, puk) ->
  let empty := (DQUOTE ++ DQUOTE)%string in
  main_dispatch ("unblock CHV2 00:00:00:00:00:00 " ++ empty)%string st
  = Returned (Some (H_do_unblock, ["CHV2"; "00:00:00:00:00:00"; empty]%string)) st
  /\ main_dispatch "unblock CHV2 00:00:00:00:00:00" st
     = Returned (Some (H_do_unblock, ["CHV2"; "00:00:00:00:00:00"]%string)) st
  /\ (exists r st' rc,
         do_unblock ["CHV2"; "00:00:00:00:00:00"; empty]%string st = Returned r st'
         /\ trace st' = trace st
                        ++ [Call_reset_retry_counter SC_AC_CHV 2
                              (Some puk) (len_of puk) (Some []) 0 rc])
  /\ (exists r st' rc,
         do_unblock ["CHV2"; "00:00:00:00:00:00"]%string st = Returned r st'
         /\ trace st' = trace st
                        ++ [Call_reset_retry_counter SC_AC_CHV 2
                              (Some puk) (len_of puk) None 0 rc])
  /\ (forall rc rc',
         Call_reset_retry_counter SC_AC_CHV 2 (Some puk) (len_of puk) (Some []) 0 rc
         <> Call_reset_retry_counter SC_AC_CHV 2 (Some puk) (len_of puk) None 0 rc').
Proof.
  intros Hhex empty.
  assert (Hpuk : pin_value 30 "00:00:00:00:00:00" = Some puk)
    by (apply pin_value_hex; [reflexivity | exact Hhex]).
  split.
  { rewrite (main_dispatch_spec _ "unblock"
               ["CHV2"; "00:00:00:00:00:00"; empty]%string) by reflexivity.
    reflexivity. }
  split.
  { rewrite (main_dispatch_spec _ "unblock"
               ["CHV2"; "00:00:00:00:00:00"]%string) by reflexivity.
    reflexivity. }
  split.
  { apply (do_unblock_three "CHV2" "00:00:00:00:00:00" empty 2 puk []);
      [reflexivity | reflexivity | exact Hpuk | apply pin_value_quoted_empty]. }
  split.
  { apply (do_unblock_two "CHV2" "00:00:00:00:00:00" 2 puk);
      [reflexivity | reflexivity | exact Hpuk]. }
  intros rc rc' Heq. inversion Heq.
Qed.

End PinProtocol.

Lemma do_unblock_empty_vs_absent_witness :
  sc_hex_to_bin (CardInterface := Sim.card_interface) "00:00:00:00:00:00" 30
  = (0, [0; 0; 0; 0; 0; 0])
  /\ exists r st' rc,
       do_unblock ["CHV2"; "00:00:00:00:00:00"; (DQUOTE ++ DQUOTE)]%string
         (Sim.start [] 0 0 sc_format_path_3F00)
       = Returned r st'
       /\ trace st' = [Call_reset_retry_counter SC_AC_CHV 2
                         (Some [0; 0; 0; 0; 0; 0]) 6 (Some []) 0 rc].
Proof.
  split; [reflexivity|].
  exact (proj1 (proj2 (proj2
           (do_unblock_empty_vs_absent (Sim.start [] 0 0 sc_format_path_3F00)
              [0; 0; 0; 0; 0; 0] eq_refl)))).
Defined.


(** ** PinProtocol: the credential-type token *)




Lemma int_wrap_range (z : Z) : - 2 ^ 31 <= int_wrap z < 2 ^ 31.
Proof.
  unfold int_wrap.
  pose proof (Z.mod_pos_bound (z + 2 ^ 31) (2 ^ 32) ltac:(lia)). lia.
Qed.

(** The number [%d] stores is an [int]. *)
Lemma sscanf_d_int (s : string) (v : Z) :
  sscanf_d s = Some v -> - 2 ^ 31 <= v < 2 ^ 31.
Proof.
  unfold sscanf_d.
  destruct (skip_spaces s) as [|c rest].
  - cbn. discriminate.
  - match goal with
    | |- (let '(neg, s2) := ?scrut in _) = _ -> _ => destruct scrut as [neg s2]
    end.
    destruct (scan_decimal s2 0 0) as [x [|n]]; [discriminate|].
    intros H. inversion H. apply int_wrap_range.
Qed.

(** The digits of a token are read in full and the number is then stored
    into the [int]: within the range of [int] it is the number written, and
    out of it the low 32 bits are kept, or those of [LONG_MAX] when the
    number does not fit a [long]. *)
Lemma sscanf_d_examples :
  sscanf_d "2" = Some 2
  /\ sscanf_d " -17:" = Some (-17)
  /\ sscanf_d "2147483647" = Some 2147483647
  /\ sscanf_d "2147483648" = Some (-2147483648)
  /\ sscanf_d "4294967298" = Some 2
  /\ sscanf_d "99999999999999999999" = Some (-1)
  /\ sscanf_d "-99999999999999999999" = Some 0
  /\ sscanf_d "x1" = None.
Proof. repeat split; vm_compute; reflexivity. Qed.

(** The directive [%02X] twice, on tokens of four characters: two pairs of
    hex digits, a sign in a pair, white space before a number, and the 0x
    of a base prefix, which is read as the number 0. *)
Lemma sscanf_02X_02X_examples :
  sscanf_02X_02X "3F00" = Some (63, 0)
  /\ sscanf_02X_02X "2f0A" = Some (47, 10)
  /\ sscanf_02X_02X "-1+2" = Some (4294967295, 2)
  /\ sscanf_02X_02X " 1 2" = Some (1, 2)
  /\ sscanf_02X_02X "0x12" = Some (0, 18)
  /\ sscanf_02X_02X "120X" = Some (18, 0)
  /\ sscanf_02X_02X "12" = None
  /\ sscanf_02X_02X "1G00" = None
  /\ sscanf_02X_02X "zz00" = None.
Proof. repeat split; vm_compute; reflexivity. Qed.

Section CredentialToken.

Context {CI : CardInterface}.









End CredentialToken.



(** ** NavigationState: ascending *)

Section Navigation.

Context {CI : CardInterface}.

Lemma select_file_run (p : sc_path) (want : bool) (st : shell_state) :
  select_file p want st
  = Returned (fst (fst (sc_select_file (card st) p want)),
              snd (fst (sc_select_file (card st) p want)))
      (after_call st (snd (sc_select_file (card st) p want))
         (Call_select_file p want (fst (fst (sc_select_file (card st) p want))))).
Proof.
  unfold select_file, external.
  destruct (sc_select_file (card st) p want) as [[r f] w]. reflexivity.
Qed.

Lemma truncated_path_bytes (p : sc_path) (n : Z) :
  n <= path_len p ->
  path_bytes (set_path_len p n) = firstn (Z.to_nat n) (path_bytes p).
Proof.
  intros Hn. unfold path_bytes. cbn [path_len path_value set_path_len].
  rewrite firstn_firstn. f_equal. lia.
Qed.

(** C3: [do_cd] on the argument [..].  With a current path shorter than 4
    bytes it fails with the already-in-MF message and selects nothing.
    Otherwise the target is the root path 3F00 when the current address is
    an AppId, and else the current path without its last two bytes; the
    target is selected, and on success it becomes the current path and the
    file returned the cached attributes, while on failure both stay as they
    were. *)
Theorem do_cd_parent (st : shell_state) (r : Z) (file : sc_file) (w' : world) :
  let cp := current_path st in
  let target :=
    if path_type cp =? SC_PATH_TYPE_DF_NAME
    then sc_format_path_3F00
    else set_path_len cp (path_len cp - 2) in
  sc_select_file (card st) target true = (r, file, w') ->
  (path_len cp < 4 ->
   do_cd [".."%string] st
   = Returned (-1) (add_stdout st ["unable to go up, already in MF."%string]))
  /\ (4 <= path_len cp -> r = 0 ->
      do_cd [".."%string] st
      = Returned 0
          {| current_file := Some file; current_path := target; card := w';
             stdout := stdout st; stderr := stderr st;
             trace := trace st ++ [Call_select_file target true 0] |})
  /\ (4 <= path_len cp -> r <> 0 ->
      do_cd [".."%string] st
      = Returned (-1)
          (add_stdout (after_call st w' (Call_select_file target true r))
             [("unable to go up: " ++ sc_strerror r)%string]))
  /\ (path_type sc_format_path_3F00 = SC_PATH_TYPE_PATH
      /\ path_bytes sc_format_path_3F00 = [63; 0])
  /\ (path_type (set_path_len cp (path_len cp - 2)) = path_type cp
      /\ path_bytes (set_path_len cp (path_len cp - 2))
         = firstn (Z.to_nat (path_len cp - 2)) (path_bytes cp)).
Proof.
  intros cp target Hsel.
  assert (Hrun : do_cd [".."%string] st
                 = if path_len cp <? 4
                   then Returned (-1)
                          (add_stdout st ["unable to go up, already in MF."%string])
                   else if negb (r =? 0)
                   then Returned (-1)
                          (add_stdout (after_call st w' (Call_select_file target true r))
                             [("unable to go up: " ++ sc_strerror r)%string])
                   else Returned 0
                          {| current_file := Some file; current_path := target;
                             card := w'; stdout := stdout st; stderr := stderr st;
                             trace := trace st ++ [Call_select_file target true r] |}).
  { unfold do_cd. change (argc [".."%string]) with 1.
    change (arg [".."%string] 0) with ".."%string.
    cbn [Z.eqb negb Pos.eqb]. change (streq ".." "..") with true. cbv iota.
    unfold bind at 1. unfold get_current_path at 1. fold cp.
    destruct (path_len cp <? 4); [reflexivity|].
    cbv zeta. fold target. unfold bind at 1.
    rewrite select_file_run, Hsel. cbn [fst snd].
    destruct (negb (r =? 0)); reflexivity. }
  split.
  { intros Hlen. rewrite Hrun.
    replace (path_len cp <? 4) with true by (symmetry; apply Z.ltb_lt; lia).
    reflexivity. }
  split.
  { intros Hlen ->. rewrite Hrun.
    replace (path_len cp <? 4) with false by (symmetry; apply Z.ltb_ge; lia).
    reflexivity. }
  split.
  { intros Hlen Hr. rewrite Hrun.
    replace (path_len cp <? 4) with false by (symmetry; apply Z.ltb_ge; lia).
    replace (r =? 0) with false by (symmetry; apply Z.eqb_neq; exact Hr).
    reflexivity. }
  split; [split; reflexivity|].
  split; [reflexivity|].
  apply truncated_path_bytes. lia.
Qed.

End Navigation.

Lemma do_cd_parent_witness :
  let st := Sim.start [] 0 0 (snd (sc_append_path_id sc_format_path_3F00 [80; 21])) in
  path_bytes (current_path st) = [63; 0; 80; 21]
  /\ exists st',
       do_cd [".."%string] st = Returned 0 st'
       /\ path_bytes (current_path st') = [63; 0].
Proof.
  cbv zeta. split; [reflexivity|].
  pose proof (do_cd_parent
                (Sim.start [] 0 0 (snd (sc_append_path_id sc_format_path_3F00 [80; 21])))
                0 _ _ eq_refl) as (_ & Hok & _).
  eexists. split; [apply Hok; [cbv; discriminate | reflexivity] | reflexivity].
Defined.

(** ** NavigationState: listing *)

Section Listing.

Context {CI : CardInterface}.

Lemma print_file_run (file : sc_file) (st : shell_state) :
  exists lines, print_file file st = Returned tt (add_stdout st lines).
Proof.
  unfold print_file.
  destruct (if file_type file =? SC_FILE_TYPE_WORKING_EF then _ else _) as [shown kind].
  rewrite !printf_then.
  destruct (negb (file_namelen file =? 0)).
  - unfold bind at 1. rewrite !printf_then. unfold printf.
    rewrite !add_stdout_app. eexists. reflexivity.
  - unfold bind, ret, printf. rewrite !add_stdout_app. eexists. reflexivity.
Qed.

(** [select_current_path_or_die] returns only after a successful selection
    of the current path, or without any call when the path is empty. *)
Lemma select_current_path_or_die_run (st : shell_state) :
  (exists code st', select_current_path_or_die st = Exited code st')
  \/ (has_address (current_path st) = true
      /\ exists w,
           select_current_path_or_die st
           = Returned tt (after_call st w (Call_select_file (current_path st) false 0)))
  \/ (has_address (current_path st) = false
      /\ select_current_path_or_die st = Returned tt st).
Proof.
  unfold select_current_path_or_die, has_address, bind, get_current_path.
  destruct (negb (path_type (current_path st) =? 0)
            || negb (path_len (current_path st) =? 0)).
  - rewrite select_file_run.
    destruct (sc_select_file (card st) (current_path st) false) as [[r f] w].
    cbn [fst snd].
    destruct (r =? 0) eqn:Er; cbn [negb].
    + apply Z.eqb_eq in Er. subst r. right. left. split; [reflexivity|].
      exists w. reflexivity.
    + left. unfold printf, die. eauto.
  - right. right. split; reflexivity.
Qed.

Lemma restores_after_each_app (cp : sc_path) (t1 t2 : list call) :
  restores_after_each cp t1 -> restores_after_each cp t2 ->
  restores_after_each cp (t1 ++ t2).
Proof.
  revert t2.
  induction t1 as [t1 IH] using (induction_ltof1 _ (@List.length call)).
  unfold ltof in IH. intros t2 H1 H2.
  destruct t1 as [|c t1]; [exact H2|].
  destruct c; try (simpl in *; apply IH; [simpl; lia | assumption | assumption]).
  destruct want_file.
  - destruct t1 as [|c' t1]; [destruct H1|].
    destruct c'; try solve [destruct H1].
    destruct want_file; [destruct H1|].
    simpl in H1 |- *. destruct H1 as (Hp & Hr & H1).
    repeat split; try assumption.
    apply IH; [simpl; lia | assumption | assumption].
  - destruct t1; destruct H1.
Qed.

Lemma selected_after_restore (cp : sc_path) (t : list call) :
  forall before,
    restores_after_each cp t ->
    selected_on_card t before = before
    \/ selected_on_card t before = Some cp.
Proof.
  induction t as [t IH] using (induction_ltof1 _ (@List.length call)).
  unfold ltof in IH. intros before H.
  destruct t as [|c t]; [left; reflexivity|].
  destruct c; try (simpl in *; apply IH; [simpl; lia | assumption]).
  destruct want_file.
  - destruct t as [|c' t]; [destruct H|].
    destruct c'; try solve [destruct H].
    destruct want_file; [destruct H|].
    simpl in H. destruct H as (-> & -> & H).
    cbn [selected_on_card Z.eqb].
    destruct (IH t ltac:(simpl; lia) (Some cp) H) as [E|E];
      right; exact E.
  - destruct t; destruct H.
Qed.

(** The loop of [do_ls]: when it returns, the globals are as before and
    every child selection has been followed by a successful selection of the
    current path, provided that path is not empty. *)
Lemma do_ls_loop_run (iters : nat) :
  forall buf cur st st',
    do_ls_loop iters buf cur st = Returned tt st' ->
    current_path st' = current_path st
    /\ current_file st' = current_file st
    /\ exists extra,
         trace st' = trace st ++ extra
         /\ (has_address (current_path st) = true ->
             restores_after_each (current_path st) extra).
Proof.
  induction iters as [|iters IH]; intros buf cur st st' Hrun.
  - inversion Hrun; subst. repeat split. exists []. rewrite app_nil_r.
    split; [reflexivity | intros _; exact I].
  - cbn [do_ls_loop] in Hrun. cbv zeta in Hrun.
    unfold bind at 1 in Hrun. unfold get_current_path at 1 in Hrun.
    set (cp := current_path st) in *.
    unfold bind at 1 in Hrun.
    (* the child address *)
    assert (Hpath : exists path,
               (if negb (path_type cp =? SC_PATH_TYPE_DF_NAME)
                then ret (snd (sc_append_path_id cp [nth cur buf 0; nth (cur + 1) buf 0]))
                else
                  let '(r, p) := sc_path_set SC_PATH_TYPE_FILE_ID
                                   [nth cur buf 0; nth (cur + 1) buf 0] 0 0 in
                  if negb (r =? SC_SUCCESS)
                  then printf "unable to set path." ;; die 1
                  else ret p) st
               = Returned path st).
    { destruct (negb (path_type cp =? SC_PATH_TYPE_DF_NAME)); eexists; reflexivity. }
    destruct Hpath as [path Hpath]. rewrite Hpath in Hrun.
    unfold bind at 1 in Hrun. rewrite select_file_run in Hrun.
    destruct (sc_select_file (card st) path true) as [[r file] w].
    cbn [fst snd] in Hrun.
    set (st1 := after_call st w (Call_select_file path true r)) in *.
    unfold bind at 1 in Hrun.
    assert (Hshow : exists lines,
               (if negb (r =? 0)
                then printf (" " ++ hex2 (nth cur buf 0) ++ hex2 (nth (cur + 1) buf 0)
                               ++ " unable to select file, " ++ sc_strerror r)
                else print_file (set_file_id file
                                   (Z.lor (Z.shiftl (nth cur buf 0) 8) (nth (cur + 1) buf 0))))
                 st1
               = Returned tt (add_stdout st1 lines)).
    { destruct (negb (r =? 0)); [eexists; reflexivity | apply print_file_run]. }
    destruct Hshow as [lines Hshow]. rewrite Hshow in Hrun.
    unfold bind at 1 in Hrun.
    destruct (select_current_path_or_die_run (add_stdout st1 lines))
      as [(code & st2 & Hdie) | [(Hadr & w2 & Hsel) | (Hadr & Hsel)]];
      rewrite ?Hdie, ?Hsel in Hrun; [discriminate| |];
      apply IH in Hrun; destruct Hrun as (Hcp & Hcf & extra & Htr & Hrest);
      (split; [exact Hcp|]); (split; [exact Hcf|]).
    + exists (Call_select_file path true r
              :: Call_select_file cp false 0 :: extra).
      split.
      * rewrite Htr. cbn [trace after_call add_stdout st1 current_path].
        rewrite <- !app_assoc. reflexivity.
      * intros _. cbn [restores_after_each]. repeat split. apply Hrest. exact Hadr.
    + exists (Call_select_file path true r :: extra).
      split.
      * rewrite Htr. cbn [trace after_call add_stdout st1 current_path].
        rewrite <- !app_assoc. reflexivity.
      * intros Hyes. cbn [current_path add_stdout after_call st1] in Hadr.
        fold cp in Hadr. fold cp in Hyes. congruence.
Qed.

Lemma selected_on_card_app (t1 t2 : list call) :
  forall before,
    selected_on_card (t1 ++ t2) before
    = selected_on_card t2 (selected_on_card t1 before).
Proof.
  induction t1 as [|c t1 IH]; intros before; [reflexivity|].
  destruct c; simpl; apply IH.
Qed.

Lemma check_ret_run (r : Z) (op : ac_op) (err : string) (file : option sc_file)
    (st : shell_state) :
  exists st',
    check_ret r op err file st = Returned tt st'
    /\ current_path st' = current_path st /\ current_file st' = current_file st
    /\ card st' = card st /\ trace st' = trace st /\ stdout st' = stdout st.
Proof.
  unfold check_ret, bind, eprintf.
  destruct (r =? SC_ERROR_SECURITY_STATUS_NOT_SATISFIED);
    eexists; (split; [reflexivity|]); repeat split; reflexivity.
Qed.

(** C2 (as amended): when [do_ls] returns, the current path and the cached
    attributes are what they were, for every listing the card gives.  With
    a current path that is not empty (a tag or a length other than 0), every
    selection of a listed child is followed at once by a successful
    selection of the current path, so that the address selected on the card
    is the current path after the call if it was before. *)
Theorem do_ls_restores (argv : list string) (st st' : shell_state) (r : Z) :
  do_ls argv st = Returned r st' ->
  current_path st' = current_path st
  /\ current_file st' = current_file st
  /\ exists extra,
       trace st' = trace st ++ extra
       /\ (has_address (current_path st) = true ->
           restores_after_each (current_path st) extra
           /\ (selected_on_card (trace st) None = Some (current_path st) ->
               selected_on_card (trace st') None = Some (current_path st))).
Proof.
  intros Hrun.
  assert (Hcore : current_path st' = current_path st
                  /\ current_file st' = current_file st
                  /\ exists extra,
                       trace st' = trace st ++ extra
                       /\ (has_address (current_path st) = true ->
                           restores_after_each (current_path st) extra)).
  { unfold do_ls in Hrun.
    destruct (negb (argc argv =? 0)).
    - rewrite printf_then in Hrun. inversion Hrun; subst.
      repeat split. exists []. rewrite app_nil_r. split; [reflexivity|].
      intros _. exact I.
    - unfold bind at 1, list_files, external in Hrun.
      destruct (sc_list_files (card st) 256) as [[rl buf] w].
      cbn [fst] in Hrun.
      set (st1 := after_call st w (Call_list_files 256 rl)) in *.
      destruct (rl <? 0).
      + unfold bind at 1, get_current_file in Hrun.
        unfold bind at 1 in Hrun.
        destruct (check_ret_run rl SC_AC_OP_LIST_FILES
                    "unable to receive file listing" (current_file st1) st1)
          as (st2 & Hcr & Hcp & Hcf & _ & Htr & _).
        rewrite Hcr in Hrun. inversion Hrun; subst.
        split; [exact Hcp|]. split; [exact Hcf|].
        exists [Call_list_files 256 rl]. split; [exact Htr|].
        intros _. exact I.
      + rewrite printf_then in Hrun. unfold bind at 1 in Hrun.
        destruct (do_ls_loop (Z.to_nat (rl / 2)) buf 0
                    (add_stdout st1 [("FileID" ++ TAB ++ "Type  Size")%string]))
          as [[] st2| | |] eqn:Hloop; try discriminate.
        inversion Hrun; subst.
        apply do_ls_loop_run in Hloop.
        destruct Hloop as (Hcp & Hcf & extra & Htr & Hrest).
        split; [exact Hcp|]. split; [exact Hcf|].
        exists (Call_list_files 256 rl :: extra).
        split.
        * rewrite Htr. cbn [trace add_stdout after_call st1].
          rewrite <- app_assoc. reflexivity.
        * intros Hadr. cbn [restores_after_each]. apply Hrest. exact Hadr. }
  destruct Hcore as (Hcp & Hcf & extra & Htr & Hrest).
  split; [exact Hcp|]. split; [exact Hcf|].
  exists extra. split; [exact Htr|].
  intros Hadr. split; [apply Hrest; exact Hadr|].
  intros Hsel. rewrite Htr, selected_on_card_app, Hsel.
  destruct (selected_after_restore (current_path st) extra
              (Some (current_path st)) (Hrest Hadr)) as [E|E]; exact E.
Qed.

End Listing.

(** With the empty current path that the shell starts from when the start
    path option is the empty string, no selection follows that of a listed
    child: the child stays selected on the card. *)
Lemma do_ls_without_address :
  let st := Sim.start [47; 0] 0 0 zero_path in
  let st' := final_state (do_ls [] st) st in
  let child := snd (sc_append_path_id zero_path [47; 0]) in
  returned (do_ls [] st) = Some 0
  /\ has_address (current_path st) = false
  /\ current_path st' = current_path st
  /\ trace st' = [Call_list_files 256 2; Call_select_file child true 0]
  /\ path_bytes child = [47; 0]
  /\ restores_after_each (current_path st) (trace st') = False
  /\ selected_on_card (trace st) None = None
  /\ selected_on_card (trace st') None = Some child.
Proof. cbv zeta. repeat split; vm_compute; reflexivity. Qed.

Lemma do_ls_restores_witness :
  let st := Sim.start [47; 0; 80; 21] 0 0 sc_format_path_3F00 in
  let st' := final_state (do_ls [] st) st in
  do_ls [] st = Returned 0 st'
  /\ current_path st' = current_path st
  /\ exists extra,
       trace st' = trace st ++ extra
       /\ restores_after_each (current_path st) extra.
Proof.
  cbv zeta.
  assert (Hrun : do_ls [] (Sim.start [47; 0; 80; 21] 0 0 sc_format_path_3F00)
                 = Returned 0
                     (final_state
                        (do_ls [] (Sim.start [47; 0; 80; 21] 0 0 sc_format_path_3F00))
                        (Sim.start [47; 0; 80; 21] 0 0 sc_format_path_3F00)))
    by (apply returned_eta; vm_compute; reflexivity).
  split; [exact Hrun|].
  destruct (do_ls_restores _ _ _ _ Hrun) as (Hcp & _ & extra & Htr & Hrest).
  split; [exact Hcp|].
  exists extra. split; [exact Htr|].
  apply Hrest. vm_compute. reflexivity.
Defined.

(** ** get and put: the default file name *)

Lemma drop_last_char_app (a b : string) :
  b <> EmptyString ->
  drop_last_char (a ++ b) = (a ++ drop_last_char b)%string.
Proof.
  intros Hb. unfold drop_last_char.
  induction a as [|c a IH]; [reflexivity|].
  cbn [String.append list_ascii_of_string].
  assert (Hne : list_ascii_of_string (a ++ b) <> []).
  { destruct a; [destruct b; [congruence | discriminate] | discriminate]. }
  destruct (list_ascii_of_string (a ++ b)) as [|x l] eqn:E; [congruence|].
  cbn [removelast string_of_list_ascii]. rewrite <- IH. reflexivity.
Qed.

Lemma hex2_two_chars (b : Z) : exists x y, hex2 b = String x (String y EmptyString).
Proof. unfold hex2, hex_digit. eexists. eexists. reflexivity. Qed.

Lemma do_get_fbuf_shift (pairs : nat) :
  forall i value,
    do_get_fbuf pairs i value = do_get_fbuf pairs 0 (skipn (2 * i) value).
Proof.
  induction pairs as [|pairs IH]; intros i value; [reflexivity|].
  cbn [do_get_fbuf].
  rewrite (IH (S i) value), (IH 1%nat (skipn (2 * i) value)).
  rewrite skipn_skipn, !nth_skipn.
  replace (2 * 1 + 2 * i)%nat with (2 * S i)%nat by lia.
  replace (2 * i + 2 * 0)%nat with (2 * i)%nat by lia.
  replace (2 * i + (2 * 0 + 1))%nat with (2 * i + 1)%nat by lia.
  reflexivity.
Qed.

Lemma do_get_fbuf_pairs (k : nat) :
  forall value,
    (2 * S k <= List.length value)%nat ->
    drop_last_char (do_get_fbuf (S k) 0 value) = join_pairs (firstn (2 * S k) value).
Proof.
  induction k as [|k IH]; intros value Hlen.
  - destruct value as [|b0 [|b1 value]]; simpl in Hlen; try lia.
    cbn [do_get_fbuf Nat.mul Nat.add nth firstn join_pairs].
    destruct (hex2_two_chars b0) as (x0 & y0 & ->).
    destruct (hex2_two_chars b1) as (x1 & y1 & ->).
    reflexivity.
  - destruct value as [|b0 [|b1 value]]; simpl in Hlen; try lia.
    replace (2 * S (S k))%nat with (S (S (2 * S k))) by lia.
    cbn [firstn].
    assert (Hrest : exists c0 c1 rest, firstn (2 * S k) value = c0 :: c1 :: rest).
    { destruct value as [|c0 [|c1 value']]; simpl in Hlen; try lia.
      replace (2 * S k)%nat with (S (S (2 * k))) by lia.
      cbn [firstn]. eauto. }
    destruct Hrest as (c0 & c1 & rest & Hrest).
    specialize (IH value ltac:(lia)).
    rewrite Hrest in IH |- *.
    change (join_pairs (b0 :: b1 :: c0 :: c1 :: rest))
      with (hex2 b0 ++ hex2 b1 ++ "_" ++ join_pairs (c0 :: c1 :: rest))%string.
    rewrite <- IH.
    change (do_get_fbuf (S (S k)) 0 (b0 :: b1 :: value))
      with (hex2 b0 ++ hex2 b1 ++ "_" ++ do_get_fbuf (S k) 1 (b0 :: b1 :: value))%string.
    rewrite (do_get_fbuf_shift (S k) 1 (b0 :: b1 :: value)).
    change (skipn (2 * 1) (b0 :: b1 :: value)) with value.
    assert (Hne : do_get_fbuf (S k) 0 value <> EmptyString).
    { cbn [do_get_fbuf]. destruct (hex2_two_chars (nth (2 * 0) value 0)) as (x & y & ->).
      discriminate. }
    rewrite !drop_last_char_app; try reflexivity; try exact Hne.
    + destruct (do_get_fbuf (S k) 0 value); [congruence | discriminate].
    + destruct (hex2_two_chars b1) as (x & y & ->). discriminate.
Qed.

(** [do_get] names the local file after all the pairs of the path. *)
Lemma do_get_default_filename_pairs (path : sc_path) (k : nat) :
  path_len path = 2 * Z.of_nat (S k) ->
  (2 * S k <= List.length (path_value path))%nat ->
  do_get_default_filename path = Some (join_pairs (path_bytes path)).
Proof.
  intros Hlen Hroom. unfold do_get_default_filename, path_bytes.
  rewrite Hlen.
  replace (Z.to_nat ((2 * Z.of_nat (S k) + 1) / 2)) with (S k).
  - rewrite do_get_fbuf_pairs by exact Hroom.
    replace (Z.to_nat (2 * Z.of_nat (S k))) with (2 * S k)%nat by lia.
    reflexivity.
  - assert ((2 * Z.of_nat (S k) + 1) / 2 = Z.of_nat (S k)); [|lia].
    symmetry. apply Z.div_unique with (r := 1); lia.
Qed.

(** C9 at the failing input: with 3F00 as the current path, the token 2F00
    resolves to the path 3F00 2F00; without a file name [do_get] opens
    3F00_2F00, the pairs of the path joined by an underscore, while [do_put]
    opens 3F00, the first pair alone. *)
Lemma do_put_names_first_pair_only :
  let st := Sim.start [] 0 10 sc_format_path_3F00 in
  option_map (fun x => path_bytes (snd x)) (returned (arg_to_path "2F00" false st))
  = Some [63; 0; 47; 0]
  /\ join_pairs [63; 0; 47; 0] = "3F00_2F00"%string
  /\ hd_error (trace (final_state (do_get 10 ["2F00"%string] st) st))
     = Some (Call_fopen "3F00_2F00" "wb" true)
  /\ hd_error (trace (final_state (do_put 10 ["2F00"%string] st) st))
     = Some (Call_fopen "3F00" "rb" true)
  /\ (forall path, do_put_default_filename path
                   = (hex2 (nth 0 (path_value path) 0)
                        ++ hex2 (nth 1 (path_value path) 0))%string).
Proof.
  cbv zeta. split; [vm_compute; reflexivity|].
  split; [vm_compute; reflexivity|].
  split; [vm_compute; reflexivity|].
  split; [vm_compute; reflexivity|].
  intros path. reflexivity.
Qed.

(** ** BinaryIOEngine: chunked transparent reads *)




Section ChunkedRead.

Context {CI : CardInterface}.

Variable bound : Z.
Variable sink : list Z -> Z -> M unit.
Variable file : sc_file.

Hypothesis bound_positive : 0 < bound.

(** The sink returns and reads nothing from the card. *)
Hypothesis sink_frame :
  forall data idx st,
    exists st', sink data idx st = Returned tt st'
                /\ reads_of (trace st') = reads_of (trace st).

(** The card never delivers more than it is asked for. *)
Hypothesis reads_bounded :
  forall w idx buf count, fst (fst (sc_read_binary w idx buf count)) <= count.



End ChunkedRead.

Section TransparentRead.

Context {CI : CardInterface}.




End TransparentRead.



(** A run on the simulated card: 300 bytes arrive in chunks of 128, 128
    and 44. *)
Lemma chunked_read_300_bytes :
  let file := {| file_type := SC_FILE_TYPE_WORKING_EF; file_id := 12032;
                 file_size := 300; file_name := []; file_namelen := 0 |} in
  let st := Sim.start [] 0 300 sc_format_path_3F00 in
  returned (read_and_util_print_binary_file 300 file st) = Some 0
  /\ reads_of (trace (final_state (read_and_util_print_binary_file 300 file st) st))
     = [(0, 128, 128); (128, 128, 128); (256, 44, 44)].
Proof. cbv zeta. split; vm_compute; reflexivity. Qed.

(** * Further properties of the code *)

(** ** The tokenizer *)

Lemma string_app_nil_r (s : string) : (s ++ "")%string = s.
Proof. induction s as [|c s IH]; simpl; [|rewrite IH]; reflexivity. Qed.

Lemma skip_blanks_plain (c : ascii) (s : string) :
  is_blank c = false -> skip_blanks (String c s) = String c s.
Proof. intros H. simpl. rewrite H. reflexivity. Qed.

Lemma span_until_free (stop : ascii -> bool) (w rest : string) :
  free_of stop w = true ->
  match rest with
  | EmptyString => True
  | String c _ => stop c = true
  end ->
  span_until stop (w ++ rest) = (w, rest).
Proof.
  intros Hw Hrest. induction w as [|c w IH]; simpl in *.
  - destruct rest as [|c rest]; [reflexivity|]. simpl. rewrite Hrest. reflexivity.
  - apply andb_true_iff in Hw. destruct Hw as [Hc Hw].
    apply negb_true_iff in Hc. rewrite Hc, (IH Hw). reflexivity.
Qed.

Lemma plain_word_inv (w : string) :
  plain_word w = true ->
  exists c w', w = String c w' /\ is_quote c = false /\ is_blank c = false
               /\ free_of is_blank w = true.
Proof.
  destruct w as [|c w']; [discriminate|]. unfold plain_word. intros H.
  apply andb_true_iff in H. destruct H as [Hq Hf].
  exists c, w'. repeat split; try assumption.
  - apply negb_true_iff. exact Hq.
  - simpl in Hf. apply andb_true_iff in Hf. destruct Hf as [Hb _].
    apply negb_true_iff. exact Hb.
Qed.

Lemma parse_line_loop_word (turns : nat) (w rest : string) :
  plain_word w = true ->
  match rest with
  | EmptyString => True
  | String c _ => is_blank c = true
  end ->
  parse_line_loop (S turns) (w ++ rest)
  = option_map (cons w) (parse_line_loop turns (cut rest)).
Proof.
  intros Hw Hrest.
  destruct (plain_word_inv w Hw) as (c & w' & -> & Hq & Hb & Hf).
  cbn [parse_line_loop].
  change (String c w' ++ rest)%string with (String c (w' ++ rest)).
  rewrite (skip_blanks_plain c _ Hb), Hq.
  change (String c (w' ++ rest)) with (String c w' ++ rest)%string.
  rewrite (span_until_free is_blank _ rest Hf Hrest). reflexivity.
Qed.

Lemma parse_line_loop_words (ws : list string) :
  forall turns,
    Forall (fun w => plain_word w = true) ws ->
    (List.length ws <= turns)%nat ->
    parse_line_loop turns (join_words ws) = Some ws.
Proof.
  induction ws as [|w ws IH]; intros turns Hws Hlen.
  - destruct turns; reflexivity.
  - inversion Hws as [|? ? Hw Hws']; subst.
    destruct turns as [|turns]; [simpl in Hlen; lia|].
    destruct ws as [|w2 ws].
    + cbn [join_words].
      rewrite <- (string_app_nil_r w) at 1.
      rewrite (parse_line_loop_word turns w EmptyString Hw I).
      destruct turns; reflexivity.
    + change (join_words (w :: w2 :: ws))
        with (w ++ (String " " (join_words (w2 :: ws))))%string.
      rewrite (parse_line_loop_word turns w
                 (String " " (join_words (w2 :: ws))) Hw eq_refl).
      cbn [cut]. rewrite IH; [reflexivity | assumption | simpl in Hlen |- *; lia].
Qed.

(** X1: a line made of plain words separated by single spaces is split
    into exactly these words, as long as they are no more than [maxargc]. *)
Theorem parse_line_joined_words (ws : list string) (maxargc : Z) :
  Forall (fun w => plain_word w = true) ws ->
  (List.length ws <= Z.to_nat maxargc)%nat ->
  parse_line (join_words ws) maxargc = ws.
Proof.
  intros Hws Hlen. unfold parse_line.
  rewrite (parse_line_loop_words ws _ Hws Hlen). reflexivity.
Qed.

Lemma parse_line_joined_words_witness :
  parse_line "change CHV2 31:32 -x" 260 = ["change"; "CHV2"; "31:32"; "-x"]%string.
Proof.
  apply (parse_line_joined_words ["change"; "CHV2"; "31:32"; "-x"]%string 260).
  - repeat constructor.
  - simpl. lia.
Defined.

Lemma skip_blanks_head (input : string) (c : ascii) (rest : string) :
  skip_blanks input = String c rest -> is_blank c = false.
Proof.
  induction input as [|a input IH]; simpl; [discriminate|].
  destruct (is_blank a) eqn:E; [exact IH|].
  intros H. inversion H; subst. exact E.
Qed.

Lemma parse_line_loop_tokens (turns : nat) :
  forall input tokens,
    parse_line_loop turns input = Some tokens ->
    (List.length tokens <= turns)%nat
    /\ Forall (fun t => t <> EmptyString) tokens.
Proof.
  induction turns as [|turns IH]; intros input tokens Hrun.
  - inversion Hrun; subst. split; [simpl; lia | constructor].
  - cbn [parse_line_loop] in Hrun.
    destruct (skip_blanks input) as [|c rest] eqn:Hskip.
    { inversion Hrun; subst. split; [simpl; lia | constructor]. }
    apply skip_blanks_head in Hskip.
    destruct (is_quote c).
    + destruct (span_until is_quote rest) as [body from].
      destruct from as [|closing after]; [discriminate|].
      destruct (parse_line_loop turns (cut after)) as [l|] eqn:Hrest; [|discriminate].
      inversion Hrun; subst. destruct (IH _ _ Hrest) as [Hlen Hne].
      split; [simpl; lia|]. constructor; [discriminate | exact Hne].
    + cbn [span_until] in Hrun. rewrite Hskip in Hrun.
      destruct (span_until is_blank rest) as [before from].
      destruct (parse_line_loop turns (cut from)) as [l|] eqn:Hrest; [|discriminate].
      inversion Hrun; subst. destruct (IH _ _ Hrest) as [Hlen Hne].
      split; [simpl; lia|]. constructor; [discriminate | exact Hne].
Qed.

(** X2: [parse_line] never returns more than [maxargc] tokens, and none of
    them is empty. *)
Theorem parse_line_tokens (line : string) (maxargc : Z) :
  (List.length (parse_line line maxargc) <= Z.to_nat maxargc)%nat
  /\ Forall (fun t => t <> EmptyString) (parse_line line maxargc).
Proof.
  unfold parse_line.
  destruct (parse_line_loop (Z.to_nat maxargc) line) as [tokens|] eqn:Hrun.
  - apply (parse_line_loop_tokens _ _ _ Hrun).
  - split; [simpl; lia | constructor].
Qed.

Lemma parse_line_loop_open_quote (turns : nat) (body : string) :
  free_of is_quote body = true ->
  parse_line_loop (S turns) (DQUOTE ++ body) = None.
Proof.
  intros Hbody. cbn [parse_line_loop DQUOTE String.append skip_blanks].
  change (is_blank (ascii_of_nat 34)) with false.
  change (is_quote (ascii_of_nat 34)) with true. cbv iota.
  rewrite <- (string_app_nil_r body).
  rewrite (span_until_free is_quote body EmptyString Hbody I). reflexivity.
Qed.

(** X3: a quoted token that is not closed makes [parse_line] return no
    token at all, the words before it included. *)
Theorem parse_line_unterminated_quote (ws : list string) (body : string) (maxargc : Z) :
  Forall (fun w => plain_word w = true) ws ->
  (List.length ws < Z.to_nat maxargc)%nat ->
  free_of is_quote body = true ->
  parse_line (join_words (ws ++ [(DQUOTE ++ body)%string])) maxargc = [].
Proof.
  intros Hws Hlen Hbody. unfold parse_line.
  assert (Hnone : parse_line_loop (Z.to_nat maxargc)
                    (join_words (ws ++ [(DQUOTE ++ body)%string])) = None).
  { revert Hlen. generalize (Z.to_nat maxargc) as turns.
    induction ws as [|w ws IH]; intros turns Hlen.
    - destruct turns as [|turns]; [simpl in Hlen; lia|].
      apply parse_line_loop_open_quote. exact Hbody.
    - inversion Hws as [|? ? Hw Hws']; subst.
      destruct turns as [|turns]; [simpl in Hlen; lia|].
      assert (Hjoin : join_words ((w :: ws) ++ [(DQUOTE ++ body)%string])
                      = (w ++ String " " (join_words (ws ++ [(DQUOTE ++ body)%string])))%string).
      { destruct ws; reflexivity. }
      rewrite Hjoin.
      rewrite (parse_line_loop_word turns w
                 (String " " (join_words (ws ++ [(DQUOTE ++ body)%string]))) Hw eq_refl).
      cbn [cut]. rewrite (IH Hws'); [reflexivity | simpl in Hlen; lia]. }
  rewrite Hnone. reflexivity.
Qed.

Lemma parse_line_unterminated_quote_witness :
  parse_line (join_words ["verify"; "CHV1"; (DQUOTE ++ "1234")]%string) 260 = [].
Proof.
  apply (parse_line_unterminated_quote ["verify"; "CHV1"]%string "1234" 260).
  - repeat constructor.
  - simpl. lia.
  - reflexivity.
Defined.

(** X4: the character that follows the closing quote of a quoted token is
    overwritten by the end of the token and lost, whatever it is; the words
    after it are the next tokens. *)
Theorem parse_line_after_quote (body : string) (c : ascii) (ws : list string) (maxargc : Z) :
  free_of is_quote body = true ->
  Forall (fun w => plain_word w = true) ws ->
  (List.length ws < Z.to_nat maxargc)%nat ->
  parse_line (DQUOTE ++ body ++ DQUOTE ++ String c (join_words ws)) maxargc
  = (DQUOTE ++ body ++ DQUOTE)%string :: ws.
Proof.
  intros Hbody Hws Hlen. unfold parse_line.
  destruct (Z.to_nat maxargc) as [|turns]; [lia|].
  cbn [parse_line_loop DQUOTE String.append skip_blanks].
  change (is_blank (ascii_of_nat 34)) with false.
  change (is_quote (ascii_of_nat 34)) with true. cbv iota.
  rewrite (span_until_free is_quote body
             (String (ascii_of_nat 34) (String c (join_words ws))) Hbody eq_refl).
  cbn [cut].
  rewrite (parse_line_loop_words ws turns Hws ltac:(lia)).
  reflexivity.
Qed.

Lemma parse_line_after_quote_witness :
  parse_line (DQUOTE ++ "ab" ++ DQUOTE ++ "cd") 260 = [(DQUOTE ++ "ab" ++ DQUOTE)%string; "d"%string].
Proof.
  apply (parse_line_after_quote "ab" "c" ["d"%string] 260).
  - reflexivity.
  - repeat constructor.
  - simpl. lia.
Defined.

(** ** Path resolution of file ids *)

Lemma xdigit_is_plain (c : ascii) :
  isxdigit c = true ->
  isspace c = false
  /\ (char_code c =? char_code "-") = false
  /\ (char_code c =? char_code "+") = false
  /\ (char_code c =? char_code "x") = false
  /\ (char_code c =? char_code "X") = false
  /\ (char_code (tolower c) =? char_code (tolower "i")) = false.
Proof.
  destruct c as [[] [] [] [] [] [] [] []]; vm_compute;
    intuition discriminate.
Qed.

Lemma scan_02X_two_digits (d1 d2 : ascii) (rest : string) :
  isxdigit d1 = true -> isxdigit d2 = true ->
  scan_02X (String d1 (String d2 rest))
  = Some (16 * hex_digit_value d1 + hex_digit_value d2, rest).
Proof.
  intros H1 H2.
  destruct (xdigit_is_plain d1 H1) as (Hs & Hm & Hp & _).
  destruct (xdigit_is_plain d2 H2) as (_ & _ & _ & Hx & HX & _).
  unfold scan_02X. cbn [skip_spaces]. rewrite Hs, Hm, Hp, H1, Hx, HX, H2.
  cbn [orb andb]. rewrite andb_false_r. reflexivity.
Qed.

Lemma four_hex_digits_scan (d1 d2 d3 d4 : ascii) :
  isxdigit d1 = true -> isxdigit d2 = true ->
  isxdigit d3 = true -> isxdigit d4 = true ->
  sscanf_02X_02X (String d1 (String d2 (String d3 (String d4 EmptyString))))
  = Some (16 * hex_digit_value d1 + hex_digit_value d2,
          16 * hex_digit_value d3 + hex_digit_value d4).
Proof.
  intros H1 H2 H3 H4. unfold sscanf_02X_02X.
  rewrite (scan_02X_two_digits d1 d2 _ H1 H2), (scan_02X_two_digits d3 d4 _ H3 H4).
  reflexivity.
Qed.

Lemma four_hex_digits_not_aid (d1 d2 d3 d4 : ascii) :
  isxdigit d2 = true ->
  (strncasecmp (String d1 (String d2 (String d3 (String d4 EmptyString))))
     "aid:" (strlen "aid:") =? 0) = false.
Proof.
  intros H2. destruct (xdigit_is_plain d2 H2) as (_ & _ & _ & _ & _ & Hi).
  apply Z.eqb_neq.
  change (strlen "aid:") with 4. unfold strncasecmp.
  change (Z.to_nat 4) with 4%nat. cbn [strncasecmp_nat].
  destruct (char_code (tolower d1) =? char_code (tolower "a")) eqn:E1.
  - rewrite Hi. apply Z.eqb_neq in Hi. lia.
  - apply Z.eqb_neq in E1. lia.
Qed.

Section FileIds.

Context {CI : CardInterface}.

Variables d1 d2 d3 d4 : ascii.
Hypothesis hex1 : isxdigit d1 = true.
Hypothesis hex2_ : isxdigit d2 = true.
Hypothesis hex3 : isxdigit d3 = true.
Hypothesis hex4 : isxdigit d4 = true.

Let token : string := String d1 (String d2 (String d3 (String d4 EmptyString))).
Let b0 : Z := 16 * hex_digit_value d1 + hex_digit_value d2.
Let b1 : Z := 16 * hex_digit_value d3 + hex_digit_value d4.

Lemma file_id_bytes_small : b0 mod 256 = b0 /\ b1 mod 256 = b1.
Proof.
  pose proof (hex_digit_value_range _ hex1).
  pose proof (hex_digit_value_range _ hex2_).
  pose proof (hex_digit_value_range _ hex3).
  pose proof (hex_digit_value_range _ hex4).
  unfold b0, b1. split; apply Z.mod_small; lia.
Qed.

Lemma arg_to_path_file_id_run (is_id : bool) (st : shell_state) :
  arg_to_path token is_id st
  = (if ((b0 =? 63) && (b1 =? 0)) || is_id
     then
       ret (0, set_path_type
                 (set_path_value (set_path_len zero_path 2)
                                 (store (path_value zero_path) 0 [b0; b1]))
                 (if is_id then SC_PATH_TYPE_FILE_ID else SC_PATH_TYPE_PATH))
     else
       cp <- get_current_path ;;
       if path_type cp =? SC_PATH_TYPE_DF_NAME
       then
         if path_len cp >? SC_MAX_AID_SIZE
         then printf "Invalid length of DF_NAME path" ;; ret (-1, cp)
         else
           ret (0, snd (sc_append_path_id
                          (set_path_len
                             (set_path_type
                                (set_path_aid cp
                                   {| aid_value := store (aid_value (path_aid cp)) 0
                                                     (path_bytes cp);
                                      aid_len := path_len cp |})
                                SC_PATH_TYPE_FILE_ID) 0)
                          [b0; b1]))
       else ret (0, snd (sc_append_path_id cp [b0; b1]))) st.
Proof.
  unfold arg_to_path. cbv zeta.
  fold token. unfold token at 1.
  rewrite (four_hex_digits_not_aid d1 d2 d3 d4 hex2_).
  change (strlen token) with 4. cbn [Z.eqb Pos.eqb negb].
  unfold token. rewrite (four_hex_digits_scan d1 d2 d3 d4 hex1 hex2_ hex3 hex4).
  fold b0 b1. destruct file_id_bytes_small as [-> ->]. reflexivity.
Qed.

(** X5: a token of four hex digits is an absolute address in two cases,
    whatever the current path is: in raw-id mode it is the bare file id made
    of its two bytes, and outside raw-id mode the bytes 3F 00 are the root
    path of length 2.  Nothing is printed and the card is not called. *)
Theorem arg_to_path_absolute (st : shell_state) :
  (exists path,
      arg_to_path token true st = Returned (0, path) st
      /\ path_type path = SC_PATH_TYPE_FILE_ID
      /\ path_len path = 2 /\ path_bytes path = [b0; b1])
  /\ (b0 = 63 -> b1 = 0 ->
      exists path,
        arg_to_path token false st = Returned (0, path) st
        /\ path_type path = SC_PATH_TYPE_PATH
        /\ path_len path = 2 /\ path_bytes path = [63; 0]).
Proof.
  split.
  - rewrite arg_to_path_file_id_run, orb_true_r.
    eexists. split; [reflexivity|]. repeat split.
  - intros E0 E1. rewrite arg_to_path_file_id_run, E0, E1.
    eexists. split; [reflexivity|]. repeat split.
Qed.

Lemma appended_path_bytes (cp : sc_path) (id : list Z) :
  0 <= path_len cp ->
  path_len cp + Z.of_nat (List.length id) <= SC_MAX_PATH_SIZE ->
  (Z.to_nat (path_len cp) <= List.length (path_value cp))%nat ->
  sc_append_path_id cp id
  = (SC_SUCCESS,
     set_path_len (set_path_value cp (store (path_value cp) (path_len cp) id))
                  (path_len cp + Z.of_nat (List.length id)))
  /\ path_bytes (snd (sc_append_path_id cp id)) = path_bytes cp ++ id.
Proof.
  intros Hlen Hroom Hval. unfold sc_append_path_id.
  replace (path_len cp + Z.of_nat (List.length id) >? SC_MAX_PATH_SIZE) with false
    by (symmetry; rewrite Z.gtb_ltb; apply Z.ltb_ge; lia).
  split; [reflexivity|].
  cbn [snd]. unfold path_bytes, store.
  cbn [path_value path_len set_path_len set_path_value].
  replace (Z.to_nat (path_len cp + Z.of_nat (List.length id)))
    with (List.length (firstn (Z.to_nat (path_len cp)) (path_value cp))
          + List.length id)%nat
    by (rewrite length_firstn; lia).
  rewrite firstn_app_2, firstn_app, firstn_all, Nat.sub_diag. simpl.
  rewrite app_nil_r. reflexivity.
Qed.

(** X6: outside raw-id mode a token of four hex digits other than 3F00 is
    resolved against the current path: when that path is not an AppId and
    has room for two more bytes, the result is the current path with the two
    bytes of the token appended, under the same tag. *)
Theorem arg_to_path_relative (st : shell_state) :
  (b0 <> 63 \/ b1 <> 0) ->
  path_type (current_path st) <> SC_PATH_TYPE_DF_NAME ->
  0 <= path_len (current_path st) ->
  path_len (current_path st) + 2 <= SC_MAX_PATH_SIZE ->
  (Z.to_nat (path_len (current_path st)) <= List.length (path_value (current_path st)))%nat ->
  exists path,
    arg_to_path token false st = Returned (0, path) st
    /\ path_type path = path_type (current_path st)
    /\ path_len path = path_len (current_path st) + 2
    /\ path_bytes path = path_bytes (current_path st) ++ [b0; b1].
Proof.
  intros Hnot Hty Hlen Hroom Hval.
  rewrite arg_to_path_file_id_run.
  replace ((b0 =? 63) && (b1 =? 0)) with false.
  2:{ symmetry. apply andb_false_iff.
      destruct Hnot; [left | right]; apply Z.eqb_neq; assumption. }
  cbn [orb]. unfold bind, get_current_path.
  replace (path_type (current_path st) =? SC_PATH_TYPE_DF_NAME) with false
    by (symmetry; apply Z.eqb_neq; exact Hty).
  destruct (appended_path_bytes (current_path st) [b0; b1] Hlen Hroom Hval)
    as [Happ Hbytes].
  eexists. split; [reflexivity|].
  split; [rewrite Happ; reflexivity|].
  split; [rewrite Happ; reflexivity | exact Hbytes].
Qed.

(** X7: when the current address is an AppId of at most 16 bytes, such a
    token is resolved to the bare file id of its two bytes, and the AppId
    moves into the [aid] field of the path. *)
Theorem arg_to_path_under_aid (st : shell_state) :
  (b0 <> 63 \/ b1 <> 0) ->
  path_type (current_path st) = SC_PATH_TYPE_DF_NAME ->
  0 <= path_len (current_path st) <= SC_MAX_AID_SIZE ->
  exists path,
    arg_to_path token false st = Returned (0, path) st
    /\ path_type path = SC_PATH_TYPE_FILE_ID
    /\ path_len path = 2
    /\ firstn 2 (path_value path) = [b0; b1]
    /\ aid_len (path_aid path) = path_len (current_path st)
    /\ firstn (List.length (path_bytes (current_path st))) (aid_value (path_aid path))
       = path_bytes (current_path st).
Proof.
  intros Hnot Hty Hlen.
  rewrite arg_to_path_file_id_run.
  replace ((b0 =? 63) && (b1 =? 0)) with false.
  2:{ symmetry. apply andb_false_iff.
      destruct Hnot; [left | right]; apply Z.eqb_neq; assumption. }
  cbn [orb]. unfold bind, get_current_path. rewrite Hty. cbn [Z.eqb Pos.eqb].
  replace (path_len (current_path st) >? SC_MAX_AID_SIZE) with false
    by (symmetry; rewrite Z.gtb_ltb; apply Z.ltb_ge; lia).
  eexists. split; [reflexivity|].
  unfold sc_append_path_id.
  cbn [path_len path_type path_value path_aid set_path_len set_path_type
       set_path_aid set_path_value List.length snd Z.of_nat Z.add Z.gtb Z.compare
       Pos.compare Pos.compare_cont Pos.of_succ_nat Pos.succ aid_len aid_value].
  repeat split.
  apply store_at_start.
Qed.

End FileIds.

(** A token that starts with the base prefix 0x is a file id too: the
    prefix is read as the byte 00 and the two digits left as the second
    byte. *)
Lemma arg_to_path_base_prefix :
  let st := Sim.start [] 0 0 sc_format_path_3F00 in
  option_map (fun x => (fst x, path_bytes (snd x))) (returned (arg_to_path "0x12" false st))
  = Some (0, [63; 0; 0; 18])
  /\ stdout (final_state (arg_to_path "0x12" false st) st) = [].
Proof. cbv zeta. split; vm_compute; reflexivity. Qed.

Lemma arg_to_path_absolute_witness :
  (exists path,
      arg_to_path "3f00" true (Sim.start [] 0 0 zero_path)
      = Returned (0, path) (Sim.start [] 0 0 zero_path)
      /\ path_type path = SC_PATH_TYPE_FILE_ID
      /\ path_len path = 2 /\ path_bytes path = [63; 0])
  /\ (exists path,
         arg_to_path "3f00" false (Sim.start [] 0 0 zero_path)
         = Returned (0, path) (Sim.start [] 0 0 zero_path)
         /\ path_type path = SC_PATH_TYPE_PATH
         /\ path_len path = 2 /\ path_bytes path = [63; 0]).
Proof.
  destruct (arg_to_path_absolute "3" "f" "0" "0" eq_refl eq_refl eq_refl eq_refl
              (Sim.start [] 0 0 zero_path)) as [Hraw Hroot].
  split; [exact Hraw | exact (Hroot eq_refl eq_refl)].
Defined.

Lemma arg_to_path_relative_witness :
  exists path,
    arg_to_path "2F00" false (Sim.start [] 0 0 sc_format_path_3F00)
    = Returned (0, path) (Sim.start [] 0 0 sc_format_path_3F00)
    /\ path_type path = SC_PATH_TYPE_PATH
    /\ path_len path = 4
    /\ path_bytes path = [63; 0; 47; 0].
Proof.
  apply (arg_to_path_relative "2" "F" "0" "0" eq_refl eq_refl eq_refl eq_refl
           (Sim.start [] 0 0 sc_format_path_3F00)).
  - left. discriminate.
  - discriminate.
  - simpl. lia.
  - simpl. unfold SC_MAX_PATH_SIZE. lia.
  - simpl. lia.
Defined.

Lemma arg_to_path_under_aid_witness :
  let aid := set_path_type
               (set_path_len
                  (set_path_value zero_path (store (path_value zero_path) 0 [160; 0; 0]))
                  3)
               SC_PATH_TYPE_DF_NAME in
  exists path,
    arg_to_path "2F00" false (Sim.start [] 0 0 aid)
    = Returned (0, path) (Sim.start [] 0 0 aid)
    /\ path_type path = SC_PATH_TYPE_FILE_ID
    /\ path_len path = 2
    /\ firstn 2 (path_value path) = [47; 0]
    /\ aid_len (path_aid path) = 3
    /\ firstn 3 (aid_value (path_aid path)) = [160; 0; 0].
Proof.
  cbv zeta.
  apply (arg_to_path_under_aid "2" "F" "0" "0" eq_refl eq_refl eq_refl eq_refl
           (Sim.start [] 0 0
              (set_path_type
                 (set_path_len
                    (set_path_value zero_path (store (path_value zero_path) 0 [160; 0; 0]))
                    3)
                 SC_PATH_TYPE_DF_NAME))).
  - left. discriminate.
  - reflexivity.
  - simpl. unfold SC_MAX_AID_SIZE. lia.
Defined.

(** ** Quoted PIN values *)


Section QuotedPin.

Context {CI : CardInterface}.



(** X9: [do_verify] without a PIN value asks the reader's PIN pad: when the
    reader has none the command fails with a message and calls nothing on
    the card, and when it has one the card is called once with the pin-pad
    flag, a prompt and no PIN data, for the reference that [%d] stored in
    the [int] [data.pin_reference]. *)
Theorem do_verify_pin_pad (tok : string) (ref : Z) (st : shell_state) :
  find_pin_type tok typeNames <> SC_AC_NONE ->
  sscanf_d (advance tok 3) = Some ref ->
  - 2 ^ 31 <= ref < 2 ^ 31
  /\ (reader_pin_pad (card st) = false ->
   do_verify [tok] st
   = Returned (-1)
       (add_stdout st ["Card reader or driver doesn't support PIN PAD"%string]))
  /\ (reader_pin_pad (card st) = true ->
      exists r st' rc,
        do_verify [tok] st = Returned r st'
        /\ trace st' = trace st
                       ++ [Call_pin_cmd
                             {| pcd_cmd := SC_PIN_CMD_VERIFY;
                                pcd_flags := SC_PIN_CMD_USE_PINPAD;
                                pcd_pin_type := find_pin_type tok typeNames;
                                pcd_pin_reference := ref;
                                pcd_pin1_prompt := Some "Please enter PIN"%string;
                                pcd_pin1_data := None; pcd_pin1_len := 0 |} rc]).
Proof.
  intros Hty Href.
  split; [exact (sscanf_d_int _ _ Href)|].
  assert (Hhead :
             do_verify [tok] st
             = (if negb (reader_pin_pad (card st))
                then Returned (-1)
                       (add_stdout st
                          ["Card reader or driver doesn't support PIN PAD"%string])
                else
                  (fun data =>
                     x <- external
                            (fun w => let '(r, t, w') := sc_pin_cmd w data (-1) in
                                      ((r, t), w'))
                            (fun rt => Call_pin_cmd data (fst rt)) ;;
                     (let '(r, tries_left) := x in
                      if negb (r =? 0)
                      then
                        (if r =? SC_ERROR_PIN_CODE_INCORRECT
                         then
                           if tries_left >=? 0
                           then printf ("Incorrect code, " ++ dec tries_left
                                          ++ " tries left.")
                           else printf "Incorrect code."
                         else printf ("Unable to verify PIN code: " ++ sc_strerror r)) ;;
                        ret (-1)
                      else printf "Code correct." ;; ret 0))
                    {| pcd_cmd := SC_PIN_CMD_VERIFY;
                       pcd_flags := SC_PIN_CMD_USE_PINPAD;
                       pcd_pin_type := find_pin_type tok typeNames;
                       pcd_pin_reference := ref;
                       pcd_pin1_prompt := Some "Please enter PIN"%string;
                       pcd_pin1_data := None; pcd_pin1_len := 0 |}
                    (add_stdout st ["Please enter PIN on the reader's pin pad."%string]))).
  { unfold do_verify.
    change (argc [tok]) with 1. change (arg [tok] 0) with tok.
    cbn [Z.ltb Z.gtb Z.compare Pos.compare Pos.compare_cont orb]. cbv zeta.
    replace (find_pin_type tok typeNames =? SC_AC_NONE) with false
      by (symmetry; apply Z.eqb_neq; exact Hty).
    rewrite Href.
    unfold bind at 1. unfold bind at 1. unfold get_card at 1.
    destruct (negb (reader_pin_pad (card st))); reflexivity. }
  split.
  - intros Hpad. rewrite Hhead, Hpad. reflexivity.
  - intros Hpad. rewrite Hhead, Hpad. cbn [negb].
    unfold bind, external. cbn [card add_stdout].
    match goal with
    | |- context [sc_pin_cmd ?w ?d ?t] => destruct (sc_pin_cmd w d t) as [[rc tries] w']
    end.
    cbn [fst].
    destruct (negb (rc =? 0));
      [destruct (rc =? SC_ERROR_PIN_CODE_INCORRECT); [destruct (tries >=? 0)|]|];
      eexists; eexists; exists rc; split; reflexivity.
Qed.

End QuotedPin.


Lemma do_verify_pin_pad_witness :
  exists r st' rc,
    do_verify ["CHV1"%string] (Sim.start [] 0 0 sc_format_path_3F00) = Returned r st'
    /\ trace st'
       = [Call_pin_cmd
            {| pcd_cmd := SC_PIN_CMD_VERIFY; pcd_flags := SC_PIN_CMD_USE_PINPAD;
               pcd_pin_type := SC_AC_CHV; pcd_pin_reference := 1;
               pcd_pin1_prompt := Some "Please enter PIN"%string;
               pcd_pin1_data := None; pcd_pin1_len := 0 |} rc].
Proof.
  destruct (do_verify_pin_pad "CHV1" 1 (Sim.start [] 0 0 sc_format_path_3F00))
    as (_ & _ & Hpad); [discriminate | reflexivity |].
  exact (Hpad eq_refl).
Defined.

(** ** Changing directory *)

Section ChangeDirectory.

Context {CI : CardInterface}.

(** [arg_to_path] may print; it touches nothing else. *)
Lemma arg_to_path_frame (a : string) (is_id : bool) (st : shell_state) :
  exists r path lines,
    arg_to_path a is_id st = Returned (r, path) (add_stdout st lines).
Proof.
  unfold arg_to_path. cbv zeta.
  destruct (strncasecmp a "aid:" (strlen "aid:") =? 0).
  { unfold bind. rewrite print_lines_run. eexists. eexists. eexists. reflexivity. }
  destruct (negb (strlen a =? 4)).
  { rewrite printf_then. eexists. eexists. eexists. reflexivity. }
  destruct (sscanf_02X_02X a) as [[b0 b1]|].
  2:{ rewrite printf_then. eexists. eexists. eexists. reflexivity. }
  destruct (((b0 mod 256 =? 63) && (b1 mod 256 =? 0)) || is_id).
  { exists 0. eexists. exists []. rewrite add_stdout_nil. reflexivity. }
  unfold bind, get_current_path.
  destruct (path_type (current_path st) =? SC_PATH_TYPE_DF_NAME).
  - destruct (path_len (current_path st) >? SC_MAX_AID_SIZE).
    + eexists. eexists. eexists. reflexivity.
    + exists 0. eexists. exists []. rewrite add_stdout_nil. reflexivity.
  - exists 0. eexists. exists []. rewrite add_stdout_nil. reflexivity.
Qed.

(** X10: [do_cd] is all or nothing.  When it returns a failure, the current
    path and the cached attributes are what they were; when it returns 0,
    the new current path is the one whose selection succeeded last, that
    selection was the only call made to the card, and the attributes cached
    are the ones it gave. *)
Theorem do_cd_all_or_nothing (argv : list string) (st st' : shell_state) (r : Z) :
  do_cd argv st = Returned r st' ->
  (r = 0 \/ r = -1)
  /\ (r <> 0 ->
      current_path st' = current_path st /\ current_file st' = current_file st)
  /\ (r = 0 ->
      trace st' = trace st ++ [Call_select_file (current_path st') true 0]
      /\ exists w,
           current_file st'
           = Some (snd (fst (sc_select_file w (current_path st') true)))).
Proof.
  intros Hrun.
  assert (Hfail : forall s lines,
             current_path s = current_path st -> current_file s = current_file st ->
             Returned (-1) (add_stdout s lines) = Returned r st' ->
             (r = 0 \/ r = -1)
             /\ (r <> 0 ->
                 current_path st' = current_path st /\ current_file st' = current_file st)
             /\ (r = 0 ->
                 trace st' = trace st ++ [Call_select_file (current_path st') true 0]
                 /\ exists w,
                      current_file st'
                      = Some (snd (fst (sc_select_file w (current_path st') true))))).
  { intros s lines Hp Hf Heq. inversion Heq; subst.
    split; [right; reflexivity|]. split; [intros _; split; assumption|].
    discriminate. }
  assert (Hok : forall path,
             match sc_select_file (card st) path true with
             | (r0, file, w) =>
                 r0 = 0 ->
                 Returned 0
                   {| current_file := Some file; current_path := path; card := w;
                      stdout := stdout st'; stderr := stderr st';
                      trace := trace st ++ [Call_select_file path true r0] |}
                 = Returned r st' ->
                 (r = 0 \/ r = -1)
                 /\ (r <> 0 ->
                     current_path st' = current_path st
                     /\ current_file st' = current_file st)
                 /\ (r = 0 ->
                     trace st' = trace st ++ [Call_select_file (current_path st') true 0]
                     /\ exists w,
                          current_file st'
                          = Some (snd (fst (sc_select_file w (current_path st') true))))
             end).
  { intros path.
    destruct (sc_select_file (card st) path true) as [[r0 file] w] eqn:Esel.
    intros -> Heq. inversion Heq; subst.
    split; [left; reflexivity|]. split; [intros Hne; congruence|].
    intros _. cbn [trace current_path current_file].
    split; [reflexivity|]. exists (card st). rewrite Esel. reflexivity. }
  unfold do_cd in Hrun.
  destruct (negb (argc argv =? 1)).
  { unfold do_cd_usage in Hrun. rewrite printf_then in Hrun.
    apply (Hfail st _ eq_refl eq_refl Hrun). }
  destruct (streq (arg argv 0) "..").
  - unfold bind at 1, get_current_path at 1 in Hrun.
    destruct (path_len (current_path st) <? 4).
    { rewrite printf_then in Hrun. apply (Hfail st _ eq_refl eq_refl Hrun). }
    cbv zeta in Hrun.
    set (target := if path_type (current_path st) =? SC_PATH_TYPE_DF_NAME
                   then sc_format_path_3F00
                   else set_path_len (current_path st) (path_len (current_path st) - 2))
      in *.
    unfold bind at 1 in Hrun. rewrite select_file_run in Hrun.
    specialize (Hok target).
    destruct (sc_select_file (card st) target true) as [[r0 file] w].
    cbn [fst snd] in Hrun.
    destruct (r0 =? 0) eqn:Er0; cbn [negb] in Hrun.
    + apply Z.eqb_eq in Er0. apply (Hok Er0).
      inversion Hrun; subst. reflexivity.
    + rewrite printf_then in Hrun.
      apply (Hfail (after_call st w (Call_select_file target true r0)) _
               eq_refl eq_refl Hrun).
  - unfold bind at 1 in Hrun.
    destruct (arg_to_path_frame (arg argv 0) false st) as (r1 & path & lines & Harg).
    rewrite Harg in Hrun.
    destruct (negb (r1 =? 0)).
    { unfold do_cd_usage in Hrun. rewrite printf_then, add_stdout_app in Hrun.
      apply (Hfail st _ eq_refl eq_refl Hrun). }
    unfold bind at 1 in Hrun. rewrite select_file_run in Hrun.
    cbn [card add_stdout] in Hrun.
    specialize (Hok path).
    destruct (sc_select_file (card st) path true) as [[r0 file] w].
    cbn [fst snd] in Hrun.
    destruct (r0 =? 0) eqn:Er0; cbn [negb] in Hrun.
    + apply Z.eqb_eq in Er0.
      unfold bind at 1, get_card at 1 in Hrun.
      destruct (negb (file_type file =? SC_FILE_TYPE_DF)
                && negb (card_type
                           (card (after_call (add_stdout st lines) w
                                    (Call_select_file path true r0)))
                         =? SC_CARD_TYPE_BELPIC_EID)).
      * rewrite printf_then in Hrun. unfold bind at 1 in Hrun.
        match type of Hrun with
        | context [select_current_path_or_die ?s] =>
            destruct (select_current_path_or_die_run s)
              as [(code & s2 & Hdie) | [(_ & w2 & Hsel) | (_ & Hsel)]];
            rewrite ?Hdie, ?Hsel in Hrun
        end; [discriminate | |];
          inversion Hrun; subst;
          (split; [right; reflexivity|]);
          (split; [intros _; split; reflexivity | discriminate]).
      * apply (Hok Er0). inversion Hrun; subst. reflexivity.
    + unfold bind at 1, get_current_file at 1 in Hrun.
      unfold bind at 1 in Hrun.
      match type of Hrun with
      | context [check_ret ?a ?b ?c ?d ?s] =>
          destruct (check_ret_run a b c d s) as (s2 & Hcr & Hp & Hf & _)
      end.
      rewrite Hcr in Hrun. inversion Hrun; subst.
      split; [right; reflexivity|].
      split; [intros _; split; assumption | discriminate].
Qed.

End ChangeDirectory.

Lemma do_cd_all_or_nothing_witness :
  let st := Sim.start [] Sim.BELPIC 0 sc_format_path_3F00 in
  let st' := final_state (do_cd ["5015"%string] st) st in
  do_cd ["5015"%string] st = Returned 0 st'
  /\ trace st' = trace st ++ [Call_select_file (current_path st') true 0].
Proof.
  cbv zeta.
  assert (Hrun : do_cd ["5015"%string] (Sim.start [] Sim.BELPIC 0 sc_format_path_3F00)
                 = Returned 0
                     (final_state
                        (do_cd ["5015"%string]
                           (Sim.start [] Sim.BELPIC 0 sc_format_path_3F00))
                        (Sim.start [] Sim.BELPIC 0 sc_format_path_3F00)))
    by (apply returned_eta; vm_compute; reflexivity).
  split; [exact Hrun|].
  destruct (do_cd_all_or_nothing _ _ _ _ Hrun) as (_ & _ & Hok).
  exact (proj1 (Hok eq_refl)).
Defined.

(** ** Commands that visit a file and come back *)

Section VisitAndReturn.

Context {CI : CardInterface}.

Lemma same_navigation_refl (st : shell_state) : same_navigation st st.
Proof. repeat split. exists []. rewrite app_nil_r. reflexivity. Qed.

Lemma same_navigation_trans (s1 s2 s3 : shell_state) :
  same_navigation s1 s2 -> same_navigation s2 s3 -> same_navigation s1 s3.
Proof.
  intros (P1 & F1 & t1 & T1) (P2 & F2 & t2 & T2).
  split; [congruence|]. split; [congruence|].
  exists (t1 ++ t2). rewrite T2, T1, app_assoc. reflexivity.
Qed.

Lemma same_navigation_stdout (st : shell_state) (lines : list string) :
  same_navigation st (add_stdout st lines).
Proof. repeat split. exists []. cbn. rewrite app_nil_r. reflexivity. Qed.

Lemma same_navigation_call (st : shell_state) (w : world) (c : call) :
  same_navigation st (after_call st w c).
Proof. repeat split. exists [c]. reflexivity. Qed.

Lemma same_navigation_check_ret (r : Z) (op : ac_op) (err : string)
    (file : option sc_file) (st : shell_state) :
  exists st', check_ret r op err file st = Returned tt st' /\ same_navigation st st'.
Proof.
  destruct (check_ret_run r op err file st) as (st' & Hrun & Hp & Hf & _ & Ht & _).
  exists st'. split; [exact Hrun|]. repeat split; try assumption.
  exists []. rewrite app_nil_r. exact Ht.
Qed.

Lemma do_get_sink_navigation (to_stdout : bool) (filename : string)
    (data : list Z) (idx : Z) (st : shell_state) :
  exists st', do_get_sink to_stdout filename data idx st = Returned tt st'
              /\ same_navigation st st'.
Proof.
  unfold do_get_sink. destruct to_stdout.
  - eexists. split; [reflexivity | apply same_navigation_stdout].
  - unfold external. destruct (fwrite (card st) filename data) as [[] w].
    eexists. split; [reflexivity | apply same_navigation_call].
Qed.

Lemma read_chunks_navigation (bound : Z) (sink : list Z -> Z -> M unit)
    (file : sc_file) (fuel : nat) :
  (forall data idx s, exists s', sink data idx s = Returned tt s'
                                 /\ same_navigation s s') ->
  forall idx buf count st x st',
    read_chunks bound sink fuel file idx buf count st = Returned x st' ->
    same_navigation st st'.
Proof.
  intros Hsink.
  induction fuel as [|fuel IH]; intros idx buf count st x st' Hrun;
    cbn [read_chunks] in Hrun;
    (destruct (count =? 0);
     [inversion Hrun; subst; apply same_navigation_refl|]);
    [discriminate|].
  unfold bind at 1 in Hrun. unfold read_binary, external in Hrun.
  destruct (sc_read_binary (card st) idx buf
              (if count >? bound then bound else count)) as [[r buf'] w].
  cbn [fst snd] in Hrun.
  match type of Hrun with
  | context [after_call st w ?c] =>
      set (st1 := after_call st w c) in *;
      assert (H1 : same_navigation st st1) by apply same_navigation_call
  end.
  destruct (r <? 0).
  { unfold bind at 1 in Hrun.
    destruct (same_navigation_check_ret r SC_AC_OP_READ "read failed" (Some file) st1)
      as (st2 & Hcr & H2).
    rewrite Hcr in Hrun. inversion Hrun; subst.
    apply (same_navigation_trans _ _ _ H1 H2). }
  unfold bind at 1, get_card at 1 in Hrun.
  match type of Hrun with
  | (if ?b then _ else _) _ = _ => destruct b
  end.
  { rewrite printf_then in Hrun. inversion Hrun; subst.
    apply (same_navigation_trans _ _ _ H1 (same_navigation_stdout _ _)). }
  match type of Hrun with
  | (if ?b then _ else _) _ = _ => destruct b
  end.
  { inversion Hrun; subst. exact H1. }
  unfold bind at 1 in Hrun.
  destruct (Hsink (firstn (Z.to_nat r) buf') idx st1) as (st2 & Hs & H2).
  rewrite Hs in Hrun. apply IH in Hrun.
  apply (same_navigation_trans _ _ _ H1 (same_navigation_trans _ _ _ H2 Hrun)).
Qed.

(** After a visit that kept the navigation state, the closing call of
    [select_current_path_or_die] selects the current path again, if there is
    one. *)
Lemma restored_after_visit (st s st' : shell_state) :
  same_navigation st s ->
  select_current_path_or_die s = Returned tt st' ->
  current_path st' = current_path st
  /\ current_file st' = current_file st
  /\ exists t,
       trace st' = trace st ++ t
       /\ (has_address (current_path st) = true ->
           exists t0, t = t0 ++ [Call_select_file (current_path st) false 0]).
Proof.
  intros (Hp & Hf & t & Ht) Hsel.
  destruct (select_current_path_or_die_run s)
    as [(code & s2 & Hdie) | [(Hadr & w2 & Hrun) | (Hadr & Hrun)]];
    rewrite ?Hdie, ?Hrun in Hsel; [discriminate | |]; inversion Hsel; subst.
  - split; [exact Hp|]. split; [exact Hf|].
    exists (t ++ [Call_select_file (current_path s) false 0]).
    split; [cbn [trace after_call]; rewrite Ht, app_assoc; reflexivity|].
    intros _. exists t. rewrite Hp. reflexivity.
  - split; [exact Hp|]. split; [exact Hf|].
    exists t. split; [exact Ht|].
    intros Hyes. rewrite Hp in Hadr. congruence.
Qed.

(** X11: [do_get] visits the file and comes back.  Whenever it returns, the
    current path and the cached attributes are what they were; and unless it
    stopped at its usage text, its last call to the card is a successful
    selection of the current path (when that path is not empty). *)
Theorem do_get_comes_back (fuel : nat) (argv : list string) (st st' : shell_state) (r : Z) :
  do_get fuel argv st = Returned r st' ->
  current_path st' = current_path st
  /\ current_file st' = current_file st
  /\ exists t,
       trace st' = trace st ++ t
       /\ (t = []
           \/ (has_address (current_path st) = true ->
               exists t0, t = t0 ++ [Call_select_file (current_path st) false 0])).
Proof.
  intros Hrun.
  assert (Husage : forall lines st0,
             Returned (-1) (add_stdout st lines) = Returned r st0 ->
             current_path st0 = current_path st
             /\ current_file st0 = current_file st
             /\ exists t,
                  trace st0 = trace st ++ t
                  /\ (t = []
                      \/ (has_address (current_path st) = true ->
                          exists t0, t = t0 ++ [Call_select_file (current_path st) false 0]))).
  { intros lines st0 Heq. inversion Heq; subst. repeat split.
    exists []. split; [cbn; rewrite app_nil_r; reflexivity | left; reflexivity]. }
  unfold do_get in Hrun.
  destruct ((argc argv <? 1) || (argc argv >? 2)).
  { unfold do_get_usage in Hrun. rewrite printf_then in Hrun.
    apply (Husage _ _ Hrun). }
  unfold bind at 1 in Hrun.
  destruct (arg_to_path_frame (arg argv 0) false st) as (r1 & path & lines & Harg).
  rewrite Harg in Hrun.
  destruct (negb (r1 =? 0)).
  { unfold do_get_usage in Hrun. rewrite printf_then, add_stdout_app in Hrun.
    apply (Husage _ _ Hrun). }
  destruct (if argc argv =? 2 then Some (arg argv 1) else do_get_default_filename path)
    as [filename|]; [|discriminate].
  cbv zeta in Hrun.
  (* everything up to the closing selection keeps the navigation state *)
  assert (Hvisit : forall (body : M Z) s0,
             same_navigation st s0 ->
             (forall e s1, body s0 = Returned e s1 -> same_navigation st s1) ->
             (err <- body ;; select_current_path_or_die ;; ret (- err)) s0
             = Returned r st' ->
             current_path st' = current_path st
             /\ current_file st' = current_file st
             /\ exists t,
                  trace st' = trace st ++ t
                  /\ (t = []
                      \/ (has_address (current_path st) = true ->
                          exists t0, t = t0 ++ [Call_select_file (current_path st) false 0]))).
  { intros body s0 H0 Hbody Hall. unfold bind at 1 in Hall.
    destruct (body s0) as [e s1| | |] eqn:Eb; try discriminate.
    specialize (Hbody e s1 eq_refl).
    unfold bind at 1 in Hall.
    destruct (select_current_path_or_die s1) as [[] s2| | |] eqn:Esel; try discriminate.
    inversion Hall; subst.
    destruct (restored_after_visit st s1 st' Hbody Esel) as (Hp & Hf & t & Ht & Hlast).
    split; [exact Hp|]. split; [exact Hf|].
    exists t. split; [exact Ht | right; exact Hlast]. }
  unfold bind at 1 in Hrun.
  assert (Hopen : exists opened s0,
             (if streq filename "-" then ret true
              else external (fun w => fopen w filename "wb")
                            (fun ok => Call_fopen filename "wb" ok))
               (add_stdout st lines) = Returned opened s0
             /\ same_navigation st s0).
  { destruct (streq filename "-").
    - eexists. eexists. split; [reflexivity | apply same_navigation_stdout].
    - unfold external. cbn [card add_stdout].
      destruct (fopen (card st) filename "wb") as [ok w].
      eexists. eexists. split; [reflexivity|].
      apply (same_navigation_trans _ _ _ (same_navigation_stdout st lines)
               (same_navigation_call _ _ _)). }
  destruct Hopen as (opened & s0 & Hopen & H0). rewrite Hopen in Hrun.
  refine (Hvisit _ s0 H0 _ Hrun).
  clear Hrun Hvisit. intros e s1 Hbody.
  destruct (negb opened).
  { unfold bind, eprintf in Hbody. inversion Hbody; subst.
    destruct H0 as (Hp & Hf & t & Ht). repeat split; try assumption.
    exists t. exact Ht. }
  unfold bind at 1 in Hbody. rewrite select_file_run in Hbody.
  destruct (sc_select_file (card s0) path true) as [[r0 file] w].
  cbn [fst snd] in Hbody.
  match type of Hbody with
  | context [after_call s0 w ?c] =>
      set (s2 := after_call s0 w c) in *;
      assert (H2 : same_navigation st s2)
        by (apply (same_navigation_trans _ _ _ H0 (same_navigation_call _ _ _)))
  end.
  destruct (negb (r0 =? 0)).
  { unfold bind at 1, get_current_file at 1 in Hbody. unfold bind at 1 in Hbody.
    match type of Hbody with
    | context [check_ret ?a ?b ?c ?d ?s] =>
        destruct (same_navigation_check_ret a b c d s) as (s3 & Hcr & H3)
    end.
    rewrite Hcr in Hbody. inversion Hbody; subst.
    apply (same_navigation_trans _ _ _ H2 H3). }
  destruct (negb (file_type file =? SC_FILE_TYPE_WORKING_EF)).
  { rewrite printf_then in Hbody. inversion Hbody; subst.
    apply (same_navigation_trans _ _ _ H2 (same_navigation_stdout _ _)). }
  unfold bind at 1 in Hbody.
  destruct (read_chunks 256 (do_get_sink (streq filename "-") filename) fuel file 0
              (repeat 0 256) (file_size file) s2) as [[failed idx] s3| | |] eqn:Eread;
    try discriminate.
  apply (read_chunks_navigation 256 _ file fuel
           (do_get_sink_navigation (streq filename "-") filename)) in Eread.
  assert (H3 : same_navigation st s3) by apply (same_navigation_trans _ _ _ H2 Eread).
  destruct failed.
  { inversion Hbody; subst. exact H3. }
  destruct (streq filename "-"); rewrite printf_then in Hbody; inversion Hbody; subst;
    apply (same_navigation_trans _ _ _ H3 (same_navigation_stdout _ _)).
Qed.

End VisitAndReturn.

Lemma do_get_comes_back_witness :
  let st := Sim.start [] 0 300 sc_format_path_3F00 in
  let st' := final_state (do_get 300 ["2F00"%string] st) st in
  do_get 300 ["2F00"%string] st = Returned 0 st'
  /\ current_path st' = current_path st
  /\ current_file st' = current_file st.
Proof.
  cbv zeta.
  assert (Hrun : do_get 300 ["2F00"%string] (Sim.start [] 0 300 sc_format_path_3F00)
                 = Returned 0
                     (final_state
                        (do_get 300 ["2F00"%string]
                           (Sim.start [] 0 300 sc_format_path_3F00))
                        (Sim.start [] 0 300 sc_format_path_3F00)))
    by (apply returned_eta; vm_compute; reflexivity).
  split; [exact Hrun|].
  destruct (do_get_comes_back _ _ _ _ _ Hrun) as (Hp & Hf & _).
  split; assumption.
Defined.

(** ** More on dispatch *)

Section FullNames.

Context {CI : CardInterface}.

(** X12: no command name of the table is a prefix of another one, so every
    command can be called by its full name: typed alone on a line, each name
    reaches its own handler with no argument. *)
Theorem every_command_by_its_name :
  Forall (fun c => forall st,
              main_dispatch (cmd_name c) st = Returned (Some (cmd_func c, [])) st)
         cmds.
Proof.
  unfold cmds.
  repeat (constructor;
          [intros st; cbn [cmd_name cmd_func];
           match goal with
           | |- main_dispatch ?name st = _ =>
               rewrite (main_dispatch_spec name name [] st) by reflexivity
           end;
           reflexivity|]).
  constructor.
Qed.

End FullNames.

Lemma char_code_inj (a b : ascii) : char_code a = char_code b -> a = b.
Proof.
  unfold char_code. intros H. apply N2Z.inj in H.
  rewrite <- (ascii_N_embedding a), <- (ascii_N_embedding b), H. reflexivity.
Qed.

Lemma tolower_not_nul (c : ascii) :
  (char_code c =? 0) = false -> char_code (tolower c) <> 0.
Proof.
  destruct c as [[] [] [] [] [] [] [] []]; vm_compute; congruence.
Qed.

Lemma strncasecmp_prefix (cmd : string) :
  forall name,
    free_of (fun c => char_code c =? 0) cmd = true ->
    (strncasecmp cmd name (strlen cmd) = 0
     <-> exists rest, lower_string name = (lower_string cmd ++ rest)%string).
Proof.
  unfold strncasecmp, strlen. rewrite Nat2Z.id.
  induction cmd as [|c cmd IH]; intros name Hnul.
  - split; [intros _; exists (lower_string name); reflexivity | reflexivity].
  - cbn [free_of] in Hnul. apply andb_true_iff in Hnul. destruct Hnul as [Hc Hnul].
    apply negb_true_iff in Hc. pose proof (tolower_not_nul c Hc) as Hlow.
    cbn [String.length strncasecmp_nat lower_string String.append].
    destruct name as [|d name].
    + split; [intros H; contradiction | intros [rest H]; discriminate].
    + cbn [lower_string].
      destruct (char_code (tolower c) =? char_code (tolower d)) eqn:E.
      * apply Z.eqb_eq, char_code_inj in E. rewrite E, (IH name Hnul).
        split; intros [rest H]; exists rest; [rewrite H; reflexivity|].
        inversion H. reflexivity.
      * apply Z.eqb_neq in E. split; [intros H; lia|].
        intros [rest H]. inversion H. congruence.
Qed.

(** X13: [ambiguous_match] counts an entry of the table exactly when the
    typed name, with its letters in lower case, is a prefix of the entry's
    name in lower case. *)
Theorem prefix_matches_spec (table : list command) (cmd : string) (entry : command) :
  free_of (fun c => char_code c =? 0) cmd = true ->
  (In entry (prefix_matches table cmd)
   <-> In entry table
       /\ exists rest,
            lower_string (cmd_name entry) = (lower_string cmd ++ rest)%string).
Proof.
  intros Hnul. unfold prefix_matches. rewrite filter_In, Z.eqb_eq.
  rewrite (strncasecmp_prefix cmd (cmd_name entry) Hnul). reflexivity.
Qed.

Lemma prefix_matches_spec_witness :
  In {| cmd_name := "unblock"; cmd_func := H_do_unblock; cmd_help := "unblock a PIN" |}
     (prefix_matches cmds "UNB").
Proof.
  apply (prefix_matches_spec cmds "UNB"
           {| cmd_name := "unblock"; cmd_func := H_do_unblock;
              cmd_help := "unblock a PIN" |}).
  - reflexivity.
  - split.
    + unfold cmds. simpl. tauto.
    + exists "lock"%string. reflexivity.
Defined.

(** ** More on listing *)

Section ListingCount.

Context {CI : CardInterface}.

Lemma do_ls_loop_children (iters : nat) :
  forall buf cur st st',
    do_ls_loop iters buf cur st = Returned tt st' ->
    exists extra,
      trace st' = trace st ++ extra
      /\ children_selected extra
         = map (fun i =>
                  let b0 := nth (cur + 2 * i) buf 0 in
                  let b1 := nth (cur + 2 * i + 1) buf 0 in
                  if path_type (current_path st) =? SC_PATH_TYPE_DF_NAME
                  then snd (sc_path_set SC_PATH_TYPE_FILE_ID [b0; b1] 0 0)
                  else snd (sc_append_path_id (current_path st) [b0; b1]))
               (seq 0 iters).
Proof.
  induction iters as [|iters IH]; intros buf cur st st' Hrun.
  - inversion Hrun; subst. exists []. rewrite app_nil_r. split; reflexivity.
  - cbn [do_ls_loop] in Hrun. cbv zeta in Hrun.
    unfold bind at 1 in Hrun. unfold get_current_path at 1 in Hrun.
    set (cp := current_path st) in *.
    unfold bind at 1 in Hrun.
    assert (Hpath :
               (if negb (path_type cp =? SC_PATH_TYPE_DF_NAME)
                then ret (snd (sc_append_path_id cp [nth cur buf 0; nth (cur + 1) buf 0]))
                else
                  let '(r, p) := sc_path_set SC_PATH_TYPE_FILE_ID
                                   [nth cur buf 0; nth (cur + 1) buf 0] 0 0 in
                  if negb (r =? SC_SUCCESS)
                  then printf "unable to set path." ;; die 1
                  else ret p) st
               = Returned
                   (if path_type cp =? SC_PATH_TYPE_DF_NAME
                    then snd (sc_path_set SC_PATH_TYPE_FILE_ID
                                [nth cur buf 0; nth (cur + 1) buf 0] 0 0)
                    else snd (sc_append_path_id cp [nth cur buf 0; nth (cur + 1) buf 0]))
                   st).
    { destruct (path_type cp =? SC_PATH_TYPE_DF_NAME); reflexivity. }
    rewrite Hpath in Hrun.
    set (path := if path_type cp =? SC_PATH_TYPE_DF_NAME
                 then snd (sc_path_set SC_PATH_TYPE_FILE_ID
                             [nth cur buf 0; nth (cur + 1) buf 0] 0 0)
                 else snd (sc_append_path_id cp [nth cur buf 0; nth (cur + 1) buf 0]))
      in *.
    unfold bind at 1 in Hrun. rewrite select_file_run in Hrun.
    destruct (sc_select_file (card st) path true) as [[r file] w].
    cbn [fst snd] in Hrun.
    set (st1 := after_call st w (Call_select_file path true r)) in *.
    unfold bind at 1 in Hrun.
    assert (Hshow : exists lines,
               (if negb (r =? 0)
                then printf (" " ++ hex2 (nth cur buf 0) ++ hex2 (nth (cur + 1) buf 0)
                               ++ " unable to select file, " ++ sc_strerror r)
                else print_file (set_file_id file
                                   (Z.lor (Z.shiftl (nth cur buf 0) 8) (nth (cur + 1) buf 0))))
                 st1
               = Returned tt (add_stdout st1 lines)).
    { destruct (negb (r =? 0)); [eexists; reflexivity | apply print_file_run]. }
    destruct Hshow as [lines Hshow]. rewrite Hshow in Hrun.
    unfold bind at 1 in Hrun.
    assert (Hnext : forall (i : nat),
               (let b0 := nth (cur + 2 + 2 * i) buf 0 in
                let b1 := nth (cur + 2 + 2 * i + 1) buf 0 in
                if path_type cp =? SC_PATH_TYPE_DF_NAME
                then snd (sc_path_set SC_PATH_TYPE_FILE_ID [b0; b1] 0 0)
                else snd (sc_append_path_id cp [b0; b1]))
               = (let b0 := nth (cur + 2 * S i) buf 0 in
                  let b1 := nth (cur + 2 * S i + 1) buf 0 in
                  if path_type cp =? SC_PATH_TYPE_DF_NAME
                  then snd (sc_path_set SC_PATH_TYPE_FILE_ID [b0; b1] 0 0)
                  else snd (sc_append_path_id cp [b0; b1]))).
    { intros i. replace (cur + 2 * S i)%nat with (cur + 2 + 2 * i)%nat by lia.
      reflexivity. }
    assert (Hhead : path
                    = (let b0 := nth (cur + 2 * 0) buf 0 in
                       let b1 := nth (cur + 2 * 0 + 1) buf 0 in
                       if path_type cp =? SC_PATH_TYPE_DF_NAME
                       then snd (sc_path_set SC_PATH_TYPE_FILE_ID [b0; b1] 0 0)
                       else snd (sc_append_path_id cp [b0; b1]))).
    { replace (cur + 2 * 0)%nat with cur by lia. reflexivity. }
    destruct (select_current_path_or_die_run (add_stdout st1 lines))
      as [(code & st2 & Hdie) | [(Hadr & w2 & Hsel) | (Hadr & Hsel)]];
      rewrite ?Hdie, ?Hsel in Hrun; [discriminate| |];
      apply IH in Hrun; destruct Hrun as (extra & Htr & Hchildren);
      cbn [current_path after_call add_stdout st1] in Hchildren; fold cp in Hchildren.
    + exists (Call_select_file path true r
              :: Call_select_file cp false 0 :: extra).
      split.
      * rewrite Htr. cbn [trace after_call add_stdout st1 current_path].
        rewrite <- !app_assoc. reflexivity.
      * cbn [children_selected]. rewrite Hchildren.
        rewrite <- cons_seq, <- seq_shift. cbn [map]. rewrite map_map.
        f_equal; [exact Hhead | apply map_ext; exact Hnext].
    + exists (Call_select_file path true r :: extra).
      split.
      * rewrite Htr. cbn [trace after_call add_stdout st1 current_path].
        rewrite <- !app_assoc. reflexivity.
      * cbn [children_selected]. rewrite Hchildren.
        rewrite <- cons_seq, <- seq_shift. cbn [map]. rewrite map_map.
        f_equal; [exact Hhead | apply map_ext; exact Hnext].
Qed.

(** X14: when [sc_list_files] answers with [n] bytes, [do_ls] returns 0
    after selecting [n / 2] children, in the order of the listing: the
    child of rank [i] is addressed by the bytes [2 * i] and [2 * i + 1] of
    the listing, appended to the current path, or on their own as a file id
    when the current address is an AppId; a last odd byte is left aside.
    When the card answers with an error, [do_ls] returns -1 and selects
    nothing. *)
Theorem do_ls_children (st st' : shell_state) (ret : Z) :
  do_ls [] st = Returned ret st' ->
  let n := fst (fst (sc_list_files (card st) 256)) in
  let buf := snd (fst (sc_list_files (card st) 256)) in
  exists extra,
    trace st' = trace st ++ Call_list_files 256 n :: extra
    /\ (n < 0 -> ret = -1 /\ extra = [])
    /\ (0 <= n ->
        ret = 0
        /\ children_selected extra
           = map (fun i =>
                    let b0 := nth (2 * i) buf 0 in
                    let b1 := nth (2 * i + 1) buf 0 in
                    if path_type (current_path st) =? SC_PATH_TYPE_DF_NAME
                    then snd (sc_path_set SC_PATH_TYPE_FILE_ID [b0; b1] 0 0)
                    else snd (sc_append_path_id (current_path st) [b0; b1]))
                 (seq 0 (Z.to_nat (n / 2)))).
Proof.
  intros Hrun n buf. subst n buf. unfold do_ls in Hrun.
  change (argc []) with 0 in Hrun. cbn [Z.eqb negb] in Hrun.
  unfold bind at 1, list_files, external in Hrun.
  destruct (sc_list_files (card st) 256) as [[n buf] w].
  cbn [fst snd] in Hrun |- *.
  set (st1 := after_call st w (Call_list_files 256 n)) in *.
  destruct (n <? 0) eqn:En.
  - apply Z.ltb_lt in En.
    unfold bind at 1, get_current_file in Hrun. unfold bind at 1 in Hrun.
    match type of Hrun with
    | context [check_ret ?a ?b ?c ?d ?s] =>
        destruct (check_ret_run a b c d s) as (s2 & Hcr & _ & _ & _ & Htr & _)
    end.
    rewrite Hcr in Hrun. inversion Hrun; subst.
    exists []. split; [exact Htr|]. split; [intros _; split; reflexivity | lia].
  - apply Z.ltb_ge in En.
    rewrite printf_then in Hrun. unfold bind at 1 in Hrun.
    match type of Hrun with
    | match ?loop with _ => _ end = _ => destruct loop as [[] s2| | |] eqn:Hloop
    end; try discriminate.
    inversion Hrun; subst.
    apply do_ls_loop_children in Hloop. destruct Hloop as (extra & Htr & Hchildren).
    exists extra. split.
    + rewrite Htr. cbn [trace add_stdout after_call st1].
      rewrite <- app_assoc. reflexivity.
    + split; [lia | intros _; split; [reflexivity | exact Hchildren]].
Qed.

End ListingCount.

Lemma do_ls_children_witness :
  let st := Sim.start [47; 0; 80; 21; 9] 0 0 sc_format_path_3F00 in
  let st' := final_state (do_ls [] st) st in
  do_ls [] st = Returned 0 st'
  /\ exists extra,
       trace st' = trace st ++ Call_list_files 256 5 :: extra
       /\ map path_bytes (children_selected extra) = [[63; 0; 47; 0]; [63; 0; 80; 21]].
Proof.
  cbv zeta.
  assert (Hrun : do_ls [] (Sim.start [47; 0; 80; 21; 9] 0 0 sc_format_path_3F00)
                 = Returned 0
                     (final_state
                        (do_ls [] (Sim.start [47; 0; 80; 21; 9] 0 0 sc_format_path_3F00))
                        (Sim.start [47; 0; 80; 21; 9] 0 0 sc_format_path_3F00)))
    by (apply returned_eta; vm_compute; reflexivity).
  split; [exact Hrun|].
  destruct (do_ls_children _ _ _ Hrun) as (extra & Htr & _ & Hok).
  exists extra. split; [exact Htr|].
  rewrite (proj2 (Hok ltac:(vm_compute; discriminate))). reflexivity.
Defined.

(** ** More on get and put *)

Section Transfers.

Context {CI : CardInterface}.

Lemma do_put_loop_done (fuel : nat) (filename : string) (file : sc_file)
    (idx : Z) (buf : list Z) (st : shell_state) :
  do_put_loop fuel filename file idx buf 0 st = Returned (false, idx) st.
Proof. destruct fuel; reflexivity. Qed.

(** X15: a transfer by [do_put] that succeeds is a sequence of reads of the
    source file, each followed by an update of the card at the running
    offset with exactly as many bytes as were read, all of them taken by the
    card; a read shorter than asked ends the transfer, without an error, and
    the offset reached is the total that [do_put] reports. *)
Theorem do_put_loop_transfer (fuel : nat) (filename : string) (file : sc_file) :
  forall idx buf count st idx' st',
    do_put_loop fuel filename file idx buf count st = Returned (false, idx') st' ->
    exists t,
      trace st' = trace st ++ t /\ transfer_of filename idx t = Some idx'.
Proof.
  induction fuel as [|fuel IH]; intros idx buf count st idx' st' Hrun;
    cbn [do_put_loop] in Hrun;
    (destruct (count =? 0);
     [inversion Hrun; subst; exists []; rewrite app_nil_r; split; reflexivity|]);
    [discriminate|].
  cbv zeta in Hrun. unfold bind at 1, external in Hrun.
  set (c := if count >? 256 then 256 else count) in *.
  destruct (fread (card st) filename buf c) as [[r buf'] w].
  cbn [fst snd] in Hrun.
  set (st1 := after_call st w (Call_fread filename c r)) in *.
  destruct (r <? 0) eqn:Er.
  { unfold bind, eprintf in Hrun. inversion Hrun. }
  apply Z.ltb_ge in Er.
  destruct (r =? c) eqn:Ec; cbn [negb] in Hrun.
  - apply Z.eqb_eq in Ec.
    unfold bind at 1, external in Hrun.
    destruct (sc_update_binary (card st1) idx buf' c) as [r2 w2].
    set (st2 := after_call st1 w2
                  (Call_update_binary idx (firstn (Z.to_nat c) buf') c r2)) in *.
    destruct (r2 <? 0).
    { unfold bind at 1 in Hrun.
      destruct (check_ret_run r2 SC_AC_OP_READ "update failed" (Some file) st2)
        as (s3 & Hcr & _).
      rewrite Hcr in Hrun. inversion Hrun. }
    destruct (r2 =? c) eqn:E2; cbn [negb] in Hrun.
    2:{ rewrite printf_then in Hrun. inversion Hrun. }
    apply Z.eqb_eq in E2.
    apply IH in Hrun. destruct Hrun as (t & Ht & Hok).
    exists (Call_fread filename c r
            :: Call_update_binary idx (firstn (Z.to_nat c) buf') c r2 :: t).
    split.
    + rewrite Ht. cbn [trace after_call st2 st1]. rewrite <- !app_assoc. reflexivity.
    + cbn [transfer_of]. unfold streq. rewrite String.eqb_refl, Z.eqb_refl.
      rewrite E2, <- Ec, !Z.eqb_refl.
      replace (0 <=? r) with true by (symmetry; apply Z.leb_le; exact Er).
      cbn [andb]. rewrite Ec. exact Hok.
  - unfold bind at 1, external in Hrun.
    destruct (sc_update_binary (card st1) idx buf' r) as [r2 w2].
    set (st2 := after_call st1 w2
                  (Call_update_binary idx (firstn (Z.to_nat r) buf') r r2)) in *.
    destruct (r2 <? 0).
    { unfold bind at 1 in Hrun.
      destruct (check_ret_run r2 SC_AC_OP_READ "update failed" (Some file) st2)
        as (s3 & Hcr & _).
      rewrite Hcr in Hrun. inversion Hrun. }
    destruct (r2 =? r) eqn:E2; cbn [negb] in Hrun.
    2:{ rewrite printf_then in Hrun. inversion Hrun. }
    apply Z.eqb_eq in E2.
    rewrite Z.sub_diag in Hrun. change (size_t_wrap 0) with 0 in Hrun.
    rewrite do_put_loop_done in Hrun. injection Hrun as Hidx Hst.
    rewrite <- Hidx, <- Hst.
    exists [Call_fread filename c r;
            Call_update_binary idx (firstn (Z.to_nat r) buf') r r2].
    split.
    + cbn [trace after_call st2 st1]. rewrite <- !app_assoc. reflexivity.
    + cbn [transfer_of]. unfold streq.
      rewrite String.eqb_refl, E2, !Z.eqb_refl, Ec.
      replace (0 <=? r) with true by (symmetry; apply Z.leb_le; exact Er).
      reflexivity.
Qed.

End Transfers.

Lemma do_put_loop_transfer_witness :
  let file := {| file_type := SC_FILE_TYPE_WORKING_EF; file_id := 0;
                 file_size := 300; file_name := []; file_namelen := 0 |} in
  let st := Sim.start [] 0 300 sc_format_path_3F00 in
  let run := do_put_loop 5 "3F00" file 0 (repeat 0 256) 300 st in
  exists t,
    trace (final_state run st) = trace st ++ t
    /\ transfer_of "3F00" 0 t = Some 300.
Proof.
  cbv zeta.
  apply (do_put_loop_transfer 5 "3F00"
           {| file_type := SC_FILE_TYPE_WORKING_EF; file_id := 0;
              file_size := 300; file_name := []; file_namelen := 0 |}
           0 (repeat 0 256) 300).
  apply returned_eta. vm_compute. reflexivity.
Defined.

Section PutAndReturn.

Context {CI : CardInterface}.

Lemma do_put_loop_navigation (fuel : nat) (filename : string) (file : sc_file) :
  forall idx buf count st x st',
    do_put_loop fuel filename file idx buf count st = Returned x st' ->
    same_navigation st st'.
Proof.
  induction fuel as [|fuel IH]; intros idx buf count st x st' Hrun;
    cbn [do_put_loop] in Hrun;
    (destruct (count =? 0);
     [inversion Hrun; subst; apply same_navigation_refl|]);
    [discriminate|].
  cbv zeta in Hrun. unfold bind at 1, external in Hrun.
  set (c := if count >? 256 then 256 else count) in *.
  destruct (fread (card st) filename buf c) as [[r buf'] w].
  cbn [fst snd] in Hrun.
  set (st1 := after_call st w (Call_fread filename c r)) in *.
  assert (H1 : same_navigation st st1) by apply same_navigation_call.
  destruct (r <? 0).
  { unfold bind, eprintf in Hrun. inversion Hrun; subst.
    destruct H1 as (Hp & Hf & t & Ht). repeat split; try assumption.
    exists t. exact Ht. }
  destruct (negb (r =? c));
    unfold bind at 1, external in Hrun;
    match type of Hrun with
    | context [sc_update_binary ?a ?b ?d ?e] =>
        destruct (sc_update_binary a b d e) as [r2 w2]
    end;
    match type of Hrun with
    | context [after_call st1 ?ww ?k] =>
        set (st2 := after_call st1 ww k) in *;
        assert (H2 : same_navigation st st2)
          by apply (same_navigation_trans _ _ _ H1 (same_navigation_call _ _ _))
    end;
    (destruct (r2 <? 0);
     [unfold bind at 1 in Hrun;
      destruct (same_navigation_check_ret r2 SC_AC_OP_READ "update failed"
                  (Some file) st2) as (s3 & Hcr & H3);
      rewrite Hcr in Hrun; inversion Hrun; subst;
      apply (same_navigation_trans _ _ _ H2 H3)|]);
    (match type of Hrun with
     | (if ?b then _ else _) _ = _ => destruct b
     end;
     [rewrite printf_then in Hrun; inversion Hrun; subst;
      apply (same_navigation_trans _ _ _ H2 (same_navigation_stdout _ _))|]);
    apply IH in Hrun; apply (same_navigation_trans _ _ _ H2 Hrun).
Qed.

(** X16: [do_put] visits the file and comes back.  Whenever it returns, the
    current path and the cached attributes are what they were; and unless it
    stopped at its usage text, its last call to the card is a successful
    selection of the current path (when that path is not empty). *)
Theorem do_put_comes_back (fuel : nat) (argv : list string) (st st' : shell_state) (r : Z) :
  do_put fuel argv st = Returned r st' ->
  current_path st' = current_path st
  /\ current_file st' = current_file st
  /\ exists t,
       trace st' = trace st ++ t
       /\ (t = []
           \/ (has_address (current_path st) = true ->
               exists t0, t = t0 ++ [Call_select_file (current_path st) false 0])).
Proof.
  intros Hrun.
  assert (Husage : forall lines st0,
             Returned (-1) (add_stdout st lines) = Returned r st0 ->
             current_path st0 = current_path st
             /\ current_file st0 = current_file st
             /\ exists t,
                  trace st0 = trace st ++ t
                  /\ (t = []
                      \/ (has_address (current_path st) = true ->
                          exists t0, t = t0 ++ [Call_select_file (current_path st) false 0]))).
  { intros lines st0 Heq. inversion Heq; subst. repeat split.
    exists []. split; [cbn; rewrite app_nil_r; reflexivity | left; reflexivity]. }
  unfold do_put in Hrun.
  destruct ((argc argv <? 1) || (argc argv >? 2)).
  { unfold do_put_usage in Hrun. rewrite printf_then in Hrun.
    apply (Husage _ _ Hrun). }
  unfold bind at 1 in Hrun.
  destruct (arg_to_path_frame (arg argv 0) false st) as (r1 & path & lines & Harg).
  rewrite Harg in Hrun.
  destruct (negb (r1 =? 0)).
  { unfold do_put_usage in Hrun. rewrite printf_then, add_stdout_app in Hrun.
    apply (Husage _ _ Hrun). }
  cbv zeta in Hrun.
  set (filename := if argc argv =? 2 then arg argv 1
                   else do_put_default_filename path) in *.
  unfold bind at 1, external at 1 in Hrun. cbn [card add_stdout] in Hrun.
  destruct (fopen (card st) filename "rb") as [opened w].
  match type of Hrun with
  | context [after_call ?s w ?k] =>
      set (s0 := after_call s w k) in *;
      assert (H0 : same_navigation st s0)
        by apply (same_navigation_trans _ _ _ (same_navigation_stdout st lines)
                    (same_navigation_call _ _ _))
  end.
  unfold bind at 1 in Hrun.
  match type of Hrun with
  | match ?body s0 with _ => _ end = _ =>
      destruct (body s0) as [e s1| | |] eqn:Hbody; try discriminate
  end.
  assert (H1 : same_navigation st s1).
  { destruct (negb opened).
    { unfold bind, eprintf in Hbody. inversion Hbody; subst.
      destruct H0 as (Hp & Hf & t & Ht). repeat split; try assumption.
      exists t. exact Ht. }
    unfold bind at 1 in Hbody. rewrite select_file_run in Hbody.
    destruct (sc_select_file (card s0) path true) as [[rs file] ws].
    cbn [fst snd] in Hbody.
    match type of Hbody with
    | context [after_call s0 ws ?k] =>
        set (s2 := after_call s0 ws k) in *;
        assert (H2 : same_navigation st s2)
          by apply (same_navigation_trans _ _ _ H0 (same_navigation_call _ _ _))
    end.
    destruct (negb (rs =? 0)).
    { unfold bind at 1, get_current_file in Hbody. unfold bind at 1 in Hbody.
      match type of Hbody with
      | context [check_ret ?a ?b ?c ?d ?s] =>
          destruct (same_navigation_check_ret a b c d s) as (s3 & Hcr & H3)
      end.
      rewrite Hcr in Hbody. inversion Hbody; subst.
      apply (same_navigation_trans _ _ _ H2 H3). }
    unfold bind at 1 in Hbody.
    destruct (do_put_loop fuel filename file 0 (repeat 0 256) (file_size file) s2)
      as [[failed idx] s3| | |] eqn:Hloop; try discriminate.
    apply do_put_loop_navigation in Hloop.
    pose proof (same_navigation_trans _ _ _ H2 Hloop) as H3.
    destruct failed.
    - inversion Hbody; subst. exact H3.
    - rewrite printf_then in Hbody. inversion Hbody; subst.
      apply (same_navigation_trans _ _ _ H3 (same_navigation_stdout _ _)). }
  unfold bind at 1 in Hrun.
  destruct (select_current_path_or_die s1) as [[] s2| | |] eqn:Esel; try discriminate.
  inversion Hrun; subst.
  destruct (restored_after_visit st s1 st' H1 Esel) as (Hp & Hf & t & Ht & Hlast).
  split; [exact Hp|]. split; [exact Hf|].
  exists t. split; [exact Ht | right; exact Hlast].
Qed.

End PutAndReturn.

Lemma do_put_comes_back_witness :
  let st := Sim.start [] 0 300 sc_format_path_3F00 in
  let st' := final_state (do_put 300 ["2F00"%string] st) st in
  do_put 300 ["2F00"%string] st = Returned 0 st'
  /\ current_path st' = current_path st
  /\ current_file st' = current_file st.
Proof.
  cbv zeta.
  assert (Hrun : do_put 300 ["2F00"%string] (Sim.start [] 0 300 sc_format_path_3F00)
                 = Returned 0
                     (final_state
                        (do_put 300 ["2F00"%string]
                           (Sim.start [] 0 300 sc_format_path_3F00))
                        (Sim.start [] 0 300 sc_format_path_3F00)))
    by (apply returned_eta; vm_compute; reflexivity).
  split; [exact Hrun|].
  destruct (do_put_comes_back _ _ _ _ _ Hrun) as (Hp & Hf & _).
  split; assumption.
Defined.



Section GetWithoutAddress.

Context {CI : CardInterface}.

(** X18: when the token is the prefix aid: followed by no hex digit and no
    file name is given, [do_get] has no pair to name its output after: the
    terminating NUL is stored one byte before the start of the name buffer,
    which C leaves undefined. *)
Theorem do_get_without_address (fuel : nat) (a : string) (st : shell_state) :
  strncasecmp a "aid:" 4 = 0 ->
  hex_digits (advance a 4) = [] ->
  do_get fuel [a] st = Undefined.
Proof.
  intros Hprefix Hnone.
  assert (Hn : List.length (hex_digits (advance a 4)) = (2 * 0)%nat)
    by (rewrite Hnone; reflexivity).
  assert (Hroom : Z.of_nat 0 <= SC_MAX_PATH_SIZE) by (unfold SC_MAX_PATH_SIZE; lia).
  destruct (hex2binary_even SC_MAX_PATH_SIZE (advance a 4) 0 Hn Hroom) as [Hdec _].
  unfold do_get.
  change (argc [a]) with 1. change (arg [a] 0) with a.
  cbn [Z.ltb Z.gtb Z.eqb Z.compare Pos.compare Pos.compare_cont orb].
  unfold bind at 1. unfold arg_to_path.
  change (strlen "aid:") with 4. change (Z.to_nat 4) with 4%nat.
  rewrite Hprefix, Hdec.
  cbn [Z.eqb h2b_printed h2b_out h2b_ret print_lines Z.of_nat negb].
  reflexivity.
Qed.

End GetWithoutAddress.

Lemma do_get_without_address_witness :
  do_get 10 ["AID:"%string] (Sim.start [] 0 10 sc_format_path_3F00) = Undefined.
Proof.
  apply (do_get_without_address 10 "AID:"); reflexivity.
Defined.

(** ** The prompt *)

Lemma string_length_app (a b : string) :
  String.length (a ++ b)%string = (String.length a + String.length b)%nat.
Proof. induction a as [|c a IH]; [reflexivity | cbn; rewrite IH; reflexivity]. Qed.

Lemma prompt_loop_length (p : sc_path) (n : nat) :
  forall i,
    Z.of_nat (String.length (prompt_loop n (S i) p))
    = 2 * Z.of_nat n
      + (if path_type p =? SC_PATH_TYPE_DF_NAME then 0
         else (Z.of_nat i + Z.of_nat n) / 2 - Z.of_nat i / 2).
Proof.
  induction n as [|n IH]; intros i.
  - cbn [prompt_loop String.length]. rewrite Z.add_0_r, Z.sub_diag.
    destruct (path_type p =? SC_PATH_TYPE_DF_NAME); reflexivity.
  - cbn [prompt_loop].
    destruct (hex2_two_chars (nth (S i) (path_value p) 0)) as (x & y & ->).
    rewrite !string_length_app. cbn [String.length].
    rewrite !Nat2Z.inj_add, IH.
    change (Z.land (Z.of_nat (S i)) 1) with (Z.land (Z.of_nat (S i)) (Z.ones 1)).
    rewrite Z.land_ones by lia. change (2 ^ 1) with 2.
    replace (Z.of_nat (S i) =? 0) with false by (symmetry; apply Z.eqb_neq; lia).
    cbn [negb andb].
    destruct (path_type p =? SC_PATH_TYPE_DF_NAME).
    + rewrite andb_false_r. cbn [negb String.length]. lia.
    + rewrite andb_true_r.
      destruct (Z.of_nat (S i) mod 2 =? 0) eqn:E;
        [apply Z.eqb_eq in E | apply Z.eqb_neq in E];
        cbn [andb String.length]; rewrite ?Nat2Z.inj_succ in *;
        Z.div_mod_to_equations; lia.
Qed.

Lemma prompt_length (p : sc_path) :
  0 <= path_len p ->
  Z.of_nat (String.length (prompt p))
  = 11 + 2 * path_len p
    + (if path_type p =? SC_PATH_TYPE_DF_NAME then 0
       else if path_len p =? 0 then 0 else (path_len p - 1) / 2).
Proof.
  intros Hlen. unfold prompt.
  rewrite !string_length_app. cbn [String.length].
  rewrite !Nat2Z.inj_add.
  destruct (Z.to_nat (path_len p)) as [|n] eqn:En.
  - assert (path_len p = 0) by lia.
    replace (path_len p =? 0) with true by (symmetry; apply Z.eqb_eq; assumption).
    cbn [prompt_loop String.length].
    destruct (path_type p =? SC_PATH_TYPE_DF_NAME); lia.
  - assert (Hn : path_len p = Z.of_nat (S n)) by lia.
    replace (path_len p =? 0) with false by (symmetry; apply Z.eqb_neq; lia).
    cbn [prompt_loop].
    destruct (hex2_two_chars (nth 0 (path_value p) 0)) as (x & y & ->).
    change (Z.of_nat 0 =? 0) with true. cbn [negb andb].
    change (Z.land (Z.of_nat 0) 1 =? 0) with true.
    cbn [andb String.append String.length].
    rewrite !Nat2Z.inj_succ, (prompt_loop_length p n 0), Hn.
    destruct (path_type p =? SC_PATH_TYPE_DF_NAME);
      Z.div_mod_to_equations; lia.
Qed.

(** X19: the prompt holds 11 characters around two hex digits for each byte
    of the current path, and a slash between the file identifiers unless
    the path is an AppId.  With its terminating NUL it fits the 40 bytes
    of [char prompt[40]] exactly when the path has at most 11 bytes, or at
    most 14 for an AppId: deeper paths, which [sc_path_t] allows up to 16
    bytes, are written past the end of the buffer. *)
Theorem prompt_fits_buffer (p : sc_path) :
  0 <= path_len p ->
  (Z.of_nat (String.length (prompt p)) + 1 <= 40
   <-> path_len p <= (if path_type p =? SC_PATH_TYPE_DF_NAME then 14 else 11)).
Proof.
  intros Hlen. rewrite (prompt_length p Hlen).
  destruct (path_type p =? SC_PATH_TYPE_DF_NAME).
  - lia.
  - destruct (path_len p =? 0) eqn:E;
      [apply Z.eqb_eq in E | apply Z.eqb_neq in E];
      Z.div_mod_to_equations; lia.
Qed.

Lemma prompt_fits_buffer_witness :
  let deep := set_path_len sc_format_path_3F00 12 in
  ~ (Z.of_nat (String.length (prompt deep)) + 1 <= 40).
Proof.
  cbv zeta. intros Hfit.
  apply (prompt_fits_buffer (set_path_len sc_format_path_3F00 12)) in Hfit.
  - vm_compute in Hfit. apply Hfit. reflexivity.
  - vm_compute. discriminate.
Defined.

(** ** More on AppId tokens *)

Lemma hex2binary_digits_room (ds : list ascii) :
  forall len s out,
    0 <= len -> 0 <= fst (fst (hex2binary_digits ds len s out)) <= len.
Proof.
  induction ds as [|d ds IH]; intros len s out Hlen; cbn [hex2binary_digits].
  - cbn [fst]. lia.
  - destruct (len =? 0) eqn:E; [apply Z.eqb_eq in E | apply Z.eqb_neq in E];
      destruct s; cbn [negb orb fst]; try lia;
      match goal with
      | |- context [hex2binary_digits ds ?l ?b ?o] =>
          pose proof (IH l b o ltac:(lia)); lia
      end.
Qed.

Section AnyAppId.

Context {CI : CardInterface}.

(** X20: a token with the prefix aid: is never refused.  [arg_to_path]
    returns 0 with an AppId address of 0 to 16 bytes; it prints nothing, or
    the decoder's complaint about an odd number of digits, and then the
    address is the empty one. *)
Theorem arg_to_path_aid_accepted (a : string) (is_id : bool) (st : shell_state) :
  strncasecmp a "aid:" 4 = 0 ->
  exists path lines,
    arg_to_path a is_id st = Returned (0, path) (add_stdout st lines)
    /\ path_type path = SC_PATH_TYPE_DF_NAME
    /\ 0 <= path_len path <= SC_MAX_PATH_SIZE
    /\ (lines = []
        \/ (lines = ["Error: the number of hex digits must be even."%string]
            /\ path_len path = 0)).
Proof.
  intros Hprefix. unfold arg_to_path.
  change (strlen "aid:") with 4. change (Z.to_nat 4) with 4%nat.
  rewrite Hprefix. cbn [Z.eqb]. cbv zeta.
  unfold bind at 1. rewrite print_lines_run.
  eexists. eexists. split; [reflexivity|].
  cbn [path_type path_len set_path_type set_path_len set_path_value].
  split; [reflexivity|].
  unfold hex2binary. rewrite hex2binary_loop_digits.
  pose proof (hex2binary_digits_room (hex_digits (advance a 4)) SC_MAX_PATH_SIZE
                false [] ltac:(unfold SC_MAX_PATH_SIZE; lia)) as Hroom.
  destruct (hex2binary_digits (hex_digits (advance a 4)) SC_MAX_PATH_SIZE false [])
    as [[len s] out].
  cbn [fst] in Hroom.
  destruct s; cbn [h2b_ret h2b_printed].
  - split; [unfold SC_MAX_PATH_SIZE; lia|]. right. split; reflexivity.
  - split; [lia|]. left. reflexivity.
Qed.

End AnyAppId.

Lemma arg_to_path_aid_accepted_witness :
  exists path lines,
    arg_to_path "aid:A0:00:1" false (Sim.start [] 0 0 sc_format_path_3F00)
    = Returned (0, path) (add_stdout (Sim.start [] 0 0 sc_format_path_3F00) lines)
    /\ path_type path = SC_PATH_TYPE_DF_NAME.
Proof.
  destruct (arg_to_path_aid_accepted "aid:A0:00:1" false
              (Sim.start [] 0 0 sc_format_path_3F00) eq_refl)
    as (path & lines & Hrun & Htype & _).
  exists path, lines. split; assumption.
Defined.
